(** * validata: rule parser, comparator and operator registries

    A shallow embedding of the expression engine of [validata]
    (parser.py, comparators.py, comparators/, operators/) together with
    the part of pandas the engine relies on, and the properties of the
    engine stated over it.

    Conventions of the embedding.
    - A pandas [DataFrame] is a list of labelled columns over the
      positional row index [0 .. nrows-1]; a [Series] is a dtype and a
      list of cells.
    - The numeric columns are float64 columns; integer columns are not
      part of the embedding.  A cell of a float64 column holds the
      rational [Q] its float stands for, or is missing: no cell is
      infinite, and the float NaN and the object [None] are the one cell
      [VNaN].  The arithmetic the code does on floats is that of binary64
      ([pyfloat]): every operation is rounded to the nearest float, ties
      to even, and overflows to an infinity.  What pandas computes of a
      column ([quantile], [mean], [std], [median]) is taken as given
      ([Pandas]).
    - The labels of the columns of a dataset are strings.
    - A Python exception is a value of [exn]; a call that may raise
      returns a [res]. *)

From Stdlib Require Import List String Ascii Bool Arith ZArith QArith Qround Qabs Lia.
From Stdlib Require Import DecimalString.
Import ListNotations.
Local Open Scope string_scope.
Local Open Scope list_scope.

(* ================================================================== *)
(** ** Exceptions and results *)

Inductive exn_kind : Type :=
| TypeError
| ValueError
| RuntimeError
| AttributeError
| StopIteration.

(** [Raised k msg] is an exception raised by the code of the repository
    (or by the interpreter on its behalf) with message [msg];
    [RaisedAbout k before after] is one whose message is [before], then
    the text Python prints for the target of the call when that target is
    no string, then [after];
    [LibraryError k] is one raised inside pandas or numpy, whose message
    is not modelled. *)
Inductive exn : Type :=
| Raised (k : exn_kind) (msg : string)
| RaisedAbout (k : exn_kind) (before after : string)
| LibraryError (k : exn_kind).

Inductive res (A : Type) : Type :=
| Ok (a : A)
| Raise (e : exn).
Arguments Ok {A} a.
Arguments Raise {A} e.

Definition bind {A B : Type} (m : res A) (f : A -> res B) : res B :=
  match m with
  | Ok a => f a
  | Raise e => Raise e
  end.

Notation "x <- m ;; k" := (bind m (fun x => k))
  (at level 61, m at next level, right associativity).
Notation "' pat <- m ;; k" := (bind m (fun x => match x with pat => k end))
  (at level 61, pat pattern, m at next level, right associativity).

Definition fmap {A B : Type} (f : A -> B) (m : res A) : res B :=
  x <- m ;; Ok (f x).

Fixpoint mapM {A B : Type} (f : A -> res B) (l : list A) : res (list B) :=
  match l with
  | [] => Ok []
  | a :: l' => b <- f a ;; bs <- mapM f l' ;; Ok (b :: bs)
  end.

(* ================================================================== *)
(** ** The pandas data model *)

(** Column and row labels.  [to_frame()] of an unnamed Series labels its
    column with the integer [0]. *)
Inductive label : Type :=
| LStr (s : string)
| LInt (z : Z).

Definition label_eqb (a b : label) : bool :=
  match a, b with
  | LStr s, LStr t => String.eqb s t
  | LInt x, LInt y => Z.eqb x y
  | _, _ => false
  end.

(** A cell. *)
Inductive value : Type :=
| VNum (q : Q)
| VStr (s : string)
| VBool (b : bool)
| VNaN.

Inductive dtype : Type :=
| float64
| object
| bool_.

Definition dtype_eqb (a b : dtype) : bool :=
  match a, b with
  | float64, float64 | object, object | bool_, bool_ => true
  | _, _ => false
  end.

Record Series : Type := mkSeries {
  s_dtype : dtype;
  s_values : list value
}.

Record DataFrame : Type := mkFrame {
  nrows : nat;
  columns : list (label * Series)
}.

Definition shape (df : DataFrame) : nat * nat :=
  (nrows df, List.length (columns df)).

Definition cell (s : Series) (i : nat) : value := nth i (s_values s) VNaN.

(** [pd.DataFrame()]: no columns and an empty index. *)
Definition empty_frame : DataFrame := mkFrame 0 [].

(** A frame is well formed when each column has one cell per row. *)
Definition wf_frame (df : DataFrame) : Prop :=
  Forall (fun c => List.length (s_values (snd c)) = nrows df) (columns df).

(** Python truth value of a cell, as [np.all] / [np.any] take it: NaN and
    non-empty strings are true. *)
Definition truthy (v : value) : bool :=
  match v with
  | VBool b => b
  | VNum q => negb (Qeq_bool q 0)
  | VStr s => negb (String.eqb s "")
  | VNaN => true
  end.

Definition bool_series (bs : list bool) : Series :=
  mkSeries bool_ (map VBool bs).

(** [Series.to_frame()] of an unnamed Series of [n] rows. *)
Definition to_frame (bs : list bool) : DataFrame :=
  mkFrame (List.length bs) [(LInt 0, bool_series bs)].

(** A one-column boolean frame. *)
Definition bool_frame (l : label) (bs : list bool) : DataFrame :=
  mkFrame (List.length bs) [(l, bool_series bs)].

(** [str(label)] for the labels that occur. *)
Definition label_str (l : label) : string :=
  match l with
  | LStr s => s
  | LInt z => DecimalString.NilZero.string_of_int (Z.to_int z)
  end.

Definition has_label (l : label) (cols : list (label * Series)) : bool :=
  existsb (fun c => label_eqb (fst c) l) cols.

(** [left.join(right, rsuffix=suffix)]: a left join on the row index.
    The rows are those of [left]; a right cell of a row that [right] does
    not have is missing.  A right label that also occurs in [left] gets
    the suffix. *)
Definition join (left right : DataFrame) (rsuffix : string) : DataFrame :=
  let rename (c : label * Series) :=
    if has_label (fst c) (columns left)
    then LStr (label_str (fst c) ++ rsuffix) else fst c in
  let realign (s : Series) :=
    mkSeries (s_dtype s) (map (cell s) (seq 0 (nrows left))) in
  mkFrame (nrows left)
          (columns left
           ++ map (fun c => (rename c, realign (snd c))) (columns right)).

(** [np.all(df, axis=1)] and [np.any(df, axis=1)]: one boolean per row. *)
Definition np_all (df : DataFrame) : list bool :=
  map (fun i => forallb (fun c => truthy (cell (snd c) i)) (columns df))
      (seq 0 (nrows df)).

Definition np_any (df : DataFrame) : list bool :=
  map (fun i => existsb (fun c => truthy (cell (snd c) i)) (columns df))
      (seq 0 (nrows df)).

(** [df.columns = [name]]: pandas refuses a list of another length. *)
Definition set_columns (df : DataFrame) (name : string) : res DataFrame :=
  match columns df with
  | [(_, s)] => Ok (mkFrame (nrows df) [(LStr name, s)])
  | _ => Raise (LibraryError ValueError)
  end.

(* ================================================================== *)
(** ** Parser (parser.py) *)

Module Parser.

Inductive token_type : Type := AND | OR | GROUP_OPEN | GROUP_CLOSE | EXPR.

Record token : Type := mkToken { type : token_type; value : string }.

(** Modelled from the spec: the Tokenizer (validata/tokenizer.py is not
    part of the sources).  It is a forward-only cursor over the tokens of
    the rule, shared by all the nested calls of [evaluate]; both the
    [for] loop and [next()] pull the token under the cursor, and pulling
    from an exhausted tokenizer signals the end of the input.  The state
    of the tokenizer is the list of the tokens not pulled yet. *)
Definition Tokenizer : Type := list token.

(** [Parser.token_types]: the markers of each kind of token. *)
Definition token_types : list (token_type * list string) :=
  [ (AND, [" and "; " & "]);
    (OR, [" or "; " | "]);
    (GROUP_OPEN, ["("]);
    (GROUP_CLOSE, [")"]) ].

Fixpoint is_prefix (p s : string) : bool :=
  match p, s with
  | EmptyString, _ => true
  | String a p', String b s' => Ascii.eqb a b && is_prefix p' s'
  | String _ _, EmptyString => false
  end.

(** The marker that starts at the head of [s], if any. *)
Definition marker_at (s : string) : option token :=
  let all := flat_map (fun e => map (fun m => mkToken (fst e) m) (snd e))
                      token_types in
  find (fun t => is_prefix (value t) s) all.

Definition is_space (c : ascii) : bool :=
  let n := nat_of_ascii c in
  (n =? 32)%nat || ((9 <=? n)%nat && (n <=? 13)%nat)
  || ((28 <=? n)%nat && (n <=? 31)%nat).

Fixpoint lstrip (s : string) : string :=
  match s with
  | String c s' => if is_space c then lstrip s' else s
  | EmptyString => EmptyString
  end.

Fixpoint rev_string (s acc : string) : string :=
  match s with
  | EmptyString => acc
  | String c s' => rev_string s' (String c acc)
  end.

(** [text.strip()], for a text given in reverse. *)
Definition strip_rev (racc : string) : string :=
  lstrip (rev_string (lstrip racc) EmptyString).

Definition expr_token (racc : string) : list token :=
  match strip_rev racc with
  | EmptyString => []
  | text => [mkToken EXPR text]
  end.

(** Modelled from the spec: the lexing of the Tokenizer.  The text is
    scanned for the leftmost marker; the text before it, trimmed and if
    not empty, is an [EXPR] token, the marker a token of its kind, and
    the scan goes on after the marker; what is left at the end is a last
    [EXPR] token.  [skip] counts the characters of a marker still to be
    passed over, [racc] holds the pending text in reverse. *)
Fixpoint lex (s : string) (skip : nat) (racc : string) : list token :=
  match skip with
  | S k =>
      match s with
      | EmptyString => expr_token racc
      | String _ s' => lex s' k racc
      end
  | O =>
      match marker_at s with
      | Some t =>
          expr_token racc ++ t ::
          match s with
          | EmptyString => []
          | String _ s' => lex s' (String.length (value t) - 1) EmptyString
          end
      | None =>
          match s with
          | EmptyString => expr_token racc
          | String c s' => lex s' 0 (String c racc)
          end
      end
  end.

Fixpoint replace_newlines (s : string) : string :=
  match s with
  | EmptyString => EmptyString
  | String c s' =>
      String (if Ascii.eqb c "010"%char then " "%char else c)
             (replace_newlines s')
  end.

(** [Parser.__init__]: the tokenizer over the rule, new lines replaced by
    spaces. *)
Definition init (expression : string) : Tokenizer :=
  lex (replace_newlines expression) 0 EmptyString.

(** The leaf evaluator, [Evaluator(text).evaluate(df)]
    (validata/evaluator.py is not part of the sources): the parser takes
    it as a parameter. *)
Definition Evaluator : Type := string -> DataFrame -> res DataFrame.

(** The end of [evaluate]: [result.columns = [self._id]; return result]. *)
Definition finish (id : string) (result : option DataFrame)
  : res DataFrame :=
  match result with
  | None =>
      Raise (Raised AttributeError
                    "'NoneType' object has no attribute 'columns'")
  | Some r => set_columns r id
  end.

(** [Parser.evaluate].  [loop fuel ev id df result toks] runs the [for]
    loop with the local variable [result] and the tokenizer state [toks];
    it returns the value of [evaluate] and the state the tokenizer is
    left in.  [None] is returned when [fuel] runs out. *)
Fixpoint loop (fuel : nat) (ev : Evaluator) (id : string) (df : DataFrame)
    (result : option DataFrame) (toks : Tokenizer)
  : option (res (DataFrame * Tokenizer)) :=
  match fuel with
  | O => None
  | S fuel' =>
    match toks with
    | [] => Some (r <- finish id result ;; Ok (r, []))
    | tok :: rest =>
      match type tok with
      | GROUP_OPEN =>
          match loop fuel' ev id df None rest with
          | None => None
          | Some (Raise e) => Some (Raise e)
          | Some (Ok (r, rest')) => loop fuel' ev id df (Some r) rest'
          end
      | GROUP_CLOSE => Some (r <- finish id result ;; Ok (r, rest))
      | AND | OR =>
          match result with
          | None =>
              Some (Raise (Raised ValueError
                 "Use of and / or without left hand side expression."))
          | Some res =>
            match rest with
            | [] => Some (Raise (Raised StopIteration ""))
            | next_token :: rest' =>
              let right :=
                match type next_token with
                | GROUP_OPEN => loop fuel' ev id df None rest'
                | _ => Some (rh <- ev (value next_token) df ;; Ok (rh, rest'))
                end in
              match right with
              | None => None
              | Some (Raise e) => Some (Raise e)
              | Some (Ok (right_hand, rest'')) =>
                  let joined := join res right_hand "_rh" in
                  let combined :=
                    match type tok with
                    | AND => to_frame (np_all joined)
                    | _ => to_frame (np_any joined)
                    end in
                  loop fuel' ev id df (Some combined) rest''
              end
            end
          end
      | EXPR =>
          match result with
          | Some _ =>
              Some (Raise (Raised ValueError
                 "Expected and / or, got expression instead."))
          | None =>
              match ev (value tok) df with
              | Raise e => Some (Raise e)
              | Ok r => loop fuel' ev id df (Some r) rest
              end
          end
      end
    end
  end.

Definition evaluate (fuel : nat) (ev : Evaluator) (id : string)
    (df : DataFrame) (toks : Tokenizer)
  : option (res (DataFrame * Tokenizer)) :=
  loop fuel ev id df None toks.

(** Fuel that is always enough: every iteration pulls a token. *)
Definition enough (toks : Tokenizer) : nat := S (List.length toks).

End Parser.

(* ================================================================== *)
(** ** Symbol registries (comparators/base.py, operators/base.py) *)

(** A Python class as the registries see it: its name, its own [symbol]
    attribute if it has one, and its direct subclasses in the order of
    their definition ([cls.__subclasses__()]). *)
#[warnings="-register-all"]
Inductive class : Type :=
| Class (name : string) (symbol : option string) (subclasses : list class).

Definition class_name (c : class) : string :=
  match c with Class n _ _ => n end.

Definition class_symbol (c : class) : option string :=
  match c with Class _ s _ => s end.

(** [cls.get_subclasses()]: the subclasses that have a symbol, looking
    below those that have none. *)
Fixpoint get_subclasses (cls : class) : list class :=
  match cls with
  | Class _ _ subs =>
      (fix each (l : list class) : list class :=
         match l with
         | [] => []
         | subclass :: l' =>
             match class_symbol subclass with
             | None => get_subclasses subclass ++ each l'
             | Some _ => subclass :: each l'
             end
         end) subs
  end.

(** The dict [{c.symbol: c for c in cls.get_subclasses()}], as the list
    of its items in the order of insertion; a later class replaces an
    earlier one of the same symbol. *)
Fixpoint symbols_dict (l : list class) (d : list (string * class))
  : list (string * class) :=
  match l with
  | [] => d
  | c :: l' =>
      match class_symbol c with
      | Some s =>
          let d' :=
            if existsb (fun e => String.eqb (fst e) s) d
            then map (fun e => if String.eqb (fst e) s then (s, c) else e) d
            else d ++ [(s, c)] in
          symbols_dict l' d'
      | None => symbols_dict l' d
      end
  end.

Definition dict_get (d : list (string * class)) (s : string) : option class :=
  option_map snd (find (fun e => String.eqb (fst e) s) d).

(** [cls.list()]: the symbols of the registry. *)
Definition registry_list (cls : class) : list string :=
  map fst (symbols_dict (get_subclasses cls) []).

(** [cls.get(symbol)]; [what] is the word of the message. *)
Definition registry_get (what : string) (cls : class) (symbol : string)
  : res class :=
  let symbols := symbols_dict (get_subclasses cls) [] in
  match dict_get symbols symbol with
  | None => Raise (Raised TypeError ("Unknown " ++ what ++ ": " ++ symbol ++ "."))
  | Some c => Ok c
  end.

Module Comparator.

Definition get : class -> string -> res class := registry_get "Comparator".
Definition list : class -> list string := registry_list.

(** The classes of the package [validata.comparators]. *)
Definition RowComparator : class :=
  Class "RowComparator" None
    [ Class "NullComparator" (Some "missing") [];
      Class "NotNullComparator" (Some "not missing") [];
      Class "EqComparator" (Some "==") [];
      Class "UnEqComparator" (Some "!=") [];
      Class "GtComparator" (Some ">") [];
      Class "GtEqComparator" (Some ">=") [];
      Class "LtComparator" (Some "<") [];
      Class "LtEqComparator" (Some "<=") [];
      Class "InComparator" (Some "in") [];
      Class "BetweenComparator" (Some "between") [];
      Class "ContainsComparator" (Some "contains") [];
      Class "RankComparator" (Some "ranks in") [];
      Class "OutlierComparator" (Some "is outlier by") [] ].

Definition ColumnComparator : class := Class "ColumnComparator" None [].

Definition root : class :=
  Class "Comparator" None [RowComparator; ColumnComparator].

(** The classes of the flat module [validata.comparators] (comparators.py),
    each a direct subclass of its [Comparator]. *)
Definition legacy_root : class :=
  Class "Comparator" None
    [ Class "EqComparator" (Some "==") [];
      Class "UnEqComparator" (Some "!=") [];
      Class "GtComparator" (Some ">") [];
      Class "GtEqComparator" (Some ">=") [];
      Class "LtComparator" (Some "<") [];
      Class "LtEqComparator" (Some "<=") [];
      Class "InComparator" (Some "in") [];
      Class "BetweenComparator" (Some "between") [];
      Class "NullComparator" (Some "missing") [];
      Class "NotNullComparator" (Some "not missing") [];
      Class "RankComparator" (Some "ranks in") [];
      Class "ContainsComparator" (Some "contains") [];
      Class "OutlierComparator" (Some "is outlier by") [] ].

End Comparator.

Module Operator.

Definition get : class -> string -> res class := registry_get "Operator".
Definition list : class -> list string := registry_list.

Definition DataOperator : class :=
  Class "DataOperator" None
    [ Class "MeanOperator" (Some "mean") [];
      Class "MedianOperator" (Some "median") [];
      Class "MinOperator" (Some "min") [];
      Class "MaxOperator" (Some "max") [];
      Class "SumOperator" (Some "sum") [] ].

Definition LogicalOperator : class :=
  Class "LogicalOperator" None
    [ Class "AnyOperator" (Some "any") [];
      Class "AllOperator" (Some "all") [];
      Class "NoneOperator" (Some "none") [] ].

Definition root : class := Class "Operator" None [DataOperator; LogicalOperator].

End Operator.

(** [needle in hay] for strings. *)
Fixpoint occurs (needle hay : string) : bool :=
  Parser.is_prefix needle hay ||
  match hay with
  | EmptyString => false
  | String _ hay' => occurs needle hay'
  end.

(* ================================================================== *)
(** ** Cells, Series and the operations of pandas the comparators use *)

Definition Qlt_bool (x y : Q) : bool := negb (Qle_bool y x).

(** A comparison target: a scalar (Python [None] is the missing scalar
    [VNaN]) or a [pd.Series] over the positional index. *)
Inductive target : Type :=
| TScalar (v : value)
| TSeries (s : Series).

Definition isna (v : value) : bool :=
  match v with VNaN => true | _ => false end.

(** The number a cell stands for in a comparison; a boolean counts as 0
    or 1. *)
Definition to_number (v : value) : option Q :=
  match v with
  | VNum q => Some q
  | VBool b => Some (if b then 1 else 0)
  | _ => None
  end.

(** Elementwise [eq] and [ne] of pandas: a missing cell equals nothing,
    text equals text only. *)
Definition value_eq (a b : value) : bool :=
  match a, b with
  | VNaN, _ | _, VNaN => false
  | VStr s, VStr t => String.eqb s t
  | VStr _, _ | _, VStr _ => false
  | _, _ =>
      match to_number a, to_number b with
      | Some x, Some y => Qeq_bool x y
      | _, _ => false
      end
  end.

Definition value_ne (a b : value) : bool :=
  match a, b with
  | VNaN, _ | _, VNaN => true
  | VStr s, VStr t => negb (String.eqb s t)
  | VStr _, _ | _, VStr _ => true
  | _, _ =>
      match to_number a, to_number b with
      | Some x, Some y => negb (Qeq_bool x y)
      | _, _ => true
      end
  end.

(** Elementwise order comparison: false on a missing cell, by code point
    on text, a [TypeError] between text and a number. *)
Definition value_cmp (num : Q -> Q -> bool) (str : string -> string -> bool)
    (a b : value) : res bool :=
  match a, b with
  | VNaN, _ | _, VNaN => Ok false
  | VStr s, VStr t => Ok (str s t)
  | VStr _, _ | _, VStr _ => Raise (LibraryError TypeError)
  | _, _ =>
      match to_number a, to_number b with
      | Some x, Some y => Ok (num x y)
      | _, _ => Ok false
      end
  end.

Definition value_lt : value -> value -> res bool :=
  value_cmp Qlt_bool String.ltb.
Definition value_le : value -> value -> res bool :=
  value_cmp Qle_bool String.leb.
Definition value_gt : value -> value -> res bool :=
  value_cmp (fun x y => Qlt_bool y x) (fun s t => String.ltb t s).
Definition value_ge : value -> value -> res bool :=
  value_cmp (fun x y => Qle_bool y x) (fun s t => String.leb t s).

(** *** Floats *)

(** A Python [float], which is a float64 of numpy: a finite number, an
    infinity or NaN.  The two zeros are not told apart (no operation of
    the code tells them apart). *)
Inductive pyfloat : Type :=
| FNum (q : Q)
| FInf (negative : bool)
| FNaN.

(** The integer nearest to [a / b], the even one of two at the same
    distance. *)
Definition round_half_even (a : Z) (b : positive) : Z :=
  let f := (a / Zpos b)%Z in
  match (2 * (a mod Zpos b) ?= Zpos b)%Z with
  | Lt => f
  | Gt => (f + 1)%Z
  | Eq => if Z.even f then f else (f + 1)%Z
  end.

(** The exponent of the unit in the last place of [n / d]: the [e] with
    [2^52 <= (n / d) / 2^e < 2^53], and [-1074] for the numbers below the
    normal range. *)
Definition ulp_exponent (n d : positive) : Z :=
  let e := (Z.log2 (Zpos n) - Z.log2 (Zpos d) - 52)%Z in
  let reaches :=
    if (0 <=? e + 52)%Z
    then (Zpos d * 2 ^ (e + 52) <=? Zpos n)%Z
    else (Zpos d <=? Zpos n * 2 ^ (- (e + 52)))%Z in
  Z.max (if reaches then e else e - 1) (-1074).

(** The float nearest to the positive rational [n / d], as a rational;
    [None] beyond the largest float. *)
Definition nearest_float (n d : positive) : option Q :=
  let e := ulp_exponent n d in
  let m :=
    if (0 <=? e)%Z
    then round_half_even (Zpos n) (d * Z.to_pos (2 ^ e))
    else round_half_even (Zpos n * 2 ^ (- e)) d in
  if (0 <=? e)%Z
  then if (2 ^ 1024 <=? m * 2 ^ e)%Z then None
       else Some (inject_Z (m * 2 ^ e))
  else Some (Qred (Qmake m (Z.to_pos (2 ^ (- e))))).

(** Rounding to binary64: to the nearest float, ties to even, to an
    infinity beyond the largest float. *)
Definition round64 (q : Q) : pyfloat :=
  let r := Qred q in
  match Qnum r with
  | Z0 => FNum 0
  | Zpos n =>
      match nearest_float n (Qden r) with
      | Some x => FNum x
      | None => FInf false
      end
  | Zneg n =>
      match nearest_float n (Qden r) with
      | Some x => FNum (- x)
      | None => FInf true
      end
  end.

(** [-a], [a + b], [a - b], [a * b] and [abs(a)] on floats. *)
Definition fneg (a : pyfloat) : pyfloat :=
  match a with
  | FNum q => FNum (- q)
  | FInf s => FInf (negb s)
  | FNaN => FNaN
  end.

Definition fadd (a b : pyfloat) : pyfloat :=
  match a, b with
  | FNaN, _ | _, FNaN => FNaN
  | FInf s, FInf t => if Bool.eqb s t then FInf s else FNaN
  | FInf s, FNum _ | FNum _, FInf s => FInf s
  | FNum x, FNum y => round64 (x + y)
  end.

Definition fsub (a b : pyfloat) : pyfloat := fadd a (fneg b).

Definition fmul (a b : pyfloat) : pyfloat :=
  match a, b with
  | FNaN, _ | _, FNaN => FNaN
  | FInf s, FInf t => FInf (xorb s t)
  | FInf s, FNum y | FNum y, FInf s =>
      if Qeq_bool y 0 then FNaN else FInf (xorb s (Qlt_bool y 0))
  | FNum x, FNum y => round64 (x * y)
  end.

Definition fabs (a : pyfloat) : pyfloat :=
  match a with
  | FNum q => FNum (Qabs q)
  | FInf _ => FInf false
  | FNaN => FNaN
  end.

(** [a <= b] on floats: false as soon as one side is NaN. *)
Definition fle (a b : pyfloat) : bool :=
  match a, b with
  | FNaN, _ | _, FNaN => false
  | FInf true, _ | _, FInf false => true
  | FInf false, _ | _, FInf true => false
  | FNum x, FNum y => Qle_bool x y
  end.

(** The float of a cell of a float64 column, and the floats of a
    column. *)
Definition to_float (v : value) : pyfloat :=
  match v with
  | VNum q => FNum q
  | _ => FNaN
  end.

Definition floats (s : Series) : list pyfloat := map to_float (s_values s).

(** *** Reading numbers *)

Definition is_digit (c : ascii) : bool :=
  let n := nat_of_ascii c in (48 <=? n)%nat && (n <=? 57)%nat.

Fixpoint span (p : ascii -> bool) (s : string) : string * string :=
  match s with
  | String c s' =>
      if p c then let (a, b) := span p s' in (String c a, b)
      else (EmptyString, s)
  | EmptyString => (EmptyString, EmptyString)
  end.

(** [int(digits)] for a text of ASCII digits. *)
Fixpoint int_of_digits (s : string) (acc : Z) : Z :=
  match s with
  | EmptyString => acc
  | String c s' =>
      int_of_digits s' (10 * acc + Z.of_nat (nat_of_ascii c - 48))%Z
  end.

(** [str(n)] for an integer. *)
Definition str_of_int (z : Z) : string :=
  DecimalString.NilZero.string_of_int (Z.to_int z).

Definition strip (s : string) : string :=
  Parser.strip_rev (Parser.rev_string s EmptyString).

Definition sign_of (s : string) : Z * string :=
  match s with
  | String "-"%char s' => ((-1)%Z, s')
  | String "+"%char s' => (1%Z, s')
  | _ => (1%Z, s)
  end.

(** The digits of [digit (["_"] digit)*] after its first digit, without
    the underscores, and the text left. *)
Fixpoint more_digits (s : string) : string * string :=
  match s with
  | String c s' =>
      if is_digit c then
        let (a, b) := more_digits s' in (String c a, b)
      else if Ascii.eqb c "_" then
        match s' with
        | String d s'' =>
            if is_digit d then
              let (a, b) := more_digits s'' in (String d a, b)
            else (EmptyString, s)
        | EmptyString => (EmptyString, s)
        end
      else (EmptyString, s)
  | EmptyString => (EmptyString, EmptyString)
  end.

(** [digitpart ::= digit (["_"] digit)*] at the head of a text. *)
Definition digitpart (s : string) : option (string * string) :=
  match s with
  | String c s' =>
      if is_digit c then
        let (a, b) := more_digits s' in Some (String c a, b)
      else None
  | EmptyString => None
  end.

(** The text is the word, in any case of its letters. *)
Fixpoint is_word (word s : string) : bool :=
  match word, s with
  | EmptyString, EmptyString => true
  | String l word', String c s' =>
      (Ascii.eqb c l || (nat_of_ascii c =? nat_of_ascii l - 32)%nat)
      && is_word word' s'
  | _, _ => false
  end.

(** The blanks [float] skips around an ASCII text: the space and the
    characters 9 to 13 (the characters 28 to 31, which [str.strip] takes
    off, are not among them). *)
Definition is_float_space (c : ascii) : bool :=
  let n := nat_of_ascii c in
  (n =? 32)%nat || ((9 <=? n)%nat && (n <=? 13)%nat).

Fixpoint float_lstrip (s : string) : string :=
  match s with
  | String c s' => if is_float_space c then float_lstrip s' else s
  | EmptyString => EmptyString
  end.

Definition float_strip (s : string) : string :=
  float_lstrip
    (Parser.rev_string
       (float_lstrip (Parser.rev_string s EmptyString)) EmptyString).

(** [float(text)] for a text of ASCII characters: blanks around, a sign,
    then [inf], [infinity] or [nan] in any case, or a decimal number,
    with at most one point, underscores between digits and an exponent
    ([floatvalue] of the Python grammar).  The number is rounded to the
    nearest float; [None] is the [ValueError] of a text that is no
    number. *)
Definition parse_float (text : string) : option pyfloat :=
  let (sgn, s1) := sign_of (float_strip text) in
  if is_word "inf" s1 || is_word "infinity" s1
  then Some (FInf (sgn <? 0)%Z)
  else if is_word "nan" s1 then Some FNaN
  else
    let number :=
      match digitpart s1 with
      | Some (ip, s2) =>
          match s2 with
          | String "."%char r =>
              match digitpart r with
              | Some (fp, s3) => Some (ip, fp, s3)
              | None => Some (ip, EmptyString, r)
              end
          | _ => Some (ip, EmptyString, s2)
          end
      | None =>
          match s1 with
          | String "."%char r =>
              match digitpart r with
              | Some (fp, s3) => Some (EmptyString, fp, s3)
              | None => None
              end
          | _ => None
          end
      end in
    match number with
    | None => None
    | Some (ip, fp, s3) =>
        let mantissa :=
          (inject_Z (int_of_digits (ip ++ fp) 0)
           / inject_Z (10 ^ Z.of_nat (String.length fp)))%Q in
        let exponent :=
          match s3 with
          | EmptyString => Some 0%Z
          | String e r =>
              if Ascii.eqb e "e" || Ascii.eqb e "E" then
                let (esgn, r1) := sign_of r in
                match digitpart r1 with
                | Some (ed, EmptyString) => Some (esgn * int_of_digits ed 0)%Z
                | _ => None
                end
              else None
          end in
        match exponent with
        | Some e => Some (round64 (inject_Z sgn * mantissa * Qpower 10 e))
        | None => None
        end
    end.

(** [Series.astype(dtype)] on one cell; a text that is no number cannot
    become a float.  A text that reads as an infinity has no cell to
    become (no cell is infinite) and is refused likewise. *)
Definition astype (d : dtype) (v : value) : res value :=
  match d with
  | object => Ok v
  | bool_ => Ok (VBool (truthy v))
  | float64 =>
      match v with
      | VNum q => Ok (VNum q)
      | VBool b => Ok (VNum (if b then 1 else 0))
      | VNaN => Ok VNaN
      | VStr s =>
          match parse_float s with
          | Some (FNum q) => Ok (VNum q)
          | Some FNaN => Ok VNaN
          | Some (FInf _) | None => Raise (LibraryError ValueError)
          end
      end
  end.

Definition series_astype (d : dtype) (s : Series) : res Series :=
  vs <- mapM (astype d) (s_values s) ;; Ok (mkSeries d vs).

Definition dtype_of_value (v : value) : dtype :=
  match v with
  | VNum _ => float64
  | VBool _ => bool_
  | _ => object
  end.

(** [pd.Series(target, index=df.index)] unless the target is a Series
    already. *)
Definition as_series (df : DataFrame) (t : target) : Series :=
  match t with
  | TSeries s => s
  | TScalar v => mkSeries (dtype_of_value v) (repeat v (nrows df))
  end.

(** [df.isna()] and [~df]. *)
Definition map_cells (f : value -> value) (d : dtype) (df : DataFrame)
  : DataFrame :=
  mkFrame (nrows df)
          (map (fun c => (fst c, mkSeries d (map f (s_values (snd c)))))
               (columns df)).

Definition df_isna (df : DataFrame) : DataFrame :=
  map_cells (fun v => VBool (isna v)) bool_ df.

(** [~df], taken of boolean frames only. *)
Definition df_invert (df : DataFrame) : DataFrame :=
  map_cells (fun v => match v with VBool b => VBool (negb b) | _ => v end)
            bool_ df.

(** *** Statistics of a float64 column *)

(** What pandas computes of the floats of a column: [Series.quantile(q)],
    [Series.mean()], [Series.std()] and [Series.median()].  These
    reductions belong to the library and are taken as given: the float
    they return depends on the order in which numpy accumulates. *)
Record Pandas : Type := mkPandas {
  pd_quantile : Q -> list pyfloat -> pyfloat;
  pd_mean : list pyfloat -> pyfloat;
  pd_std : list pyfloat -> pyfloat;
  pd_median : list pyfloat -> pyfloat
}.

(** The numbers of a column, missing cells dropped ([skipna]). *)
Definition numbers (s : Series) : list Q :=
  flat_map (fun v => match v with VNum q => [q] | _ => [] end) (s_values s).

Definition Qnat (n : nat) : Q := inject_Z (Z.of_nat n).

(** [Series.rank(ascending, pct)] with the default method [average]: the
    mean of the positions a value takes among the sorted numbers of the
    column, divided by their count when [pct]; a missing cell has no
    rank. *)
Definition rank_of (ascending pct : bool) (s : Series) (v : value) : option Q :=
  match v with
  | VNum x =>
      let l := numbers s in
      let before :=
        List.length (filter (fun y => if ascending then Qlt_bool y x
                                      else Qlt_bool x y) l) in
      let same := List.length (filter (fun y => Qeq_bool y x) l) in
      let r := (Qnat before + (Qnat same + 1) / 2)%Q in
      Some (Qred (if pct then r / Qnat (List.length l) else r))
  | _ => None
  end.

(* ================================================================== *)
(** ** What the comparators share *)

Module Base.

(** [df.select_dtypes(dtype)], the labels it keeps: the float64 columns
    for ["number"], the object columns for ["object"]. *)
Definition select_dtypes (dtype : string) (df : DataFrame) : list label :=
  map fst
    (filter (fun c =>
               match s_dtype (snd c) with
               | float64 => String.eqb dtype "number"
               | object => String.eqb dtype "object"
               | bool_ => String.eqb dtype "bool"
               end) (columns df)).

Fixpoint dedup (l : list label) : list label :=
  match l with
  | [] => []
  | x :: l' => x :: filter (fun y => negb (label_eqb x y)) (dedup l')
  end.

(** [set(df.columns) - set(df.select_dtypes(dtype))], in the order of the
    columns (Python leaves the order of a set open). *)
Definition invalid_columns (dtype : string) (df : DataFrame) : list label :=
  let selected := select_dtypes dtype df in
  dedup (filter (fun l => negb (existsb (label_eqb l) selected))
                (map fst (columns df))).

(** [Comparator._check_dtypes(df, dtype)].  [', '.join] takes names that
    are strings. *)
Definition _check_dtypes (df : DataFrame) (dtype : string) : res unit :=
  match invalid_columns dtype df with
  | [] => Ok tt
  | invalid =>
      names <- mapM (fun l => match l with
                              | LStr s => Ok s
                              | LInt _ => Raise (LibraryError TypeError)
                              end) invalid ;;
      Raise (Raised TypeError
               ("Columns did not match data type '" ++ dtype ++ "': "
                ++ String.concat ", " names ++ "."))
  end.

(** [DataFrame.apply(func, axis=0)] for a [func] from Series to Series.
    A frame without rows or without columns is returned as it is (a
    copy); otherwise [func] makes each column anew. *)
Definition apply_columns (func : Series -> res Series) (df : DataFrame)
  : res DataFrame :=
  match nrows df, columns df with
  | O, _ | _, [] => Ok df
  | _, _ =>
      cols <- mapM (fun c => s <- func (snd c) ;; Ok (fst c, s)) (columns df) ;;
      Ok (mkFrame (nrows df) cols)
  end.

(** [(series <= lim_low) | (series >= lim_high)]: the comparisons of
    floats, false on a missing cell and against a limit that is NaN. *)
Definition outside (lim_low lim_high : pyfloat) (s : Series) : Series :=
  mkSeries bool_
    (map (fun v => VBool match v with
                         | VNum x => fle (FNum x) lim_low
                                     || fle lim_high (FNum x)
                         | _ => false
                         end) (s_values s)).

(** [-inf if whisker is None else centre - whisker * spread] and its
    like for the upper limit. *)
Definition limit_low (whisker : option pyfloat) (centre spread : pyfloat)
  : pyfloat :=
  match whisker with
  | None => FInf true
  | Some w => fsub centre (fmul w spread)
  end.

Definition limit_high (whisker : option pyfloat) (centre spread : pyfloat)
  : pyfloat :=
  match whisker with
  | None => FInf false
  | Some w => fadd centre (fmul w spread)
  end.

(** The statistics are those of float64 columns: on a column of another
    dtype they are taken to fail inside pandas. *)
Definition numeric_only (s : Series) (k : res Series) : res Series :=
  match s_dtype s with
  | float64 => k
  | _ => Raise (LibraryError TypeError)
  end.

(** [_outlier_iqr], [_outlier_sd] and [_outlier_mad]. *)
Definition _outlier_iqr (pd : Pandas) (series : Series)
    (whisker_low whisker_high : option pyfloat) : res Series :=
  numeric_only series
    (let qlow := pd_quantile pd (1 # 4) (floats series) in
     let qhigh := pd_quantile pd (3 # 4) (floats series) in
     let iqr := fsub qhigh qlow in
     let lim_low := limit_low whisker_low qlow iqr in
     let lim_high := limit_high whisker_high qhigh iqr in
     Ok (outside lim_low lim_high series)).

Definition _outlier_sd (pd : Pandas) (series : Series)
    (whisker_low whisker_high : option pyfloat) : res Series :=
  numeric_only series
    (let mean := pd_mean pd (floats series) in
     let std := pd_std pd (floats series) in
     let lim_low := limit_low whisker_low mean std in
     let lim_high := limit_high whisker_high mean std in
     Ok (outside lim_low lim_high series)).

(** [(series - median).abs()], float by float. *)
Definition abs_deviations (series : Series) (median : pyfloat)
  : list pyfloat :=
  map (fun x => fabs (fsub x median)) (floats series).

Definition _outlier_mad (pd : Pandas) (series : Series)
    (whisker_low whisker_high : option pyfloat) : res Series :=
  numeric_only series
    (let median := pd_median pd (floats series) in
     let made := fmul (round64 (1483 # 1000))
                      (pd_median pd (abs_deviations series median)) in
     let lim_low := limit_low whisker_low median made in
     let lim_high := limit_high whisker_high median made in
     Ok (outside lim_low lim_high series)).

(** *** The targets of [ranks in] and [is outlier by] *)

Definition drop_prefix (p s : string) : option string :=
  if Parser.is_prefix p s
  then Some (String.substring (String.length p)
                              (String.length s - String.length p) s)
  else None.

(** [re.match(r"(?P<from>top|bottom)\s+(?P<rank>[0-9]+)\s*(?P<pct>%)?",
    target)]: the groups [from], [rank] and whether [pct] took part. *)
Definition match_rank (target : string) : option (string * string * bool) :=
  let from :=
    match drop_prefix "top" target with
    | Some r => Some ("top", r)
    | None => option_map (fun r => ("bottom", r)) (drop_prefix "bottom" target)
    end in
  match from with
  | None => None
  | Some (f, r) =>
      let (blank, r1) := span Parser.is_space r in
      let (rank, r2) := span is_digit r1 in
      let (_, r3) := span Parser.is_space r2 in
      if String.eqb blank "" || String.eqb rank "" then None
      else Some (f, rank, Parser.is_prefix "%" r3)
  end.

Definition lower (c : ascii) : ascii :=
  let n := nat_of_ascii c in
  if (65 <=? n)%nat && (n <=? 90)%nat then ascii_of_nat (n + 32) else c.

Fixpoint lower_string (s : string) : string :=
  match s with
  | EmptyString => EmptyString
  | String c s' => String (lower c) (lower_string s')
  end.

(** [re.match(r"(?P<side>\+|\-)?\s*(?P<whiskers>[0-9\.]+)\s+
    (?P<method>IQR|SD|MAD)", target, re.IGNORECASE)]: the groups [side],
    [whiskers] and [method], the last in lower case. *)
Definition match_outlier (target : string)
  : option (option string * string * string) :=
  let (side, r) :=
    match target with
    | String "+"%char r => (Some "+", r)
    | String "-"%char r => (Some "-", r)
    | _ => (None, target)
    end in
  let (_, r1) := span Parser.is_space r in
  let (whiskers, r2) :=
    span (fun c => is_digit c || Ascii.eqb c ".") r1 in
  let (blank, r3) := span Parser.is_space r2 in
  let method :=
    find (fun m => Parser.is_prefix m (lower_string r3)) ["iqr"; "sd"; "mad"] in
  if String.eqb whiskers "" || String.eqb blank "" then None
  else option_map (fun m => (side, whiskers, m)) method.

Definition option_eqb (a b : option string) : bool :=
  match a, b with
  | Some x, Some y => String.eqb x y
  | None, None => true
  | _, _ => false
  end.

(** [text.split(sep)]. *)
Fixpoint split_on (sep : ascii) (s : string) : list string :=
  match s with
  | EmptyString => [EmptyString]
  | String c s' =>
      if Ascii.eqb c sep then EmptyString :: split_on sep s'
      else match split_on sep s' with
           | [] => [String c EmptyString]
           | h :: t => String c h :: t
           end
  end.

(** What [Missing], [Between], [RanksIn], [Contains], [In] and
    [IsOutlierBy] do: the two modules hold the same code for them. *)

Definition NullComparator (df : DataFrame) (target : target) : res DataFrame :=
  Ok (df_isna df).

Definition NotNullComparator (df : DataFrame) (target : target)
  : res DataFrame :=
  Ok (df_invert (df_isna df)).

(** [InComparator]; [astype_str] is the text [astype(str)] gives a cell. *)
Definition InComparator (astype_str : value -> string) (df : DataFrame)
    (target : target) : res DataFrame :=
  match target with
  | TScalar (VStr t) =>
      let target := map strip (split_on "," t) in
      Ok (map_cells (fun v => VBool (existsb (String.eqb (astype_str v)) target))
                    bool_ df)
  | _ => Raise (RaisedAbout RuntimeError
                  "InComparator: Cannot construct list from target '" "'.")
  end.

Definition BetweenComparator (df : DataFrame) (target : target)
  : res DataFrame :=
  _ <- _check_dtypes df "number" ;;
  match target with
  | TScalar (VStr t) =>
      match map parse_float (split_on ":" t) with
      | [Some low; Some high] =>
          Ok (map_cells
                (fun x => VBool match x with
                                | VNum q => fle low (FNum q)
                                            && fle (FNum q) high
                                | _ => false
                                end) bool_ df)
      | _ => Raise (Raised RuntimeError
                 ("BetweenComparator: Non-numeric bounds in target '"
                  ++ t ++ "'."))
      end
  | _ => Raise (RaisedAbout RuntimeError
                  "BetweenComparator: Cannot split bound from target '" "'.")
  end.

(** [ContainsComparator]; [re_search pattern text] is the search of the
    regular expression in a text, an error on a pattern that is none. *)
Definition ContainsComparator (re_search : string -> string -> res bool)
    (df : DataFrame) (target : target) : res DataFrame :=
  _ <- _check_dtypes df "object" ;;
  match target with
  | TScalar (VStr t) =>
      apply_columns
        (fun col =>
           vs <- mapM (fun v => match v with
                                | VStr text => b <- re_search t text ;;
                                               Ok (VBool b)
                                | _ => Ok (VBool false)
                                end) (s_values col) ;;
           Ok (mkSeries bool_ vs)) df
  | _ => Raise (LibraryError TypeError)
  end.

Definition RankComparator (df : DataFrame) (target : target) : res DataFrame :=
  _ <- _check_dtypes df "number" ;;
  match target with
  | TScalar (VStr t) =>
      match match_rank t with
      | None => Raise (Raised ValueError
                  ("RankComparator: Invalid target '" ++ t
                   ++ "', use <top|bottom> <rank> (%)."))
      | Some (from, digits, pct) =>
          let ascending := String.eqb from "bottom" in
          let rank := int_of_digits digits 0 in
          rank' <-
            (if pct then
               if negb ((0 <? rank)%Z && (rank <? 100)%Z) then
                 Raise (Raised ValueError
                   ("RankComparator: Percentile rank must be between 0 - 100, "
                    ++ "got " ++ str_of_int rank ++ " instead."))
               else Ok (inject_Z rank / 100)%Q
             else Ok (inject_Z rank)) ;;
          Ok (mkFrame (nrows df)
                (map (fun c =>
                        (fst c,
                         mkSeries bool_
                           (map (fun v =>
                                   VBool match rank_of ascending pct (snd c) v with
                                         | Some r => Qle_bool r rank'
                                         | None => false
                                         end) (s_values (snd c)))))
                     (columns df)))
      end
  | _ => Raise (LibraryError TypeError)
  end.

(** [OutlierComparator.__call__]; [pd] is pandas, for the statistics of
    the columns. *)
Definition OutlierComparator (pd : Pandas) (df : DataFrame)
    (target : target) : res DataFrame :=
  match target with
  | TScalar (VStr t) =>
      match match_outlier t with
      | None => Raise (Raised ValueError
                  ("OutlierComparator: Invalid target '" ++ t
                   ++ "', use (+|-)<whisker> <IQR|SD|MAD>."))
      | Some (side, whiskers, method_name) =>
          match parse_float whiskers with
          | None => Raise (LibraryError ValueError)
          | Some w =>
              let whisker_low :=
                if option_eqb side (Some "+") then None else Some w in
              let whisker_high :=
                if option_eqb side (Some "+") then Some w
                else if option_eqb side (Some "-") then None else Some w in
              let method :=
                if String.eqb method_name "sd" then _outlier_sd pd
                else if String.eqb method_name "mad" then _outlier_mad pd
                else _outlier_iqr pd in
              apply_columns (fun s => method s whisker_low whisker_high) df
          end
      end
  | _ => Raise (LibraryError TypeError)
  end.

(** The default target of [OutlierComparator]. *)
Definition default_outlier_target : target := TScalar (VStr "1.5 IQR").

End Base.

(* ================================================================== *)
(** ** The flat module (comparators.py) *)

Module Legacy.

(** [validata.base_classes], from which comparators.py takes its
    [Comparator], is not part of the sources; its [_check_dtypes] is taken
    to be the one of comparators/base.py. *)
Definition _check_dtypes := Base._check_dtypes.

(** [df[col] == other] between two Series: pandas compares Series with
    the same labels only. *)
Definition series_eq (n : nat) (s other : Series) : res Series :=
  if (List.length (s_values other) =? n)%nat then
    Ok (mkSeries bool_
          (map (fun i => VBool (value_eq (cell s i) (cell other i)))
               (seq 0 n)))
  else Raise (LibraryError ValueError).

(** [df[col].dtype]: the lookup goes by the label, and under a label
    that more than one column carries [df[col]] is a DataFrame, which has
    no [dtype]. *)
Definition column_dtype (df : DataFrame) (c : label * Series) : res dtype :=
  if (1 <? List.length (filter (fun c' => label_eqb (fst c') (fst c))
                               (columns df)))%nat
  then Raise (Raised AttributeError
                "'DataFrame' object has no attribute 'dtype'")
  else Ok (s_dtype (snd c)).

(** [EqComparator.__call__]. *)
Definition EqComparator (df : DataFrame) (target : target) : res DataFrame :=
  let target := as_series df target in
  cols <- mapM (fun c =>
                  d <- column_dtype df c ;;
                  t <- series_astype d target ;;
                  r <- series_eq (nrows df) (snd c) t ;;
                  Ok (fst c, r)) (columns df) ;;
  Ok match cols with
     | [] => empty_frame
     | _ => mkFrame (nrows df) cols
     end.

(** [UnEqComparator.__call__]. *)
Definition UnEqComparator (df : DataFrame) (target : target) : res DataFrame :=
  r <- EqComparator df target ;; Ok (df_invert r).

(** [df.gt(other, axis=0)] and its like: the rows of the frame and of the
    Series are aligned on the union of their labels; a cell that one side
    lacks is missing and compares false. *)
Definition flex_compare (op : Q -> Q -> bool) (df : DataFrame) (other : Series)
  : DataFrame :=
  let n := Nat.max (nrows df) (List.length (s_values other)) in
  mkFrame n
    (map (fun c =>
            (fst c,
             mkSeries bool_
               (map (fun i =>
                       VBool match cell (snd c) i, cell other i with
                             | VNum x, VNum y => op x y
                             | _, _ => false
                             end) (seq 0 n))))
         (columns df)).

Definition compare_numbers (op : Q -> Q -> bool) (df : DataFrame)
    (target : target) : res DataFrame :=
  _ <- _check_dtypes df "number" ;;
  let target := as_series df target in
  t <- series_astype float64 target ;;
  Ok (flex_compare op df t).

Definition GtComparator := compare_numbers (fun x y => Qlt_bool y x).
Definition GtEqComparator := compare_numbers (fun x y => Qle_bool y x).
Definition LtComparator := compare_numbers Qlt_bool.
Definition LtEqComparator := compare_numbers Qle_bool.

Definition InComparator := Base.InComparator.
Definition BetweenComparator := Base.BetweenComparator.
Definition NullComparator := Base.NullComparator.
Definition NotNullComparator := Base.NotNullComparator.
Definition RankComparator := Base.RankComparator.
Definition ContainsComparator := Base.ContainsComparator.
Definition OutlierComparator := Base.OutlierComparator.

End Legacy.

(* ================================================================== *)
(** ** The package (comparators/mixins.py, comparators/row_wise.py) *)

Module RowWise.

(** A Series with its labels: a row of a frame, or the outcome of a
    comparison of a row. *)
Record LSeries : Type := mkLSeries {
  ls_dtype : dtype;
  ls_items : list (label * value)
}.

(** The dtype of a row: the dtype the columns share, [object] when they
    differ. *)
Definition row_dtype (df : DataFrame) : dtype :=
  match columns df with
  | [] => float64
  | c :: cs =>
      if forallb (fun c' => dtype_eqb (s_dtype (snd c')) (s_dtype (snd c))) cs
      then s_dtype (snd c) else object
  end.

Definition row (df : DataFrame) (i : nat) : LSeries :=
  mkLSeries (row_dtype df) (map (fun c => (fst c, cell (snd c) i)) (columns df)).

Definition lookup (l : label) (items : list (label * value)) : value :=
  match find (fun e => label_eqb (fst e) l) items with
  | Some e => snd e
  | None => VNaN
  end.

(** [Series.eq(other)] and its like between two labelled Series: when
    the labels differ both sides are aligned on the union of the labels,
    those of the left first, and a cell that one side lacks is missing. *)
Definition flex_series (op : value -> value -> res bool)
    (left right : list (label * value)) : res (list (label * value)) :=
  let same :=
    (List.length left =? List.length right)%nat
    && forallb (fun p => label_eqb (fst (fst p)) (fst (snd p)))
               (combine left right) in
  if same then
    mapM (fun p => b <- op (snd (fst p)) (snd (snd p)) ;;
                   Ok (fst (fst p), VBool b)) (combine left right)
  else
    let labels :=
      map fst left
      ++ filter (fun l => negb (existsb (label_eqb l) (map fst left)))
                (map fst right) in
    mapM (fun l => b <- op (lookup l left) (lookup l right) ;;
                   Ok (l, VBool b)) labels.

(** [CompareMixin._compare_series]. *)
Definition _compare_series (series : LSeries) (target : target)
    (comp_func : value -> value -> res bool) : res LSeries :=
  target' <-
    match target with
    | TScalar v =>
        tv <- astype (ls_dtype series) v ;;
        Ok (map (fun e => (fst e, tv)) (ls_items series))
    | TSeries s =>
        s' <- (if negb (dtype_eqb (ls_dtype series) (s_dtype s))
               then series_astype (ls_dtype series) s else Ok s) ;;
        Ok (combine (map (fun i => LInt (Z.of_nat i))
                         (seq 0 (List.length (s_values s'))))
                    (s_values s'))
    end ;;
  items <- flex_series comp_func (ls_items series) target' ;;
  Ok (mkLSeries bool_ items).

(** [getattr(pd.Series, comp)]: the comparison methods of a Series are
    [eq], [ne], [lt], [le], [gt] and [ge]. *)
Definition getattr_Series (comp : string)
  : res (value -> value -> res bool) :=
  if String.eqb comp "eq" then Ok (fun a b => Ok (value_eq a b))
  else if String.eqb comp "ne" then Ok (fun a b => Ok (value_ne a b))
  else if String.eqb comp "lt" then Ok value_lt
  else if String.eqb comp "le" then Ok value_le
  else if String.eqb comp "gt" then Ok value_gt
  else if String.eqb comp "ge" then Ok value_ge
  else Raise (Raised AttributeError
                ("type object 'Series' has no attribute '" ++ comp ++ "'")).

(** [DataFrame.apply(func, axis=1)] for a [func] from rows to Series.  A
    frame without rows or without columns is returned as it is (a copy);
    otherwise the outcomes of the rows are the rows of the new frame,
    under the labels of the outcomes. *)
Definition apply_rows (func : LSeries -> res LSeries) (df : DataFrame)
  : res DataFrame :=
  match nrows df, columns df with
  | O, _ | _, [] => Ok df
  | _, _ =>
      results <- mapM (fun i => func (row df i)) (seq 0 (nrows df)) ;;
      let labels :=
        match results with
        | r :: _ => map fst (ls_items r)
        | [] => []
        end in
      Ok (mkFrame (nrows df)
            (map (fun l =>
                    (l, mkSeries bool_
                          (map (fun r => lookup l (ls_items r)) results)))
                 labels))
  end.

Definition valid : list string := ["eq"; "ne"; "lt"; "lte"; "gt"; "gte"].

(** [CompareMixin._compare] on a DataFrame. *)
Definition _compare (data : DataFrame) (target : target) (comp : string)
  : res DataFrame :=
  if negb (existsb (String.eqb comp) valid) then
    Raise (Raised ValueError
             ("Invalid comparisson '" ++ comp ++ "', choose from: "
              ++ String.concat "." valid))
  else
    comp_func <- getattr_Series comp ;;
    apply_rows (fun series => _compare_series series target comp_func) data.

Definition EqComparator (df : DataFrame) (target : target) : res DataFrame :=
  _compare df target "eq".
Definition UnEqComparator (df : DataFrame) (target : target) : res DataFrame :=
  _compare df target "ne".
Definition GtComparator (df : DataFrame) (target : target) : res DataFrame :=
  _compare df target "gt".
Definition GtEqComparator (df : DataFrame) (target : target) : res DataFrame :=
  _compare df target "gte".
Definition LtComparator (df : DataFrame) (target : target) : res DataFrame :=
  _compare df target "lt".
Definition LtEqComparator (df : DataFrame) (target : target) : res DataFrame :=
  _compare df target "lte".

Definition NullComparator := Base.NullComparator.
Definition NotNullComparator := Base.NotNullComparator.
Definition InComparator := Base.InComparator.
Definition BetweenComparator := Base.BetweenComparator.
Definition ContainsComparator := Base.ContainsComparator.
Definition RankComparator := Base.RankComparator.
Definition OutlierComparator := Base.OutlierComparator.

End RowWise.

(* ================================================================== *)
(** ** The logical operators (operators/logical.py) *)

Module Logical.

(** [df.any(axis=1)] and [df.all(axis=1)]: one boolean per row.  A cell
    counts by its truth value; a missing cell is skipped ([skipna]), so a
    row without a cell to count is [False] for [any] and [True] for
    [all]. *)
Definition df_any (df : DataFrame) : list bool :=
  map (fun i => existsb (fun c => let v := cell (snd c) i in
                                  negb (isna v) && truthy v) (columns df))
      (seq 0 (nrows df)).

Definition df_all (df : DataFrame) : list bool :=
  map (fun i => forallb (fun c => let v := cell (snd c) i in
                                  isna v || truthy v) (columns df))
      (seq 0 (nrows df)).

(** [AnyOperator.__call__], [AllOperator.__call__] and
    [NoneOperator.__call__]. *)
Definition AnyOperator (df : DataFrame) : DataFrame := to_frame (df_any df).

Definition AllOperator (df : DataFrame) : DataFrame := to_frame (df_all df).

Definition NoneOperator (df : DataFrame) : DataFrame :=
  df_invert (to_frame (df_any df)).

End Logical.

(* ================================================================== *)
(** ** The vocabulary of the properties *)

(** Row-wise combination of two and of three boolean columns. *)
Definition rowwise2 (f : bool -> bool -> bool) (xs ys : list bool) : list bool :=
  map (fun p => f (fst p) (snd p)) (combine xs ys).

Module ParserTerms.
Import Parser.

Definition tokE (s : string) : token := mkToken EXPR s.
Definition tokAnd : token := mkToken AND " and ".
Definition tokOr : token := mkToken OR " or ".
Definition tokOpen : token := mkToken GROUP_OPEN "(".
Definition tokClose : token := mkToken GROUP_CLOSE ")".

(** A leaf evaluator for the examples: the clause [x] holds on no row of
    a three-row dataset but the last, [y] on all but the last, [z] on the
    first. *)
Definition ev0 : Evaluator := fun s _ =>
  if String.eqb s "x" then Ok (bool_frame (LStr "x") [false; false; true])
  else if String.eqb s "y" then Ok (bool_frame (LStr "y") [true; true; false])
  else Ok (bool_frame (LStr "z") [false; true; false]).

Definition df0 : DataFrame := mkFrame 3 [].

(** The same outcome with another tokenizer state left behind. *)
Definition fmap_rest (x : option (res (DataFrame * Tokenizer)))
    (rest : Tokenizer) : option (res (DataFrame * Tokenizer)) :=
  match x with
  | Some (Ok (r, _)) => Some (Ok (r, rest))
  | other => other
  end.

(** The fold of the rule [X or Y and Z], row by row. *)
Definition or_then_and (xs ys zs : list bool) : list bool :=
  rowwise2 andb (rowwise2 orb xs ys) zs.

Definition group_free (toks : Tokenizer) : Prop :=
  Forall (fun t => type t <> GROUP_OPEN /\ type t <> GROUP_CLOSE) toks.

End ParserTerms.

(** The cell of column [j] and row [i] of a frame. *)
Definition at_ (df : DataFrame) (j i : nat) : value :=
  match nth_error (columns df) j with
  | Some c => cell (snd c) i
  | None => VNaN
  end.

Definition labels (df : DataFrame) : list label := map fst (columns df).

Definition df_nan : DataFrame :=
  mkFrame 3 [ (LStr "a", mkSeries float64 [VNum 1; VNaN; VNum 3]);
              (LStr "b", mkSeries object [VNaN; VStr "x"; VStr ""]) ].

Definition invert_value (v : value) : value :=
  match v with VBool b => VBool (negb b) | _ => v end.

(** [u] is the elementwise negation of the boolean matrix [e]: the same
    rows and labels, and in every cell the opposite boolean. *)
Definition negation_of (e u : DataFrame) : Prop :=
  nrows u = nrows e /\
  labels u = labels e /\
  forall j i, (j < List.length (columns e))%nat -> (i < nrows e)%nat ->
    exists b, at_ e j i = VBool b /\ at_ u j i = VBool (negb b).

Definition negated_outcome (eq ne : res DataFrame) : Prop :=
  match eq, ne with
  | Ok e, Ok u => negation_of e u
  | Raise x, Raise y => x = y
  | _, _ => False
  end.

Module EqTerms.
Import RowWise.

Definition eqf (a b : value) : res bool := Ok (value_eq a b).
Definition nef (a b : value) : res bool := Ok (value_ne a b).

Definition neg_item (e : label * value) : label * value :=
  (fst e, invert_value (snd e)).

Definition neg_ls (r : LSeries) : LSeries :=
  mkLSeries bool_ (map neg_item (ls_items r)).

Definition bool_item (e : label * value) : Prop := exists b, snd e = VBool b.

(** The labels of the outcome of [flex_series], from the labels of its
    operands. *)
Definition flex_labels (left right : list label) : list label :=
  if (List.length left =? List.length right)%nat
     && forallb (fun p => label_eqb (fst p) (snd p)) (combine left right)
  then left
  else left ++ filter (fun l => negb (existsb (label_eqb l) left)) right.

(** The labels a target is compared under: those of the row for a
    scalar, the positions of the rows for a Series. *)
Definition target_labels (df : DataFrame) (t : target) : list label :=
  match t with
  | TScalar _ => labels df
  | TSeries s =>
      map (fun n => LInt (Z.of_nat n)) (seq 0 (List.length (s_values s)))
  end.

End EqTerms.

(** A dataset of float64 columns under distinct labels, with a row and a
    column at least. *)
Definition number_cell (v : value) : Prop :=
  match v with VNum _ | VNaN => True | _ => False end.

Definition numeric_frame (df : DataFrame) : Prop :=
  wf_frame df /\ NoDup (labels df) /\
  nrows df <> 0%nat /\ columns df <> [] /\
  Forall (fun c => s_dtype (snd c) = float64 /\
                   Forall number_cell (s_values (snd c))) (columns df).

(** A frame with the labels of [df] and the cell [g c i] under column
    [c] on row [i]. *)
Definition tabulate (g : Series -> nat -> bool) (df : DataFrame) : DataFrame :=
  mkFrame (nrows df)
    (map (fun c => (fst c,
                    mkSeries bool_
                      (map (fun i => VBool (g (snd c) i)) (seq 0 (nrows df)))))
         (columns df)).

Definition df_a : DataFrame :=
  mkFrame 2 [(LStr "a", mkSeries float64 [VNum 1; VNum 2])].

Definition df_name : DataFrame :=
  mkFrame 1 [(LStr "name", mkSeries object [VStr "b"])].

(** A frame made column by column and cell by cell. *)
Definition remake (d : dtype) (g : Series -> value -> value) (df : DataFrame)
  : DataFrame :=
  mkFrame (nrows df)
    (map (fun c => (fst c, mkSeries d (map (g (snd c)) (s_values (snd c)))))
         (columns df)).

Definition s6 : Series :=
  mkSeries float64 (map (fun z => VNum (inject_Z z)) [1; 2; 3; 4; 5; 100]%Z).

Definition df6 : DataFrame := mkFrame 6 [(LStr "v", s6)].

(** The float nearest to a rational, and the rationals that are floats:
    those that rounding leaves as they are. *)
Definition float_of (q : Q) : Q :=
  match round64 q with
  | FNum r => r
  | _ => 0
  end.

Definition is_float (q : Q) : Prop := round64 q = FNum (Qred q).

(** A pandas that finds the quartiles [q1] and [q3], for the examples. *)
Definition with_quartiles (q1 q3 : pyfloat) : Pandas :=
  mkPandas (fun q _ => if Qle_bool q (1 # 2) then q1 else q3)
           (fun _ => FNaN) (fun _ => FNaN) (fun _ => FNaN).

(** The outcome of [_outlier_iqr] with both whiskers [w], cell by cell. *)
Definition iqr_flag (pd : Pandas) (w : pyfloat) (s : Series) (v : value)
  : value :=
  let qlow := pd_quantile pd (1 # 4) (floats s) in
  let qhigh := pd_quantile pd (3 # 4) (floats s) in
  let iqr := fsub qhigh qlow in
  VBool match v with
        | VNum x => fle (FNum x) (Base.limit_low (Some w) qlow iqr)
                    || fle (Base.limit_high (Some w) qhigh iqr) (FNum x)
        | _ => false
        end.



Definition df10 : DataFrame :=
  mkFrame 10 [(LStr "v", mkSeries float64
                 (map (fun z => VNum (inject_Z z))
                      [3; 10; 1; 7; 5; 2; 9; 4; 8; 6]%Z))].

(** *** Rules without groups *)

Module ChainTerms.
Import Parser.

(** The tokens of the rule [x0 c1 x1 c2 x2 ...]: a clause, then
    connectives each followed by a clause. *)
Definition chain (x0 : string) (rest : list (token * string)) : Tokenizer :=
  mkToken EXPR x0 :: flat_map (fun p => [fst p; mkToken EXPR (snd p)]) rest.

Definition connective (t : token) : Prop := type t = AND \/ type t = OR.

(** [AND] is the conjunction of the rows, any other connective their
    disjunction. *)
Definition combine_rows (t : token) (acc ys : list bool) : list bool :=
  match type t with
  | AND => rowwise2 andb acc ys
  | _ => rowwise2 orb acc ys
  end.

(** The fold of a chain from the left. *)
Definition fold_chain (vals : string -> list bool) (x0 : string)
    (rest : list (token * string)) : list bool :=
  fold_left (fun acc p => combine_rows (fst p) acc (vals (snd p)))
            rest (vals x0).

End ChainTerms.

(** *** Registries *)

Definition has_symbol (s : string) (c : class) : bool :=
  match class_symbol c with
  | Some t => String.eqb t s
  | None => false
  end.

(** The last class of a list that carries the symbol. *)
Definition last_with (s : string) (l : list class) : option class :=
  find (has_symbol s) (rev l).

(** *** Targets *)


(** The text holds ASCII characters only. *)
Fixpoint ascii_text (s : string) : bool :=
  match s with
  | EmptyString => true
  | String c s' => (nat_of_ascii c <? 128)%nat && ascii_text s'
  end.


(** The whiskers [OutlierComparator.__call__] passes on for a side. *)
Definition whisker_low_of (side : option string) (w : pyfloat)
  : option pyfloat :=
  if Base.option_eqb side (Some "+") then None else Some w.

Definition whisker_high_of (side : option string) (w : pyfloat)
  : option pyfloat :=
  if Base.option_eqb side (Some "+") then Some w
  else if Base.option_eqb side (Some "-") then None else Some w.

(** The outcome of [(series <= lim_low) | (series >= lim_high)], cell by
    cell, for limits that lie [w] spreads below [centre_low] and above
    [centre_high] on the sides the sign leaves on. *)
Definition limits_flag (side : option string) (w : pyfloat)
    (centre_low centre_high spread : pyfloat) (v : value) : value :=
  VBool match v with
        | VNum x =>
            fle (FNum x)
                (Base.limit_low (whisker_low_of side w) centre_low spread)
            || fle (Base.limit_high (whisker_high_of side w) centre_high spread)
                   (FNum x)
        | _ => false
        end.



(** *** Operators *)

(** A frame of booleans, as a comparator returns it. *)
Definition boolean_frame (df : DataFrame) : Prop :=
  wf_frame df /\
  Forall (fun c => Forall (fun v => exists b, v = VBool b) (s_values (snd c)))
         (columns df).

(** *** Errors *)

Definition exn_kind_of (e : exn) : exn_kind :=
  match e with
  | Raised k _ | RaisedAbout k _ _ | LibraryError k => k
  end.


(* ================================================================== *)
(** * Properties *)

(** ** Results and frames *)

Lemma label_eqb_refl l : label_eqb l l = true.
Proof. destruct l; simpl; [apply String.eqb_refl | apply Z.eqb_refl]. Qed.

Lemma length_np_all df : List.length (np_all df) = nrows df.
Proof. unfold np_all. now rewrite length_map, length_seq. Qed.

Lemma length_np_any df : List.length (np_any df) = nrows df.
Proof. unfold np_any. now rewrite length_map, length_seq. Qed.

Lemma length_rowwise2 f xs ys :
  List.length ys = List.length xs ->
  List.length (rowwise2 f xs ys) = List.length xs.
Proof.
  intros H. unfold rowwise2. rewrite length_map, length_combine. lia.
Qed.

Lemma nth_map_seq {A : Type} (f : nat -> A) (n i : nat) (d : A) :
  (i < n)%nat -> nth i (map f (seq 0 n)) d = f i.
Proof.
  intros Hi.
  rewrite nth_indep with (d' := f 0%nat) by now rewrite length_map, length_seq.
  rewrite map_nth. now rewrite seq_nth.
Qed.

Lemma cell_bool_series bs i :
  (i < List.length bs)%nat -> cell (bool_series bs) i = VBool (nth i bs false).
Proof.
  intros Hi. unfold cell, bool_series. simpl.
  rewrite nth_indep with (d' := VBool false) by now rewrite length_map.
  apply map_nth with (f := VBool).
Qed.

Lemma realign_bool_series bs n :
  List.length bs = n ->
  map (cell (bool_series bs)) (seq 0 n) = map VBool bs.
Proof.
  intros <-. apply nth_ext with (d := VNaN) (d' := VNaN).
  - now rewrite !length_map, length_seq.
  - intros i Hi. rewrite length_map, length_seq in Hi.
    rewrite nth_map_seq by assumption. reflexivity.
Qed.

(** Joining two one-column boolean frames over the same rows. *)
Lemma join_bool_frames lx ly xs ys sfx :
  List.length ys = List.length xs ->
  exists ly',
    join (bool_frame lx xs) (bool_frame ly ys) sfx
    = mkFrame (List.length xs) [(lx, bool_series xs); (ly', bool_series ys)].
Proof.
  intros H. unfold join, bool_frame. simpl.
  eexists. do 3 f_equal. f_equal.
  unfold bool_series at 2. f_equal. simpl. now apply realign_bool_series.
Qed.

Lemma nth_rowwise2 f xs ys i :
  List.length ys = List.length xs -> (i < List.length xs)%nat ->
  nth i (rowwise2 f xs ys) false = f (nth i xs false) (nth i ys false).
Proof.
  intros H Hi. unfold rowwise2.
  assert (Hc : (i < List.length (combine xs ys))%nat)
    by (rewrite length_combine; lia).
  rewrite nth_indep with (d' := (fun p => f (fst p) (snd p)) (false, false))
    by now rewrite length_map.
  rewrite map_nth with (f := fun p => f (fst p) (snd p)).
  rewrite combine_nth by lia. reflexivity.
Qed.

Lemma np_rowwise2 (g : (label * Series -> bool) -> list (label * Series) -> bool)
    (f : bool -> bool -> bool) lx ly xs ys :
  (forall p a b, g p [a; b] = f (p a) (p b)) ->
  List.length ys = List.length xs ->
  map (fun i => g (fun c => truthy (cell (snd c) i))
                  [(lx, bool_series xs); (ly, bool_series ys)])
      (seq 0 (List.length xs))
  = rowwise2 f xs ys.
Proof.
  intros Hg H.
  apply nth_ext with (d := false) (d' := false).
  - rewrite length_rowwise2 by assumption. now rewrite length_map, length_seq.
  - intros i Hi. rewrite length_map, length_seq in Hi.
    rewrite nth_map_seq by assumption. rewrite Hg. cbn [snd].
    rewrite !cell_bool_series by lia. cbn [truthy].
    now rewrite nth_rowwise2.
Qed.

Lemma np_any_join lx ly xs ys sfx :
  List.length ys = List.length xs ->
  np_any (join (bool_frame lx xs) (bool_frame ly ys) sfx) = rowwise2 orb xs ys.
Proof.
  intros H. destruct (join_bool_frames lx ly xs ys sfx H) as [ly' ->].
  unfold np_any. simpl.
  apply (np_rowwise2 (@existsb _) orb lx ly' xs ys); [|assumption].
  intros p a b. simpl. now rewrite orb_false_r.
Qed.

Lemma np_all_join lx ly xs ys sfx :
  List.length ys = List.length xs ->
  np_all (join (bool_frame lx xs) (bool_frame ly ys) sfx) = rowwise2 andb xs ys.
Proof.
  intros H. destruct (join_bool_frames lx ly xs ys sfx H) as [ly' ->].
  unfold np_all. simpl.
  apply (np_rowwise2 (@forallb _) andb lx ly' xs ys); [|assumption].
  intros p a b. simpl. now rewrite andb_true_r.
Qed.

(* ------------------------------------------------------------------ *)
(** ** The parser *)

Module ParserFacts.
Import Parser ParserTerms.

(** More fuel does not change a result. *)
Lemma loop_mono ev id df : forall fuel fuel' result toks x,
  (fuel <= fuel')%nat ->
  loop fuel ev id df result toks = Some x ->
  loop fuel' ev id df result toks = Some x.
Proof.
  induction fuel as [|fuel IH]; intros fuel' result toks x Hle H;
    [discriminate|].
  destruct fuel' as [|fuel']; [lia|].
  assert (Hle' : (fuel <= fuel')%nat) by lia.
  simpl in H |- *.
  destruct toks as [|tok rest]; [exact H|].
  destruct (type tok) eqn:Et.
  - (* AND *)
    destruct result as [res|]; [|exact H].
    destruct rest as [|nt rest']; [exact H|].
    destruct (type nt) eqn:En;
      try (destruct (ev (value nt) df) as [rh|e]; simpl in H |- *;
           [now apply (IH fuel') | exact H]).
    destruct (loop fuel ev id df None rest') as [[[rh r'']|e]|] eqn:E1;
      try discriminate H.
    + rewrite (IH fuel' _ _ _ Hle' E1). now apply (IH fuel').
    + now rewrite (IH fuel' _ _ _ Hle' E1).
  - (* OR *)
    destruct result as [res|]; [|exact H].
    destruct rest as [|nt rest']; [exact H|].
    destruct (type nt) eqn:En;
      try (destruct (ev (value nt) df) as [rh|e]; simpl in H |- *;
           [now apply (IH fuel') | exact H]).
    destruct (loop fuel ev id df None rest') as [[[rh r'']|e]|] eqn:E1;
      try discriminate H.
    + rewrite (IH fuel' _ _ _ Hle' E1). now apply (IH fuel').
    + now rewrite (IH fuel' _ _ _ Hle' E1).
  - (* GROUP_OPEN *)
    destruct (loop fuel ev id df None rest) as [[[r r']|e]|] eqn:E1;
      try discriminate H.
    + rewrite (IH fuel' _ _ _ Hle' E1). now apply (IH fuel').
    + now rewrite (IH fuel' _ _ _ Hle' E1).
  - exact H.
  - (* EXPR *)
    destruct result as [res|]; [exact H|].
    destruct (ev (value tok) df) as [r|e]; [|exact H].
    now apply (IH fuel').
Qed.

(** [evaluate] terminates: with more fuel than tokens the loop returns,
    and it never gives tokens back. *)
Lemma loop_total ev id df : forall fuel result toks,
  (List.length toks < fuel)%nat ->
  exists x, loop fuel ev id df result toks = Some x /\
    forall r left, x = Ok (r, left) ->
                   (List.length left <= List.length toks)%nat.
Proof.
  induction fuel as [|fuel IH]; intros result toks Hlt; [lia|].
  simpl. destruct toks as [|tok rest].
  - eexists; split; [reflexivity|].
    intros r left H. destruct (finish id result); simpl in H; [|discriminate].
    inversion H; subst. simpl. lia.
  - simpl in Hlt.
    assert (Hin : forall res0,
      exists x, loop fuel ev id df res0 rest = Some x /\
        forall r left, x = Ok (r, left) ->
                       (List.length left <= List.length rest)%nat)
      by (intros; apply IH; lia).
    assert (Hconn : forall res (f : list bool -> DataFrame)
                           (g : DataFrame -> list bool),
      exists x,
        match rest with
        | [] => Some (Raise (Raised StopIteration ""))
        | next_token :: rest' =>
            match
              match type next_token with
              | GROUP_OPEN => loop fuel ev id df None rest'
              | _ => Some (rh <- ev (value next_token) df ;; Ok (rh, rest'))
              end
            with
            | None => None
            | Some (Raise e) => Some (Raise e)
            | Some (Ok (right_hand, rest'')) =>
                loop fuel ev id df (Some (f (g (join res right_hand "_rh"))))
                     rest''
            end
        end = Some x /\
        forall r left, x = Ok (r, left) ->
                       (List.length left <= S (List.length rest))%nat).
    { intros res f g. destruct rest as [|nt rest'].
      - eexists; split; [reflexivity|]. intros; discriminate.
      - simpl in Hlt.
        assert (Hgo : forall rh rest'',
          (List.length rest'' <= List.length rest')%nat ->
          exists x, loop fuel ev id df
                      (Some (f (g (join res rh "_rh")))) rest'' = Some x /\
            forall r left, x = Ok (r, left) ->
                           (List.length left <= S (S (List.length rest')))%nat).
        { intros rh rest'' Hl.
          destruct (IH (Some (f (g (join res rh "_rh")))) rest'')
            as [x [Hx Hb]]; [lia|].
          exists x; split; [exact Hx|].
          intros r left E. specialize (Hb r left E). lia. }
        assert (Hleaf : exists x,
          match Some (rh <- ev (value nt) df ;; Ok (rh, rest')) with
          | None => None
          | Some (Raise e) => Some (Raise e)
          | Some (Ok (right_hand, rest'')) =>
              loop fuel ev id df
                   (Some (f (g (join res right_hand "_rh")))) rest''
          end = Some x /\
          forall r left, x = Ok (r, left) ->
                         (List.length left <= S (S (List.length rest')))%nat).
        { destruct (ev (value nt) df) as [rh|e]; simpl.
          - apply Hgo. lia.
          - eexists; split; [reflexivity|]. intros; discriminate. }
        destruct (type nt); try exact Hleaf.
        destruct (IH None rest') as [x [Hx Hb]]; [lia|].
        rewrite Hx. destruct x as [[rh rest'']|e].
        + apply Hgo. now apply (Hb rh rest'').
        + eexists; split; [reflexivity|]. intros; discriminate. }
    destruct (type tok).
    + destruct result as [res|].
      * apply (Hconn res to_frame np_all).
      * eexists; split; [reflexivity|]. intros; discriminate.
    + destruct result as [res|].
      * apply (Hconn res to_frame np_any).
      * eexists; split; [reflexivity|]. intros; discriminate.
    + destruct (Hin None) as [x [Hx Hb]]. rewrite Hx.
      destruct x as [[r rest']|e].
      * destruct (IH (Some r) rest') as [y [Hy Hb']].
        { specialize (Hb r rest' eq_refl). lia. }
        exists y; split; [exact Hy|].
        intros r0 left E. specialize (Hb' r0 left E).
        specialize (Hb r rest' eq_refl). simpl. lia.
      * eexists; split; [reflexivity|]. intros; discriminate.
    + eexists; split; [reflexivity|].
      intros r left H. destruct (finish id result); simpl in H; [|discriminate].
      inversion H; subst. simpl. lia.
    + destruct result as [res|].
      * eexists; split; [reflexivity|]. intros; discriminate.
      * destruct (ev (value tok) df) as [r|e].
        -- destruct (Hin (Some r)) as [x [Hx Hb]].
           exists x; split; [exact Hx|].
           intros r0 left E. specialize (Hb r0 left E). simpl. lia.
        -- eexists; split; [reflexivity|]. intros; discriminate.
Qed.

Lemma evaluate_total ev id df toks :
  exists x, evaluate (enough toks) ev id df toks = Some x.
Proof.
  destruct (loop_total ev id df (enough toks) None toks) as [x [H _]].
  - unfold enough. lia.
  - now exists x.
Qed.

Lemma nth_or_then_and xs ys zs i :
  List.length ys = List.length xs -> List.length zs = List.length xs ->
  (i < List.length xs)%nat ->
  nth i (or_then_and xs ys zs) false
  = (nth i xs false || nth i ys false) && nth i zs false.
Proof.
  intros Hy Hz Hi. unfold or_then_and.
  rewrite nth_rowwise2; rewrite ?length_rowwise2; try lia.
  now rewrite nth_rowwise2.
Qed.

Lemma evaluate_or_and (ev : Evaluator) id df X Y Z vo va lx ly lz xs ys zs :
  ev X df = Ok (bool_frame lx xs) ->
  ev Y df = Ok (bool_frame ly ys) ->
  ev Z df = Ok (bool_frame lz zs) ->
  List.length ys = List.length xs -> List.length zs = List.length xs ->
  let rule := [tokE X; mkToken OR vo; tokE Y; mkToken AND va; tokE Z] in
  evaluate (enough rule) ev id df rule
  = Some (Ok (bool_frame (LStr id) (or_then_and xs ys zs), [])).
Proof.
  intros HX HY HZ Hy Hz rule. unfold rule, evaluate, enough.
  cbn [List.length loop type value tokE]. rewrite HX.
  cbn [loop type value tokE]. rewrite HY. cbn [bind].
  change (to_frame (np_any (join (bool_frame lx xs) (bool_frame ly ys) "_rh")))
    with (bool_frame (LInt 0)
            (np_any (join (bool_frame lx xs) (bool_frame ly ys) "_rh"))).
  rewrite np_any_join by assumption.
  cbn [loop type value tokE]. rewrite HZ. cbn [bind].
  change (to_frame ?b) with (bool_frame (LInt 0) b).
  rewrite np_all_join by (rewrite length_rowwise2; lia).
  reflexivity.
Qed.

(** C1 (as amended).  On the rule [X or Y and Z] over three one-column
    boolean leaf clauses, [Parser.evaluate] returns the single column
    [(X or Y) and Z], row by row: the connectives are folded from left to
    right.  On a row with [X = false], [Y = true], [Z = false] the result
    is false -- and so is [X or (Y and Z)] there; the two readings differ
    on the rows with [X = true] and [Z = false], where the result is false
    and [X or (Y and Z)] is true. *)
Theorem C1_left_to_right (ev : Evaluator) id df X Y Z vo va lx ly lz xs ys zs :
  ev X df = Ok (bool_frame lx xs) ->
  ev Y df = Ok (bool_frame ly ys) ->
  ev Z df = Ok (bool_frame lz zs) ->
  List.length xs = nrows df ->
  List.length ys = nrows df ->
  List.length zs = nrows df ->
  let rule := [tokE X; mkToken OR vo; tokE Y; mkToken AND va; tokE Z] in
  exists out,
    evaluate (enough rule) ev id df rule
      = Some (Ok (bool_frame (LStr id) out, [])) /\
    List.length out = nrows df /\
    forall i, (i < nrows df)%nat ->
      let x := nth i xs false in
      let y := nth i ys false in
      let z := nth i zs false in
      nth i out false = (x || y) && z /\
      (x = false -> y = true -> z = false ->
         nth i out false = false /\ x || (y && z) = false) /\
      (x = true -> z = false ->
         nth i out false = false /\ x || (y && z) = true).
Proof.
  intros HX HY HZ Lx Ly Lz rule.
  exists (or_then_and xs ys zs). split; [|split].
  - apply (evaluate_or_and ev id df X Y Z vo va lx ly lz xs ys zs);
      try assumption; lia.
  - unfold or_then_and. rewrite !length_rowwise2; rewrite ?length_rowwise2; lia.
  - intros i Hi x y z.
    assert (E : nth i (or_then_and xs ys zs) false = (x || y) && z)
      by (apply nth_or_then_and; lia).
    split; [exact E|]. rewrite E. split.
    + intros -> -> ->. split; reflexivity.
    + intros -> ->. split; [now rewrite andb_false_r | reflexivity].
Qed.

Lemma C1_left_to_right_witness :
  exists out,
    evaluate 6 ev0 "validation_result" df0
             [tokE "x"; tokOr; tokE "y"; tokAnd; tokE "z"]
      = Some (Ok (bool_frame (LStr "validation_result") out, [])) /\
    List.length out = 3%nat /\
    forall i, (i < 3)%nat ->
      let x := nth i [false; false; true] false in
      let y := nth i [true; true; false] false in
      let z := nth i [false; true; false] false in
      nth i out false = (x || y) && z /\
      (x = false -> y = true -> z = false ->
         nth i out false = false /\ x || (y && z) = false) /\
      (x = true -> z = false ->
         nth i out false = false /\ x || (y && z) = true).
Proof.
  exact (C1_left_to_right ev0 "validation_result" df0 "x" "y" "z"
           " or " " and " (LStr "x") (LStr "y") (LStr "z")
           [false; false; true] [true; true; false] [false; true; false]
           eq_refl eq_refl eq_refl eq_refl eq_refl eq_refl).
Defined.

(** C1, the claim as stated fails: on a row with [X = false], [Y = true],
    [Z = false] the result of [X or Y and Z] is false, and it does not
    differ from [X or (Y and Z)], which is false there as well. *)
Lemma C1_row_does_not_differ :
  let x := false in let y := true in let z := false in
  evaluate 6 (fun s _ => Ok (bool_frame (LStr s)
                [if String.eqb s "X" then x
                 else if String.eqb s "Y" then y else z]))
           "validation_result" (mkFrame 1 [])
           [tokE "X"; tokOr; tokE "Y"; tokAnd; tokE "Z"]
    = Some (Ok (bool_frame (LStr "validation_result") [x || (y && z)], []))
  /\ x || (y && z) = false
  /\ ~ (x || (y && z) = true).
Proof. vm_compute. repeat split. discriminate. Qed.

Example init_or_and :
  init "x or y and z" = [tokE "x"; tokOr; tokE "y"; tokAnd; tokE "z"].
Proof. reflexivity. Qed.

Example init_unmatched_close :
  init "a > 1 ) and b > 2" = [tokE "a > 1"; tokClose; tokAnd; tokE "b > 2"].
Proof. reflexivity. Qed.

(** A [GROUP_CLOSE] ends the loop wherever it stands: what follows it is
    not read. *)
Lemma loop_stops_at_close ev id df close rest :
  type close = GROUP_CLOSE ->
  forall fuel result pre r left,
    group_free pre ->
    loop fuel ev id df result pre = Some (Ok (r, left)) ->
    loop fuel ev id df result (pre ++ close :: rest) = Some (Ok (r, rest)).
Proof.
  intros Hc. induction fuel as [|fuel IH]; intros result pre r left Hgf H;
    [discriminate|].
  destruct pre as [|tok pre'].
  - simpl in H |- *. rewrite Hc.
    destruct (finish id result); simpl in H |- *; [|discriminate].
    now inversion H.
  - inversion Hgf as [|? ? [Hno Hnc] Hgf']; subst.
    simpl in H |- *.
    assert (Hconn : forall res (f : DataFrame -> list bool),
      match pre' with
      | [] => Some (Raise (Raised StopIteration ""))
      | next_token :: rest' =>
          match
            match type next_token with
            | GROUP_OPEN => loop fuel ev id df None rest'
            | _ => Some (rh <- ev (value next_token) df ;; Ok (rh, rest'))
            end
          with
          | None => None
          | Some (Raise e) => Some (Raise e)
          | Some (Ok (right_hand, rest'')) =>
              loop fuel ev id df
                   (Some (to_frame (f (join res right_hand "_rh")))) rest''
          end
      end = Some (Ok (r, left)) ->
      match pre' ++ close :: rest with
      | [] => Some (Raise (Raised StopIteration ""))
      | next_token :: rest' =>
          match
            match type next_token with
            | GROUP_OPEN => loop fuel ev id df None rest'
            | _ => Some (rh <- ev (value next_token) df ;; Ok (rh, rest'))
            end
          with
          | None => None
          | Some (Raise e) => Some (Raise e)
          | Some (Ok (right_hand, rest'')) =>
              loop fuel ev id df
                   (Some (to_frame (f (join res right_hand "_rh")))) rest''
          end
      end = Some (Ok (r, rest))).
    { intros res f H1. destruct pre' as [|nt pre'']; [discriminate|].
      inversion Hgf' as [|? ? [Hno' Hnc'] Hgf'']; subst.
      simpl. destruct (type nt); try congruence;
        (destruct (ev (value nt) df) as [rh|e]; simpl in H1 |- *;
         [now apply IH with (left := left) | discriminate]). }
    destruct (type tok); try congruence.
    + destruct result as [res|]; [|discriminate]. now apply Hconn.
    + destruct result as [res|]; [|discriminate]. now apply Hconn.
    + destruct result as [res|]; [discriminate|].
      destruct (ev (value tok) df) as [r0|e]; [|discriminate].
      now apply IH with (left := left).
Qed.

(** C3 (as amended).  An unmatched [GROUP_CLOSE] raises no error.  When
    the tokens before it hold no group token and evaluate to a result,
    the evaluation of the whole rule stops at the [GROUP_CLOSE] and
    returns that very result, the rest of the rule left unread in the
    tokenizer.  The grammar errors of the parser are the two [ValueError]s
    for a connective with no left-hand side and for a leaf where a
    connective is expected, each raised whatever follows. *)
Theorem C3_unmatched_close_returns (ev : Evaluator) id df pre close rest r :
  type close = GROUP_CLOSE ->
  group_free pre ->
  evaluate (enough pre) ev id df pre = Some (Ok (r, [])) ->
  evaluate (enough (pre ++ close :: rest)) ev id df (pre ++ close :: rest)
    = Some (Ok (r, rest))
  /\ (forall conn more, type conn = AND \/ type conn = OR ->
        evaluate (enough (conn :: more)) ev id df (conn :: more)
        = Some (Raise (Raised ValueError
             "Use of and / or without left hand side expression.")))
  /\ (forall e1 e2 more r1, type e1 = EXPR -> type e2 = EXPR ->
        ev (value e1) df = Ok r1 ->
        evaluate (enough (e1 :: e2 :: more)) ev id df (e1 :: e2 :: more)
        = Some (Raise (Raised ValueError
             "Expected and / or, got expression instead."))).
Proof.
  intros Hc Hgf H. split; [|split].
  - unfold evaluate in *.
    apply loop_mono with (fuel := enough pre).
    + unfold enough. rewrite length_app. lia.
    + now apply loop_stops_at_close with (left := []).
  - intros conn more [E|E]; unfold evaluate, enough; simpl; now rewrite E.
  - intros e1 e2 more r1 E1 E2 H1. unfold evaluate, enough. simpl.
    rewrite E1, H1. simpl. now rewrite E2.
Qed.

Lemma C3_unmatched_close_returns_witness :
  evaluate 5 ev0 "validation_result" df0 (init "x ) and y")
    = Some (Ok (bool_frame (LStr "validation_result") [false; false; true],
                [tokAnd; tokE "y"])).
Proof.
  refine (proj1 (C3_unmatched_close_returns ev0 "validation_result" df0
                   [tokE "x"] tokClose [tokAnd; tokE "y"]
                   (bool_frame (LStr "validation_result") [false; false; true])
                   _ _ _)).
  - reflexivity.
  - repeat constructor; simpl; discriminate.
  - reflexivity.
Defined.

(** C3, the claim as stated fails: the rule [a > 1 ) and b > 2] raises
    nothing.  [evaluate] returns the result of the clause [a > 1] alone
    and leaves the connective and the second clause in the tokenizer,
    whatever the evaluator makes of the clauses. *)
Lemma C3_unmatched_close_no_error :
  let ev : Evaluator := fun s _ => Ok (bool_frame (LStr s) [true; false]) in
  let rule := init "a > 1 ) and b > 2" in
  evaluate (enough rule) ev "validation_result" (mkFrame 2 []) rule
    = Some (Ok (bool_frame (LStr "validation_result") [true; false],
                [tokAnd; tokE "b > 2"]))
  /\ evaluate (enough rule) ev "validation_result" (mkFrame 2 []) rule
     = fmap_rest (evaluate (enough (init "a > 1")) ev "validation_result"
                           (mkFrame 2 []) (init "a > 1"))
                 [tokAnd; tokE "b > 2"].
Proof. split; reflexivity. Qed.

End ParserFacts.

(* ------------------------------------------------------------------ *)
(** ** The registries *)

Lemma is_prefix_app (s q : string) :
  Parser.is_prefix s (s ++ q)%string = true.
Proof.
  induction s as [|c s IH]; simpl; [reflexivity|].
  now rewrite Ascii.eqb_refl, IH.
Qed.

Lemma occurs_app (p s q : string) : occurs s (p ++ s ++ q)%string = true.
Proof.
  induction p as [|c p IH]; simpl.
  - destruct (s ++ q)%string eqn:E; simpl.
    + rewrite <- E, is_prefix_app. reflexivity.
    + rewrite <- E, is_prefix_app. reflexivity.
  - rewrite IH. apply orb_true_r.
Qed.

Lemma dict_get_none d s :
  ~ In s (map fst d) -> dict_get d s = None.
Proof.
  unfold dict_get. induction d as [|[k c] d IH]; simpl; intros H;
    [reflexivity|].
  destruct (String.eqb k s) eqn:E.
  - apply String.eqb_eq in E. subst. exfalso. apply H. now left.
  - apply IH. intros Hin. apply H. now right.
Qed.

Lemma registry_get_unknown what cls symbol :
  ~ In symbol (registry_list cls) ->
  registry_get what cls symbol
  = Raise (Raised TypeError
             ("Unknown " ++ what ++ ": " ++ symbol ++ ".")%string).
Proof.
  intros H. unfold registry_get. now rewrite dict_get_none.
Qed.

(** C4 (as amended).  For every symbol that is not registered, the lookup
    in the comparator registry and the lookup in the operator registry
    raise a [TypeError] whose message is [Unknown Comparator: <symbol>.]
    (resp. [Unknown Operator: <symbol>.]): the message holds the requested
    symbol, and nothing else that depends on the registry. *)
Theorem C4_unknown_symbol_message (cls : class) (symbol : string) :
  (~ In symbol (Comparator.list cls) ->
   exists msg,
     Comparator.get cls symbol = Raise (Raised TypeError msg) /\
     msg = ("Unknown Comparator: " ++ symbol ++ ".")%string /\
     occurs symbol msg = true)
  /\
  (~ In symbol (Operator.list cls) ->
   exists msg,
     Operator.get cls symbol = Raise (Raised TypeError msg) /\
     msg = ("Unknown Operator: " ++ symbol ++ ".")%string /\
     occurs symbol msg = true).
Proof.
  split; intros H; eexists; (split; [|split; [reflexivity|]]).
  - now apply registry_get_unknown.
  - apply (occurs_app "Unknown Comparator: " symbol ".").
  - now apply registry_get_unknown.
  - apply (occurs_app "Unknown Operator: " symbol ".").
Qed.

Lemma C4_unknown_symbol_message_witness :
  exists msg,
    Comparator.get Comparator.root "~~" = Raise (Raised TypeError msg) /\
    msg = "Unknown Comparator: ~~." /\
    occurs "~~" msg = true.
Proof.
  apply (proj1 (C4_unknown_symbol_message Comparator.root "~~")).
  vm_compute. intros H.
  repeat (destruct H as [H|H]; [discriminate H|]). exact H.
Defined.

(** C4, the claim as stated fails: the message raised for the unknown
    symbol [~~] holds none of the registered symbols, in either
    registry. *)
Lemma C4_message_without_valid_symbols :
  (exists msg,
     Comparator.get Comparator.root "~~" = Raise (Raised TypeError msg) /\
     Comparator.list Comparator.root <> [] /\
     forallb (fun s => negb (occurs s msg)) (Comparator.list Comparator.root)
     = true)
  /\
  (exists msg,
     Operator.get Operator.root "~~" = Raise (Raised TypeError msg) /\
     Operator.list Operator.root <> [] /\
     forallb (fun s => negb (occurs s msg)) (Operator.list Operator.root)
     = true).
Proof.
  split; eexists; (split; [reflexivity|]); split;
    solve [discriminate | reflexivity].
Qed.

(* ------------------------------------------------------------------ *)
(** ** Missing and NotMissing *)

Lemma shape_map_cells f d df : shape (map_cells f d df) = shape df.
Proof. unfold shape, map_cells. simpl. now rewrite length_map. Qed.

Lemma labels_map_cells f d df : labels (map_cells f d df) = labels df.
Proof. unfold labels, map_cells. simpl. rewrite map_map. reflexivity. Qed.

Lemma at_map_cells f d df j i :
  (j < List.length (columns df))%nat ->
  (forall c, In c (columns df) -> (i < List.length (s_values (snd c)))%nat) ->
  at_ (map_cells f d df) j i = f (at_ df j i).
Proof.
  intros Hj Hi. unfold at_, map_cells. simpl.
  rewrite nth_error_map.
  destruct (nth_error (columns df) j) as [c|] eqn:E.
  - simpl. unfold cell. simpl.
    rewrite nth_indep with (d' := f VNaN).
    + apply map_nth.
    + rewrite length_map. apply Hi. eapply nth_error_In; eassumption.
  - apply nth_error_None in E. lia.
Qed.

(** C10.  [Missing] and [NotMissing] do not look at the target: in both
    modules, any two targets -- the absent target [None] among them --
    give the same outcome, a frame of the shape and labels of the
    dataset whose cell is true exactly where the cell of the dataset is
    missing (resp. present). *)
Theorem C10_missing_ignores_target (df : DataFrame) (t1 t2 : target) :
  Legacy.NullComparator df t1 = Legacy.NullComparator df t2 /\
  Legacy.NotNullComparator df t1 = Legacy.NotNullComparator df t2 /\
  RowWise.NullComparator df t1 = RowWise.NullComparator df (TScalar VNaN) /\
  RowWise.NotNullComparator df t1 = RowWise.NotNullComparator df (TScalar VNaN) /\
  RowWise.NullComparator df t1 = Legacy.NullComparator df t2 /\
  RowWise.NotNullComparator df t1 = Legacy.NotNullComparator df t2 /\
  exists missing present,
    Legacy.NullComparator df t1 = Ok missing /\
    Legacy.NotNullComparator df t1 = Ok present /\
    shape missing = shape df /\ shape present = shape df /\
    labels missing = labels df /\ labels present = labels df /\
    (wf_frame df ->
     forall j i, (j < List.length (columns df))%nat -> (i < nrows df)%nat ->
       exists b,
         at_ missing j i = VBool b /\ at_ present j i = VBool (negb b) /\
         (b = true <-> at_ df j i = VNaN)).
Proof.
  repeat (split; [reflexivity|]).
  exists (df_isna df), (df_invert (df_isna df)).
  repeat (split; [reflexivity|]).
  unfold df_invert, df_isna.
  rewrite !shape_map_cells, !labels_map_cells.
  repeat (split; [reflexivity|]).
  intros Hwf j i Hj Hi.
  assert (Hlen : forall c, In c (columns df) ->
                           (i < List.length (s_values (snd c)))%nat).
  { intros c Hc. unfold wf_frame in Hwf. rewrite Forall_forall in Hwf.
    rewrite (Hwf c Hc). exact Hi. }
  exists (isna (at_ df j i)). split; [|split].
  - now apply at_map_cells.
  - rewrite at_map_cells.
    + rewrite at_map_cells by assumption. reflexivity.
    + unfold map_cells. simpl. now rewrite length_map.
    + unfold map_cells. simpl. intros c Hc.
      apply in_map_iff in Hc. destruct Hc as [c0 [<- Hc0]]. simpl.
      rewrite length_map. now apply Hlen.
  - destruct (at_ df j i); simpl; split; intros H; congruence.
Qed.

Lemma wf_df_nan : wf_frame df_nan.
Proof. repeat constructor. Qed.

Lemma C10_missing_ignores_target_witness :
  Legacy.NullComparator df_nan (TScalar (VStr "anything"))
  = Ok (mkFrame 3
          [ (LStr "a", bool_series [false; true; false]);
            (LStr "b", bool_series [true; false; false]) ])
  /\ Legacy.NullComparator df_nan (TScalar (VStr "anything"))
     = Legacy.NullComparator df_nan (TScalar VNaN).
Proof.
  pose proof (C10_missing_ignores_target df_nan
                (TScalar (VStr "anything")) (TScalar VNaN)) as [H _].
  split; [reflexivity | exact H].
Defined.

(* ------------------------------------------------------------------ *)
(** ** Eq and UnEq *)

Lemma value_ne_negb a b : value_ne a b = negb (value_eq a b).
Proof.
  destruct a, b; simpl; try reflexivity;
    repeat match goal with |- context [if ?x then _ else _] => destruct x end;
    reflexivity.
Qed.

Lemma mapM_ok {A B} (f : A -> res B) (g : A -> B) l :
  (forall a, In a l -> f a = Ok (g a)) -> mapM f l = Ok (map g l).
Proof.
  induction l as [|a l IH]; intros H; simpl; [reflexivity|].
  rewrite H by now left. simpl.
  rewrite IH by (intros; apply H; now right). reflexivity.
Qed.

Lemma mapM_ext {A B} (f g : A -> res B) l :
  (forall a, In a l -> f a = g a) -> mapM f l = mapM g l.
Proof.
  induction l as [|a l IH]; intros H; simpl; [reflexivity|].
  rewrite H by now left. destruct (g a); simpl; [|reflexivity].
  rewrite IH; [reflexivity|]. intros; apply H; now right.
Qed.

Lemma mapM_fmap {A B C} (f : A -> res B) (g : B -> C) l :
  mapM (fun a => fmap g (f a)) l = fmap (map g) (mapM f l).
Proof.
  induction l as [|a l IH]; simpl; [reflexivity|].
  unfold fmap in *. destruct (f a); simpl; [|reflexivity].
  rewrite IH. destruct (mapM f l); reflexivity.
Qed.

Lemma mapM_length {A B} (f : A -> res B) l out :
  mapM f l = Ok out -> List.length out = List.length l.
Proof.
  revert out. induction l as [|a l IH]; simpl; intros out H.
  - now inversion H.
  - destruct (f a); simpl in H; [|discriminate].
    destruct (mapM f l); simpl in H; [|discriminate].
    inversion H; subst. simpl. now rewrite (IH _ eq_refl).
Qed.

Lemma mapM_nth_error {A B} (f : A -> res B) l out j a :
  mapM f l = Ok out -> nth_error l j = Some a ->
  exists b, nth_error out j = Some b /\ f a = Ok b.
Proof.
  revert out j. induction l as [|x l IH]; simpl; intros out j H Hj.
  - destruct j; discriminate.
  - destruct (f x) eqn:Ex; simpl in H; [|discriminate].
    destruct (mapM f l); simpl in H; [|discriminate].
    inversion H; subst. destruct j; simpl in *.
    + inversion Hj; subst. eauto.
    + now apply IH.
Qed.

Module EqFacts.
Import RowWise EqTerms.

(** *** The flat module *)

Lemma legacy_eq_columns df target cols :
  mapM (fun c =>
          d <- Legacy.column_dtype df c ;;
          t <- series_astype d target ;;
          r <- Legacy.series_eq (nrows df) (snd c) t ;;
          Ok (fst c, r)) (columns df) = Ok cols ->
  forall j i, (j < List.length cols)%nat -> (i < nrows df)%nat ->
    exists b, at_ (mkFrame (nrows df) cols) j i = VBool b.
Proof.
  intros H j i Hj Hi.
  pose proof (mapM_length _ _ _ H) as Hlen.
  destruct (nth_error (columns df) j) as [c|] eqn:Ec;
    [|apply nth_error_None in Ec; lia].
  destruct (mapM_nth_error _ _ _ j _ H Ec) as [out [Ho Hf]].
  unfold at_. simpl. rewrite Ho.
  destruct (Legacy.column_dtype df c) as [d|]; simpl in Hf; [|discriminate].
  destruct (series_astype d target) as [t|]; simpl in Hf; [|discriminate].
  unfold Legacy.series_eq in Hf.
  destruct (List.length (s_values t) =? nrows df)%nat; simpl in Hf;
    [|discriminate].
  inversion Hf; subst. simpl. unfold cell. simpl.
  eexists. now rewrite nth_map_seq.
Qed.

Lemma negation_of_invert e :
  (forall j i, (j < List.length (columns e))%nat -> (i < nrows e)%nat ->
     exists b, at_ e j i = VBool b) ->
  (forall c, In c (columns e) -> List.length (s_values (snd c)) = nrows e) ->
  negation_of e (df_invert e).
Proof.
  intros Hb Hwf. unfold negation_of, df_invert.
  split; [reflexivity|]. split; [apply labels_map_cells|].
  intros j i Hj Hi. destruct (Hb j i Hj Hi) as [b Eb].
  exists b. split; [exact Eb|].
  rewrite at_map_cells; [now rewrite Eb|assumption|].
  intros c Hc. now rewrite (Hwf c Hc).
Qed.

Lemma legacy_negated df target :
  negated_outcome (Legacy.EqComparator df target)
                  (Legacy.UnEqComparator df target).
Proof.
  unfold Legacy.UnEqComparator, Legacy.EqComparator.
  destruct (mapM _ (columns df)) as [cols|e] eqn:E; simpl; [|reflexivity].
  destruct cols as [|c0 cols'].
  - repeat split. intros j i Hj. simpl in Hj. lia.
  - remember (c0 :: cols') as cols.
    apply negation_of_invert.
    + simpl. intros j i Hj Hi. eapply legacy_eq_columns; eassumption.
    + simpl. intros c Hc.
      destruct (In_nth_error _ _ Hc) as [j Hj].
      pose proof (mapM_length _ _ _ E) as Hlen.
      destruct (nth_error (columns df) j) as [c'|] eqn:Ec.
      * destruct (mapM_nth_error _ _ _ j _ E Ec) as [out [Ho Hf]].
        rewrite Hj in Ho. inversion Ho; subst out.
        destruct (Legacy.column_dtype df c') as [d|]; simpl in Hf;
          [|discriminate].
        destruct (series_astype d (as_series df target));
          simpl in Hf; [|discriminate].
        unfold Legacy.series_eq in Hf.
        destruct (List.length (s_values a) =? nrows df)%nat; simpl in Hf;
          [|discriminate].
        inversion Hf; subst. simpl. now rewrite length_map, length_seq.
      * apply nth_error_None in Ec.
        assert (j < List.length cols)%nat
          by (apply nth_error_Some; congruence). lia.
Qed.

(** *** The package *)

Lemma same_labels (l r : list (label * value)) :
  forallb (fun p => label_eqb (fst (fst p)) (fst (snd p))) (combine l r)
  = forallb (fun p => label_eqb (fst p) (snd p))
            (combine (map fst l) (map fst r)).
Proof.
  revert r. induction l as [|x l IH]; intros [|y r]; simpl; try reflexivity.
  now rewrite IH.
Qed.

Lemma map_fst_combine {A B} (l : list A) (r : list B) :
  List.length l = List.length r -> map fst (combine l r) = l.
Proof.
  revert r. induction l as [|x l IH]; intros [|y r] H; simpl in *;
    try reflexivity; try discriminate.
  f_equal. apply IH. lia.
Qed.

Lemma mapM_items (op : value -> value -> res bool) {A}
    (lab : A -> label) (va vb : A -> value) (l : list A) items :
  mapM (fun p => b <- op (va p) (vb p) ;; Ok (lab p, VBool b)) l = Ok items ->
  map fst items = map lab l /\ Forall bool_item items.
Proof.
  revert items. induction l as [|p l IH]; simpl; intros items H.
  - inversion H. split; constructor.
  - destruct (op (va p) (vb p)); simpl in H; [|discriminate].
    destruct (mapM _ l) as [rest|]; simpl in H; [|discriminate].
    inversion H; subst. destruct (IH rest eq_refl) as [H1 H2].
    split; simpl; [now rewrite H1|].
    constructor; [now eexists | exact H2].
Qed.

Lemma flex_series_items op left right items :
  flex_series op left right = Ok items ->
  map fst items = flex_labels (map fst left) (map fst right)
  /\ Forall bool_item items.
Proof.
  unfold flex_series, flex_labels. rewrite same_labels, !length_map.
  destruct ((List.length left =? List.length right)%nat
            && forallb _ (combine (map fst left) (map fst right))) eqn:E.
  - intros H.
    destruct (mapM_items op (fun p => fst (fst p)) (fun p => snd (fst p))
                (fun p => snd (snd p)) _ _ H) as [H1 H2].
    split; [|exact H2]. rewrite H1.
    apply andb_prop in E. destruct E as [E _]. apply Nat.eqb_eq in E.
    rewrite <- map_map with (f := fst) (g := fst).
    now rewrite map_fst_combine.
  - intros H.
    destruct (mapM_items op (fun l => l) (fun l => lookup l left)
                (fun l => lookup l right) _ _ H) as [H1 H2].
    split; [|exact H2]. now rewrite H1, map_id.
Qed.

Lemma flex_series_ne left right :
  flex_series nef left right = fmap (map neg_item) (flex_series eqf left right).
Proof.
  unfold flex_series.
  destruct ((List.length left =? List.length right)%nat && _).
  - rewrite <- mapM_fmap. apply mapM_ext. intros p _.
    unfold nef, eqf, fmap, neg_item. simpl. now rewrite value_ne_negb.
  - rewrite <- mapM_fmap. apply mapM_ext. intros p _.
    unfold nef, eqf, fmap, neg_item. simpl. now rewrite value_ne_negb.
Qed.

Lemma compare_series_ne series target :
  _compare_series series target nef
  = fmap neg_ls (_compare_series series target eqf).
Proof.
  unfold _compare_series.
  destruct (match target with TScalar _ => _ | TSeries _ => _ end)
    as [target'|e]; simpl; [|reflexivity].
  rewrite flex_series_ne. unfold fmap.
  destruct (flex_series eqf (ls_items series) target'); reflexivity.
Qed.

Lemma row_labels df k : map fst (ls_items (row df k)) = labels df.
Proof. unfold row, labels. simpl. now rewrite map_map. Qed.

(** The outcome of the comparison of a row holds booleans under the
    labels of the row aligned with those of the target. *)
Lemma compare_series_labels df target op k rk :
  _compare_series (row df k) target op = Ok rk ->
  map fst (ls_items rk) = flex_labels (labels df) (target_labels df target)
  /\ Forall bool_item (ls_items rk).
Proof.
  intros Hk. unfold _compare_series in Hk.
  destruct target as [v|s].
  - destruct (astype (ls_dtype (row df k)) v) as [tv|]; simpl in Hk;
      [|discriminate].
    destruct (flex_series op _ _) as [items|] eqn:Ef; simpl in Hk;
      [|discriminate].
    inversion Hk; subst. simpl.
    destruct (flex_series_items _ _ _ _ Ef) as [H1 H2].
    split; [|exact H2].
    rewrite H1. f_equal; [exact (row_labels df k)|].
    rewrite map_map. exact (row_labels df k).
  - destruct (if negb (dtype_eqb (ls_dtype (row df k)) (s_dtype s))
              then series_astype (ls_dtype (row df k)) s else Ok s)
      as [s'|] eqn:Es; simpl in Hk; [|discriminate].
    destruct (flex_series op _ _) as [items|] eqn:Ef; simpl in Hk;
      [|discriminate].
    inversion Hk; subst. simpl.
    destruct (flex_series_items _ _ _ _ Ef) as [H1 H2].
    assert (Hl : List.length (s_values s') = List.length (s_values s)).
    { destruct (negb _); [|now inversion Es].
      unfold series_astype in Es.
      destruct (mapM (astype (ls_dtype (row df k))) (s_values s)) eqn:Em;
        simpl in Es; [|discriminate].
      inversion Es; subst. simpl. now apply mapM_length in Em. }
    split; [|exact H2].
    rewrite H1. f_equal; [exact (row_labels df k)|].
    rewrite map_fst_combine by now rewrite length_map, length_seq.
    now rewrite Hl.
Qed.

Lemma compare_series_items df target op i r :
  _compare_series (row df i) target op = Ok r ->
  exists tl,
    (forall i' r', _compare_series (row df i') target op = Ok r' ->
                   map fst (ls_items r') = tl)
    /\ map fst (ls_items r) = tl
    /\ Forall bool_item (ls_items r).
Proof.
  intros H. destruct (compare_series_labels _ _ _ _ _ H) as [H1 H2].
  exists (flex_labels (labels df) (target_labels df target)).
  split; [|split; assumption].
  intros i' r' H'. now destruct (compare_series_labels _ _ _ _ _ H').
Qed.

Lemma lookup_bool l items :
  Forall bool_item items -> In l (map fst items) ->
  exists b, lookup l items = VBool b.
Proof.
  unfold lookup. induction items as [|e items IH]; simpl; intros Hb Hin;
    [contradiction|].
  inversion Hb; subst.
  destruct (label_eqb (fst e) l) eqn:E; [assumption|].
  destruct Hin as [Hin|Hin].
  - subst. destruct (fst e); simpl in E;
      [rewrite String.eqb_refl in E | rewrite Z.eqb_refl in E]; discriminate.
  - now apply IH.
Qed.

Lemma lookup_neg l items :
  lookup l (map neg_item items) = invert_value (lookup l items).
Proof.
  unfold lookup. induction items as [|e items IH]; simpl; [reflexivity|].
  destruct (label_eqb (fst e) l); [reflexivity | exact IH].
Qed.

Lemma rowwise_negated df target :
  negated_outcome (RowWise.EqComparator df target)
                  (RowWise.UnEqComparator df target).
Proof.
  unfold RowWise.EqComparator, RowWise.UnEqComparator, _compare. simpl.
  change (fun a b => Ok (value_eq a b)) with eqf.
  change (fun a b => Ok (value_ne a b)) with nef.
  unfold apply_rows.
  destruct (nrows df) as [|n'] eqn:En.
  { simpl. unfold negation_of. repeat split; try reflexivity.
    intros j i _ Hi. lia. }
  destruct (columns df) as [|c0 cs] eqn:Ec.
  { simpl. unfold negation_of. repeat split; try reflexivity.
    intros j i Hj. rewrite Ec in Hj. simpl in Hj. lia. }
  cbv beta.
  assert (Hne : mapM (fun i => _compare_series (row df i) target nef)
                     (seq 0 (S n'))
                = fmap (map neg_ls)
                       (mapM (fun i => _compare_series (row df i) target eqf)
                             (seq 0 (S n')))).
  { rewrite <- mapM_fmap. apply mapM_ext. intros; apply compare_series_ne. }
  rewrite Hne. clear Hne. unfold fmap.
  destruct (mapM (fun i => _compare_series (row df i) target eqf)
                 (seq 0 (S n'))) as [results|e] eqn:Er; simpl; [|reflexivity].
  pose proof (mapM_length _ _ _ Er) as Hlen. rewrite length_seq in Hlen.
  destruct results as [|r0 results']; [discriminate|].
  remember (r0 :: results') as results.
  assert (H0 : _compare_series (row df 0) target eqf = Ok r0).
  { destruct (mapM_nth_error _ _ _ 0%nat _ Er eq_refl) as [b [Hb Hf]].
    subst results. simpl in Hb. now inversion Hb; subst. }
  destruct (compare_series_items _ _ _ _ _ H0) as [tl [Hall [Htl _]]].
  assert (Hres : forall i, (i < S n')%nat ->
    exists r, nth_error results i = Some r /\
              map fst (ls_items r) = tl /\ Forall bool_item (ls_items r)).
  { intros i Hi.
    assert (Hs : nth_error (seq 0 (S n')) i = Some i).
    { rewrite nth_error_nth' with (d := 0%nat) by now rewrite length_seq.
      now rewrite seq_nth. }
    destruct (mapM_nth_error _ _ _ i _ Er Hs) as [r [Hr Hf]].
    exists r. split; [exact Hr|].
    destruct (compare_series_items _ _ _ _ _ Hf) as [tl' [_ [Htl' Hb]]].
    split; [|exact Hb]. now apply (Hall i). }
  assert (Hlab : map fst (ls_items (neg_ls r0)) = map fst (ls_items r0)).
  { unfold neg_ls. simpl. rewrite map_map. reflexivity. }
  replace (match map neg_ls results with
           | [] => []
           | r :: _ => map fst (ls_items r)
           end) with (map fst (ls_items r0))
    by (subst results; cbn [map]; now rewrite Hlab).
  replace (match results with
           | [] => []
           | r :: _ => map fst (ls_items r)
           end) with (map fst (ls_items r0)) by now subst results.
  rewrite Htl. clear Heqresults.
  unfold negation_of. simpl.
  split; [reflexivity|]. split.
  { unfold labels. simpl. rewrite !map_map. reflexivity. }
  intros j i Hj Hi. rewrite length_map in Hj.
  destruct (nth_error tl j) as [l|] eqn:El; [|apply nth_error_None in El; lia].
  destruct (Hres i Hi) as [r [Hr [Hrl Hrb]]].
  destruct (lookup_bool l (ls_items r) Hrb) as [b Hb].
  { rewrite Hrl. eapply nth_error_In; eassumption. }
  exists b. unfold at_. simpl. rewrite !nth_error_map, El. simpl.
  unfold cell. simpl. split.
  - rewrite nth_indep with (d' := lookup l (ls_items r))
      by (rewrite length_map; lia).
    rewrite map_nth with (f := fun r => lookup l (ls_items r)).
    rewrite (nth_error_nth _ _ _ Hr). exact Hb.
  - rewrite map_map.
    rewrite nth_indep with (d' := lookup l (ls_items (neg_ls r)))
      by (rewrite length_map; lia).
    rewrite map_nth with (f := fun r => lookup l (ls_items (neg_ls r))).
    rewrite (nth_error_nth _ _ _ Hr). unfold neg_ls. simpl.
    now rewrite lookup_neg, Hb.
Qed.

End EqFacts.

(** C8.  In the flat module and in the package alike, for every dataset
    and every target (a scalar, the missing scalar, a per-row Series),
    [UnEq] fails exactly when [Eq] fails, with the same error, and
    otherwise returns the elementwise negation of the boolean matrix of
    [Eq]: the same rows and labels and the opposite boolean in every
    cell. *)
Theorem C8_uneq_negates_eq (df : DataFrame) (target : target) :
  negated_outcome (Legacy.EqComparator df target)
                  (Legacy.UnEqComparator df target)
  /\ negated_outcome (RowWise.EqComparator df target)
                     (RowWise.UnEqComparator df target).
Proof.
  split.
  - apply EqFacts.legacy_negated.
  - apply EqFacts.rowwise_negated.
Qed.

Lemma C8_uneq_negates_eq_witness :
  negation_of (mkFrame 3 [ (LStr "a", bool_series [true; false; false]);
                           (LStr "b", bool_series [false; false; false]) ])
              (mkFrame 3 [ (LStr "a", bool_series [false; true; true]);
                           (LStr "b", bool_series [true; true; true]) ]).
Proof.
  exact (proj1 (C8_uneq_negates_eq df_nan (TScalar (VNum 1)))).
Defined.

Example uneq_missing_target :
  Legacy.EqComparator df_nan (TScalar VNaN)
  = Ok (mkFrame 3 [ (LStr "a", bool_series [false; false; false]);
                    (LStr "b", bool_series [false; false; false]) ])
  /\ Legacy.UnEqComparator df_nan (TScalar VNaN)
     = Ok (mkFrame 3 [ (LStr "a", bool_series [true; true; true]);
                       (LStr "b", bool_series [true; true; true]) ])
  /\ RowWise.EqComparator df_nan (TScalar VNaN)
     = Ok (mkFrame 3 [ (LStr "a", bool_series [false; false; false]);
                       (LStr "b", bool_series [false; false; false]) ])
  /\ RowWise.UnEqComparator df_nan (TScalar VNaN)
     = Ok (mkFrame 3 [ (LStr "a", bool_series [true; true; true]);
                       (LStr "b", bool_series [true; true; true]) ]).
Proof. repeat split. Qed.

(* ------------------------------------------------------------------ *)
(** ** The two families of comparators side by side *)

(** *** Where the two families agree *)

Lemma cell_repeat v n i : (i < n)%nat -> cell (mkSeries float64 (repeat v n)) i = v.
Proof.
  intros Hi. unfold cell. simpl. apply nth_repeat_lt. exact Hi.
Qed.

Lemma mapM_astype_repeat q n :
  mapM (astype float64) (repeat (VNum q) n) = Ok (repeat (VNum q) n).
Proof. induction n as [|n IH]; simpl; [reflexivity | now rewrite IH]. Qed.

Lemma filter_none {A} (f : A -> bool) l :
  (forall x, In x l -> f x = false) -> filter f l = [].
Proof.
  induction l as [|x l IH]; simpl; intros H; [reflexivity|].
  rewrite H by now left. apply IH. intros; apply H; now right.
Qed.

Lemma filter_all {A} (f : A -> bool) l :
  (forall x, In x l -> f x = true) -> filter f l = l.
Proof.
  induction l as [|x l IH]; simpl; intros H; [reflexivity|].
  rewrite H by now left. f_equal. apply IH. intros; apply H; now right.
Qed.

Lemma numeric_frame_guard df :
  numeric_frame df -> Base._check_dtypes df "number" = Ok tt.
Proof.
  intros (_ & _ & _ & _ & Hf). unfold Base._check_dtypes.
  replace (Base.invalid_columns "number" df) with (@nil label); [reflexivity|].
  symmetry. unfold Base.invalid_columns, Base.select_dtypes.
  rewrite (filter_all _ (columns df)).
  - rewrite filter_none; [reflexivity|].
    intros l Hl. apply negb_false_iff.
    apply existsb_exists. exists l. split; [exact Hl | apply label_eqb_refl].
  - intros c Hc. rewrite Forall_forall in Hf.
    destruct (Hf c Hc) as [-> _]. reflexivity.
Qed.

Lemma numeric_row_dtype df : numeric_frame df -> RowWise.row_dtype df = float64.
Proof.
  intros (_ & _ & _ & Hc & Hf). unfold RowWise.row_dtype.
  destruct (columns df) as [|c cs]; [congruence|].
  inversion Hf as [|? ? [Hd _] Hf']; subst.
  replace (forallb _ cs) with true; [exact Hd|].
  symmetry. apply forallb_forall. intros c' Hc'.
  rewrite Forall_forall in Hf'. destruct (Hf' c' Hc') as [-> _].
  now rewrite Hd.
Qed.

Lemma lookup_distinct {A} (g : A -> value) (key : A -> label) (l : list A) a :
  NoDup (map key l) -> In a l ->
  RowWise.lookup (key a) (map (fun x => (key x, g x)) l) = g a.
Proof.
  unfold RowWise.lookup. induction l as [|x l IH]; simpl; intros Hnd Hin;
    [contradiction|].
  inversion Hnd as [|? ? Hx Hnd']; subst.
  destruct Hin as [->|Hin].
  - now rewrite label_eqb_refl.
  - destruct (label_eqb (key x) (key a)) eqn:E.
    + exfalso. apply Hx.
      assert (key x = key a).
      { destruct (key x), (key a); simpl in E; try discriminate.
        - apply String.eqb_eq in E. now subst.
        - apply Z.eqb_eq in E. now subst. }
      rewrite H. now apply in_map.
    + now apply IH.
Qed.

Lemma label_eqb_sound a b : label_eqb a b = true -> a = b.
Proof.
  destruct a, b; simpl; intros E; try discriminate.
  - apply String.eqb_eq in E. now subst.
  - apply Z.eqb_eq in E. now subst.
Qed.

(** Under distinct labels the lookup of a column by its label finds the
    column. *)
Lemma column_dtype_distinct df c :
  NoDup (labels df) -> In c (columns df) ->
  Legacy.column_dtype df c = Ok (s_dtype (snd c)).
Proof.
  unfold labels, Legacy.column_dtype. intros Hnd Hin.
  assert (H1 : List.length (filter (fun c' => label_eqb (fst c') (fst c))
                                   (columns df)) = 1%nat).
  { induction (columns df) as [|x l IH]; simpl in *; [contradiction|].
    inversion Hnd as [|? ? Hx Hnd']; subst.
    destruct Hin as [->|Hin].
    - rewrite label_eqb_refl. simpl. f_equal.
      rewrite filter_none; [reflexivity|].
      intros y Hy. destruct (label_eqb (fst y) (fst c)) eqn:E; [|reflexivity].
      exfalso. apply Hx. rewrite <- (label_eqb_sound _ _ E). now apply in_map.
    - destruct (label_eqb (fst x) (fst c)) eqn:E; [|now apply IH].
      exfalso. apply Hx. rewrite (label_eqb_sound _ _ E). now apply in_map. }
  now rewrite H1.
Qed.

(** On a numeric dataset and a scalar number, a comparison of the
    package that [pd.Series] has tabulates the comparison of each cell
    with the number. *)
Lemma rowwise_tabulates df q comp (comp_func : value -> value -> res bool)
    (cmpv : value -> value -> bool) :
  numeric_frame df ->
  existsb (String.eqb comp) RowWise.valid = true ->
  RowWise.getattr_Series comp = Ok comp_func ->
  (forall a, number_cell a -> comp_func a (VNum q) = Ok (cmpv a (VNum q))) ->
  RowWise._compare df (TScalar (VNum q)) comp
  = Ok (tabulate (fun s i => cmpv (cell s i) (VNum q)) df).
Proof.
  intros Hnf Hv Hg Hcmp.
  pose proof (numeric_row_dtype df Hnf) as Hrd.
  destruct Hnf as (Hwf & Hnd & Hn & Hc & Hf).
  unfold RowWise._compare. rewrite Hv, Hg. cbn [negb bind].
  unfold RowWise.apply_rows.
  destruct (nrows df) as [|n] eqn:En; [congruence|].
  destruct (columns df) as [|c0 cs] eqn:Ec; [congruence|].
  rewrite <- Ec in *.
  assert (Hrow : forall i, (i < S n)%nat ->
    RowWise._compare_series (RowWise.row df i) (TScalar (VNum q)) comp_func
    = Ok (RowWise.mkLSeries bool_
            (map (fun c => (fst c, VBool (cmpv (cell (snd c) i) (VNum q))))
                 (columns df)))).
  { intros i Hi. unfold RowWise._compare_series.
    cbn [RowWise.ls_dtype RowWise.row RowWise.ls_items].
    rewrite Hrd. cbn [astype bind].
    unfold RowWise.flex_series. rewrite !length_map, Nat.eqb_refl.
    rewrite EqFacts.same_labels, !map_map. cbn [fst].
    replace (forallb _ (combine (map _ (columns df)) (map _ (columns df))))
      with true.
    2:{ symmetry. clear. induction (columns df) as [|c l IH]; simpl;
          [reflexivity | now rewrite label_eqb_refl, IH]. }
    cbn [andb].
    assert (Hcells : Forall (fun c => number_cell (cell (snd c) i)) (columns df)).
    { unfold wf_frame in Hwf. rewrite Forall_forall in *. intros c Hin.
      destruct (Hf c Hin) as [_ Hnum]. rewrite Forall_forall in Hnum.
      apply Hnum. unfold cell. apply nth_In. rewrite (Hwf c Hin). lia. }
    clear - Hcells Hcmp.
    induction (columns df) as [|c l IH]; simpl; [reflexivity|].
    inversion Hcells; subst. rewrite Hcmp by assumption. simpl.
    specialize (IH H2).
    destruct (mapM _ (combine _ _)) as [items|]; simpl in *;
      inversion IH; subst; reflexivity. }
  rewrite (mapM_ok _ (fun i =>
             RowWise.mkLSeries bool_
               (map (fun c => (fst c, VBool (cmpv (cell (snd c) i) (VNum q))))
                    (columns df)))).
  2:{ intros i Hi. apply in_seq in Hi. apply Hrow. lia. }
  cbn [bind].
  set (results := map _ (seq 0 (S n))).
  assert (Hhead : match results with
                  | [] => []
                  | r :: _ => map fst (RowWise.ls_items r)
                  end = map fst (columns df)).
  { unfold results. cbn [seq map RowWise.ls_items].
    rewrite map_map. reflexivity. }
  rewrite Hhead. unfold tabulate. rewrite En. do 2 f_equal.
  rewrite map_map. apply map_ext_in. intros c Hin. cbn [fst]. do 2 f_equal.
  unfold results. rewrite map_map. apply map_ext. intros i.
  cbn [RowWise.ls_items].
  apply (lookup_distinct (fun c => VBool (cmpv (cell (snd c) i) (VNum q)))
                         fst (columns df) c Hnd Hin).
Qed.

Lemma legacy_eq_tabulates df q :
  numeric_frame df ->
  Legacy.EqComparator df (TScalar (VNum q))
  = Ok (tabulate (fun s i => value_eq (cell s i) (VNum q)) df).
Proof.
  intros (Hwf & Hnd & Hn & Hc & Hf). unfold Legacy.EqComparator.
  rewrite (mapM_ok _ (fun c =>
             (fst c, mkSeries bool_
                       (map (fun i => VBool (value_eq (cell (snd c) i) (VNum q)))
                            (seq 0 (nrows df)))))).
  - cbn [bind]. unfold tabulate.
    destruct (columns df) as [|c cs] eqn:Ec; [congruence|]. reflexivity.
  - intros c Hin. rewrite (column_dtype_distinct df c Hnd Hin). cbn [bind].
    rewrite Forall_forall in Hf. destruct (Hf c Hin) as [-> _].
    unfold series_astype. cbn [as_series s_values].
    rewrite mapM_astype_repeat. cbn [bind].
    unfold Legacy.series_eq. cbn [s_values].
    rewrite repeat_length, Nat.eqb_refl. cbn [bind]. do 3 f_equal.
    apply map_ext_in. intros i Hi. apply in_seq in Hi.
    now rewrite cell_repeat by lia.
Qed.

Lemma legacy_compare_tabulates op df q :
  numeric_frame df ->
  Legacy.compare_numbers op df (TScalar (VNum q))
  = Ok (tabulate (fun s i => match cell s i with
                             | VNum x => op x q
                             | _ => false
                             end) df).
Proof.
  intros Hnf. unfold Legacy.compare_numbers, Legacy._check_dtypes.
  rewrite (numeric_frame_guard df Hnf). cbn [bind].
  unfold series_astype. cbn [as_series s_values].
  rewrite mapM_astype_repeat. cbn [bind].
  unfold Legacy.flex_compare, tabulate. cbn [s_values].
  rewrite repeat_length, Nat.max_id. do 2 f_equal.
  apply map_ext. intros c. do 2 f_equal.
  apply map_ext_in. intros i Hi. apply in_seq in Hi.
  rewrite cell_repeat by lia. destruct (cell (snd c) i); reflexivity.
Qed.

(** On a numeric dataset and a scalar number, [==], [!=], [>] and [<] of
    the package return what those of the flat module return. *)
Lemma families_agree_on_numbers df q :
  numeric_frame df ->
  let target := TScalar (VNum q) in
  RowWise.EqComparator df target = Legacy.EqComparator df target /\
  RowWise.UnEqComparator df target = Legacy.UnEqComparator df target /\
  RowWise.GtComparator df target = Legacy.GtComparator df target /\
  RowWise.LtComparator df target = Legacy.LtComparator df target.
Proof.
  intros Hnf target. unfold target.
  assert (Heq : RowWise.EqComparator df (TScalar (VNum q))
                = Legacy.EqComparator df (TScalar (VNum q))).
  { rewrite legacy_eq_tabulates by assumption.
    apply (rowwise_tabulates df q "eq" (fun a b => Ok (value_eq a b)) value_eq);
      try reflexivity; assumption. }
  split; [exact Heq|]. split; [|split].
    unfold Legacy.UnEqComparator. rewrite <- Heq.
    unfold RowWise.EqComparator, RowWise.UnEqComparator.
    rewrite (rowwise_tabulates df q "eq" (fun a b => Ok (value_eq a b)) value_eq);
      try reflexivity; try assumption.
    rewrite (rowwise_tabulates df q "ne" (fun a b => Ok (value_ne a b)) value_ne);
      try reflexivity; try assumption.
    cbn [bind]. unfold df_invert, map_cells, tabulate. cbn [nrows columns].
    do 2 f_equal. rewrite map_map. apply map_ext. intros c. cbn [fst snd s_values].
    do 2 f_equal. rewrite map_map. apply map_ext. intros i.
    now rewrite value_ne_negb.
  - unfold Legacy.GtComparator. rewrite legacy_compare_tabulates by assumption.
    unfold RowWise.GtComparator.
    rewrite (rowwise_tabulates df q "gt" value_gt
               (fun a b => match a, b with
                           | VNum x, VNum y => Qlt_bool y x
                           | _, _ => false
                           end)); try reflexivity; try assumption.
    intros [x| | |] Ha; try contradiction; reflexivity.
  - unfold Legacy.LtComparator. rewrite legacy_compare_tabulates by assumption.
    unfold RowWise.LtComparator.
    rewrite (rowwise_tabulates df q "lt" value_lt
               (fun a b => match a, b with
                           | VNum x, VNum y => Qlt_bool x y
                           | _, _ => false
                           end)); try reflexivity; try assumption.
    intros [x| | |] Ha; try contradiction; reflexivity.
Qed.

(** C5, at the failing input.  On the one-column dataset [a = 1, 2] and
    the target [1], [>=] of the flat module returns the matrix
    [true, true] while [>=] of the package raises an [AttributeError]:
    [CompareMixin._compare] looks up [pd.Series.gte], which a Series does
    not have.  The same holds of [<=] ([lte]), and on every dataset and
    target. *)
Theorem C5_gteq_lteq_diverge :
  Legacy.GtEqComparator df_a (TScalar (VNum 1))
    = Ok (mkFrame 2 [(LStr "a", bool_series [true; true])])
  /\ Legacy.LtEqComparator df_a (TScalar (VNum 1))
    = Ok (mkFrame 2 [(LStr "a", bool_series [true; false])])
  /\ (forall df target,
        RowWise.GtEqComparator df target
        = Raise (Raised AttributeError
                   "type object 'Series' has no attribute 'gte'"))
  /\ (forall df target,
        RowWise.LtEqComparator df target
        = Raise (Raised AttributeError
                   "type object 'Series' has no attribute 'lte'")).
Proof. repeat split. Qed.

(** *** The dtype guard *)

Lemma is_prefix_app_l (s a b : string) :
  Parser.is_prefix s a = true -> Parser.is_prefix s (a ++ b)%string = true.
Proof.
  revert a. induction s as [|c s IH]; intros a H; [reflexivity|].
  destruct a as [|d a]; simpl in *; [discriminate|].
  apply andb_prop in H. destruct H as [H1 H2].
  now rewrite H1, (IH a H2).
Qed.

Lemma occurs_app_l (s a b : string) :
  occurs s a = true -> occurs s (a ++ b)%string = true.
Proof.
  induction a as [|c a IH]; simpl; intros H.
  - rewrite orb_false_r in H. destruct s; [|discriminate].
    destruct b; reflexivity.
  - apply orb_prop in H. destruct H as [H|H].
    + change (String c (a ++ b)%string) with (String c a ++ b)%string.
      now rewrite (is_prefix_app_l s (String c a) b H).
    + rewrite (IH H). apply orb_true_r.
Qed.

Lemma occurs_app_r (s a b : string) :
  occurs s b = true -> occurs s (a ++ b)%string = true.
Proof.
  intros H. induction a as [|c a IH]; simpl; [exact H|].
  rewrite IH. apply orb_true_r.
Qed.

Lemma occurs_refl (s : string) : occurs s s = true.
Proof.
  pose proof (is_prefix_app s "") as H.
  assert (E : (s ++ "")%string = s)
    by (clear H; induction s as [|c s IH]; simpl; [|rewrite IH]; reflexivity).
  rewrite E in H. destruct s; simpl in *; [reflexivity | now rewrite H].
Qed.

Lemma occurs_concat (sep s : string) (names : list string) :
  In s names -> occurs s (String.concat sep names) = true.
Proof.
  induction names as [|x names IH]; simpl; intros H; [contradiction|].
  destruct names as [|y names].
  - destruct H as [->|[]]. apply occurs_refl.
  - destruct H as [->|H].
    + apply occurs_app_l, occurs_refl.
    + apply occurs_app_r, occurs_app_r. now apply IH.
Qed.

(** When a column is of another dtype, the guard raises a [TypeError]
    whose message names every such column. *)
Lemma check_dtypes_refuses (df : DataFrame) (dtype : string) :
  Base.invalid_columns dtype df <> [] ->
  (forall l, In l (Base.invalid_columns dtype df) -> exists s, l = LStr s) ->
  exists msg,
    Base._check_dtypes df dtype = Raise (Raised TypeError msg) /\
    forall s, In (LStr s) (Base.invalid_columns dtype df) ->
              occurs s msg = true.
Proof.
  intros Hne Hstr. unfold Base._check_dtypes.
  destruct (Base.invalid_columns dtype df) as [|l0 inv] eqn:E; [congruence|].
  clear Hne. remember (l0 :: inv) as invalid. clear Heqinvalid E.
  assert (Hn : exists names,
    mapM (fun l => match l with
                   | LStr s => Ok s
                   | LInt _ => Raise (LibraryError TypeError)
                   end) invalid = Ok names /\
    forall s, In (LStr s) invalid -> In s names).
  { induction invalid as [|l invalid IH].
    - exists []. split; [reflexivity | intros s []].
    - destruct (Hstr l (or_introl eq_refl)) as [s0 ->].
      destruct IH as [names [Hm Hin]]; [intros; apply Hstr; now right|].
      exists (s0 :: names). simpl. rewrite Hm. split; [reflexivity|].
      intros s [H|H]; [left; now inversion H | right; now apply Hin]. }
  destruct Hn as [names [Hm Hin]]. rewrite Hm. cbn [bind].
  eexists. split; [reflexivity|].
  intros s Hs. apply occurs_app_r, occurs_app_r, occurs_app_r, occurs_app_l.
  apply occurs_concat. now apply Hin.
Qed.

(** The comparators that call the guard first raise its error whatever
    the target: [>], [>=], [<], [<=] of the flat module, and [Between]
    and [RanksIn] of both. *)
Lemma guarded_comparators_refuse (df : DataFrame) (target : target) :
  Base.invalid_columns "number" df <> [] ->
  (forall l, In l (Base.invalid_columns "number" df) -> exists s, l = LStr s) ->
  exists msg,
    (forall s, In (LStr s) (Base.invalid_columns "number" df) ->
               occurs s msg = true) /\
    Forall (fun cmp => cmp df target = Raise (Raised TypeError msg))
      [ Legacy.GtComparator; Legacy.GtEqComparator; Legacy.LtComparator;
        Legacy.LtEqComparator; Legacy.BetweenComparator;
        Legacy.RankComparator; RowWise.BetweenComparator;
        RowWise.RankComparator ].
Proof.
  intros Hne Hstr.
  destruct (check_dtypes_refuses df "number" Hne Hstr) as [msg [Hm Ho]].
  exists msg. split; [exact Ho|].
  repeat constructor;
    unfold Legacy.GtComparator, Legacy.GtEqComparator, Legacy.LtComparator,
      Legacy.LtEqComparator, Legacy.compare_numbers, Legacy._check_dtypes,
      Legacy.BetweenComparator, Legacy.RankComparator,
      RowWise.BetweenComparator, RowWise.RankComparator,
      Base.BetweenComparator, Base.RankComparator;
    now rewrite Hm.
Qed.

(** C2, at the failing inputs.  The column [name] holds text.  [>] of
    the flat module refuses it with the [TypeError] of the dtype guard,
    which names the column; [>] of the package has no guard and returns
    a boolean matrix.  [IsOutlierBy] has no guard either: with a target
    it cannot read it raises the [ValueError] of the target where
    [RanksIn], which has the guard, raises the [TypeError] of the
    column. *)
Theorem C2_unguarded_comparators :
  Base.invalid_columns "number" df_name = [LStr "name"]
  /\ Legacy.GtComparator df_name (TScalar (VStr "a"))
     = Raise (Raised TypeError
                "Columns did not match data type 'number': name.")
  /\ RowWise.GtComparator df_name (TScalar (VStr "a"))
     = Ok (mkFrame 1 [(LStr "name", bool_series [true])])
  /\ Legacy.RankComparator df_name (TScalar (VStr "abc"))
     = Raise (Raised TypeError
                "Columns did not match data type 'number': name.")
  /\ (forall pd,
        Legacy.OutlierComparator pd df_name (TScalar (VStr "abc"))
        = Raise (Raised ValueError
                   "OutlierComparator: Invalid target 'abc', use (+|-)<whisker> <IQR|SD|MAD>."))
  /\ (forall pd,
        RowWise.OutlierComparator pd df_name (TScalar (VStr "abc"))
        = Legacy.OutlierComparator pd df_name (TScalar (VStr "abc"))).
Proof. repeat split. Qed.

(** *** The shape of the outcome *)

Lemma shape_apply_columns f df out :
  Base.apply_columns f df = Ok out -> shape out = shape df.
Proof.
  unfold Base.apply_columns. intros H.
  destruct (nrows df) as [|n] eqn:En.
  { inversion H; subst. reflexivity. }
  destruct (columns df) as [|c cs] eqn:Ec.
  { inversion H; subst. reflexivity. }
  destruct (mapM _ (c :: cs)) as [cols|] eqn:Em; simpl in H; [|discriminate].
  inversion H; subst. unfold shape. simpl.
  rewrite En, Ec. f_equal. now apply mapM_length in Em.
Qed.

(** [Missing], [NotMissing], [In], [Between], [RanksIn], [Contains] and
    [IsOutlierBy] keep the shape of the dataset whenever they return. *)
Lemma shape_kept_by_the_shared (pd : Pandas) (astype_str : value -> string)
    (re_search : string -> string -> res bool) (df : DataFrame)
    (target : target) :
  Forall (fun cmp => forall out, cmp df target = Ok out -> shape out = shape df)
    [ Base.NullComparator; Base.NotNullComparator;
      Base.InComparator astype_str; Base.BetweenComparator;
      Base.RankComparator; Base.ContainsComparator re_search;
      Base.OutlierComparator pd ].
Proof.
  repeat constructor; intros out H.
  - inversion H. apply shape_map_cells.
  - inversion H. unfold df_invert, df_isna. now rewrite !shape_map_cells.
  - unfold Base.InComparator in H.
    destruct target as [[]|]; inversion H. apply shape_map_cells.
  - unfold Base.BetweenComparator in H.
    destruct (Base._check_dtypes df "number"); simpl in H; [|discriminate].
    destruct target as [[]|]; try discriminate.
    destruct (map parse_float (Base.split_on ":" s)) as [|[low|] [|[high|] [|]]];
      inversion H. apply shape_map_cells.
  - unfold Base.RankComparator in H.
    destruct (Base._check_dtypes df "number"); simpl in H; [|discriminate].
    destruct target as [[]|]; try discriminate.
    destruct (Base.match_rank s) as [[[from digits] pct]|]; [|discriminate].
    destruct (if pct then _ else _); simpl in H; inversion H.
    unfold shape. simpl. now rewrite length_map.
  - unfold Base.ContainsComparator in H.
    destruct (Base._check_dtypes df "object"); simpl in H; [|discriminate].
    destruct target as [[]|]; try discriminate.
    now apply shape_apply_columns in H.
  - unfold Base.OutlierComparator in H.
    destruct target as [[]|]; try discriminate.
    destruct (Base.match_outlier s) as [[[side whiskers] method]|];
      [|discriminate].
    destruct (parse_float whiskers); [|discriminate].
    now apply shape_apply_columns in H.
Qed.

(** [>], [>=], [<], [<=] of the flat module keep the shape when the
    target has no more rows than the dataset. *)
Lemma shape_kept_by_legacy_compare op df target out :
  Legacy.compare_numbers op df target = Ok out ->
  (List.length (s_values (as_series df target)) <= nrows df)%nat ->
  shape out = shape df.
Proof.
  unfold Legacy.compare_numbers. intros H Hl.
  destruct (Legacy._check_dtypes df "number"); simpl in H; [|discriminate].
  unfold series_astype in H.
  destruct (mapM (astype float64) (s_values (as_series df target))) as [vs|]
    eqn:Em; simpl in H; [|discriminate].
  inversion H; subst. apply mapM_length in Em.
  unfold shape, Legacy.flex_compare. simpl.
  rewrite length_map, Em. f_equal. lia.
Qed.

(** [==] and [!=] of the flat module keep the shape of a dataset that
    has a column. *)
Lemma shape_kept_by_legacy_eq df target :
  columns df <> [] ->
  (forall out, Legacy.EqComparator df target = Ok out -> shape out = shape df)
  /\ (forall out, Legacy.UnEqComparator df target = Ok out ->
                  shape out = shape df).
Proof.
  intros Hc.
  assert (He : forall out, Legacy.EqComparator df target = Ok out ->
                           shape out = shape df).
  { intros out H. unfold Legacy.EqComparator in H.
    destruct (mapM _ (columns df)) as [cols|] eqn:Em; simpl in H;
      [|discriminate].
    apply mapM_length in Em.
    destruct cols as [|c cols].
    - destruct (columns df); [congruence | discriminate].
    - inversion H; subst. unfold shape. simpl. simpl in Em. now rewrite Em. }
  split; [exact He|].
  intros out H. unfold Legacy.UnEqComparator in H.
  destruct (Legacy.EqComparator df target) as [e|] eqn:E; simpl in H;
    [|discriminate].
  inversion H; subst. unfold df_invert. rewrite shape_map_cells. now apply He.
Qed.

Lemma flex_labels_same l : EqTerms.flex_labels l l = l.
Proof.
  unfold EqTerms.flex_labels. rewrite Nat.eqb_refl. simpl.
  replace (forallb (fun p => label_eqb (fst p) (snd p)) (combine l l))
    with true; [reflexivity|].
  symmetry. induction l as [|x l IH]; simpl; [reflexivity|].
  now rewrite label_eqb_refl, IH.
Qed.

(** The comparisons of the package return as many rows as the dataset
    has, under the labels of the columns aligned with those of the
    target: they keep the shape for a scalar target, and add a column for
    each position of a Series target that is no column label. *)
Lemma shape_of_rowwise_compare df target comp out :
  RowWise._compare df target comp = Ok out ->
  nrows df <> 0%nat -> columns df <> [] ->
  shape out
  = (nrows df,
     List.length (EqTerms.flex_labels (labels df)
                                      (EqTerms.target_labels df target))).
Proof.
  unfold RowWise._compare. intros H Hn Hc.
  destruct (negb _); [discriminate|].
  destruct (RowWise.getattr_Series comp) as [comp_func|]; simpl in H;
    [|discriminate].
  unfold RowWise.apply_rows in H.
  destruct (nrows df) as [|n] eqn:En; [congruence|].
  destruct (columns df) as [|c cs] eqn:Ec; [congruence|].
  destruct (mapM _ (seq 0 (S n))) as [results|] eqn:Er; simpl in H;
    [|discriminate].
  destruct (mapM_nth_error _ _ _ 0%nat _ Er eq_refl) as [r0 [Hr0 Hf]].
  destruct results as [|r results]; [discriminate|].
  simpl in Hr0. inversion Hr0; subst r0.
  destruct (EqFacts.compare_series_labels _ _ _ _ _ Hf) as [Hl _].
  inversion H; subst. unfold shape. simpl.
  now rewrite length_map, Hl.
Qed.

Lemma shape_kept_by_rowwise_scalar df v comp out :
  RowWise._compare df (TScalar v) comp = Ok out -> shape out = shape df.
Proof.
  intros H.
  destruct (Nat.eq_dec (nrows df) 0) as [Hn|Hn];
    [|destruct (columns df) as [|c cs] eqn:Ec].
  - unfold RowWise._compare in H. destruct (negb _); [discriminate|].
    destruct (RowWise.getattr_Series comp); simpl in H; [|discriminate].
    unfold RowWise.apply_rows in H. rewrite Hn in H. now inversion H.
  - unfold RowWise._compare in H. destruct (negb _); [discriminate|].
    destruct (RowWise.getattr_Series comp); simpl in H; [|discriminate].
    unfold RowWise.apply_rows in H. rewrite Ec in H.
    destruct (nrows df); now inversion H.
  - rewrite (shape_of_rowwise_compare _ _ _ _ H Hn) by congruence.
    simpl. rewrite flex_labels_same. unfold shape, labels.
    now rewrite length_map.
Qed.

(** C9, at the failing inputs.  With a per-row Series as target, [==] of
    the package compares each row, labelled by the columns, with the
    Series, labelled by the rows: on the dataset [a = 1, 2] of shape
    (2, 1) the outcome has the three columns [a], [0], [1].  [==] of the
    flat module starts from [pd.DataFrame()] and adds a column per
    column: on a dataset of two rows and no column the outcome has no
    row. *)
Theorem C9_shape_not_kept :
  shape df_a = (2, 1)%nat
  /\ (exists out,
        RowWise.EqComparator df_a (TSeries (mkSeries float64 [VNum 1; VNum 2]))
          = Ok out
        /\ shape out = (2, 3)%nat
        /\ labels out = [LStr "a"; LInt 0; LInt 1])
  /\ Legacy.EqComparator df_a (TSeries (mkSeries float64 [VNum 1; VNum 2]))
     = Ok (mkFrame 2 [(LStr "a", bool_series [true; true])])
  /\ shape (mkFrame 2 []) = (2, 0)%nat
  /\ (exists out,
        Legacy.EqComparator (mkFrame 2 []) (TScalar (VNum 1)) = Ok out
        /\ shape out = (0, 0)%nat).
Proof.
  split; [reflexivity|]. split; [|split; [reflexivity|split; [reflexivity|]]].
  - eexists. split; [reflexivity|]. split; reflexivity.
  - eexists. split; reflexivity.
Qed.

(* ------------------------------------------------------------------ *)
(** ** IsOutlierBy and RanksIn *)

Lemma shape_remake d g df : shape (remake d g df) = shape df.
Proof. unfold shape, remake. simpl. now rewrite length_map. Qed.

Lemma labels_remake d g df : labels (remake d g df) = labels df.
Proof. unfold labels, remake. simpl. now rewrite map_map. Qed.

Lemma at_remake d g df j i c :
  nth_error (columns df) j = Some c ->
  (i < List.length (s_values (snd c)))%nat ->
  at_ (remake d g df) j i = g (snd c) (cell (snd c) i).
Proof.
  intros Hj Hi. unfold at_, remake. simpl.
  rewrite nth_error_map, Hj. simpl. unfold cell. simpl.
  rewrite nth_indep with (d' := g (snd c) VNaN) by now rewrite length_map.
  apply map_nth.
Qed.

(** Rounding does not tell equal rationals apart, and leaves a float as
    it is. *)
Lemma round64_eq (q q' : Q) : (q == q')%Q -> round64 q = round64 q'.
Proof.
  intros H. unfold round64. now rewrite (Qred_complete q q' H).
Qed.

Lemma round64_float (q : Q) :
  is_float q -> exists r, round64 q = FNum r /\ (r == q)%Q.
Proof.
  intros H. exists (Qred q). split; [exact H | apply Qred_correct].
Qed.

(** The two limits, when no operation rounds. *)
Lemma exact_limits (w a b : Q) :
  is_float (b - a) -> is_float (w * (b - a)) ->
  is_float (a - w * (b - a)) -> is_float (b + w * (b - a)) ->
  exists lo hi,
    fsub (FNum a) (fmul (FNum w) (fsub (FNum b) (FNum a))) = FNum lo /\
    fadd (FNum b) (fmul (FNum w) (fsub (FNum b) (FNum a))) = FNum hi /\
    (lo == a - w * (b - a))%Q /\ (hi == b + w * (b - a))%Q.
Proof.
  intros Hd Hp Hl Hh.
  destruct (round64_float _ Hd) as [d [Ed Rd]].
  destruct (round64_float _ Hp) as [p [Ep Rp]].
  destruct (round64_float _ Hl) as [lo [El Rl]].
  destruct (round64_float _ Hh) as [hi [Eh Rh]].
  exists lo, hi.
  assert (E1 : fsub (FNum b) (FNum a) = FNum d) by exact Ed.
  assert (E2 : fmul (FNum w) (FNum d) = FNum p).
  { cbn [fmul]. rewrite <- Ep. apply round64_eq. now rewrite Rd. }
  rewrite E1, E2. repeat split; try assumption.
  - cbn [fsub fneg fadd]. rewrite <- El. apply round64_eq.
    rewrite Rp. reflexivity.
  - cbn [fadd]. rewrite <- Eh. apply round64_eq. rewrite Rp. reflexivity.
Qed.

Lemma outlier_iqr_remake pd df :
  nrows df <> 0%nat -> columns df <> [] ->
  (forall c, In c (columns df) -> s_dtype (snd c) = float64) ->
  Legacy.OutlierComparator pd df (TScalar (VStr "1.5 IQR"))
  = Ok (remake bool_ (iqr_flag pd (FNum (3 # 2))) df).
Proof.
  intros Hn Hc Hd.
  unfold Legacy.OutlierComparator, Base.OutlierComparator.
  replace (Base.match_outlier "1.5 IQR") with (Some (@None string, "1.5", "iqr"))
    by reflexivity.
  replace (parse_float "1.5") with (Some (FNum (3 # 2)))
    by (vm_compute; reflexivity).
  cbn [Base.option_eqb String.eqb Ascii.eqb Bool.eqb].
  unfold Base.apply_columns.
  destruct (nrows df) as [|n] eqn:En; [congruence|].
  destruct (columns df) as [|c0 cs] eqn:Ec; [congruence|].
  rewrite <- Ec in *.
  rewrite mapM_ok with
    (g := fun c => (fst c, mkSeries bool_
                             (map (iqr_flag pd (FNum (3 # 2)) (snd c))
                                  (s_values (snd c))))).
  - simpl. unfold remake. now rewrite En.
  - intros c Hin. unfold Base._outlier_iqr, Base.numeric_only.
    rewrite (Hd c Hin). reflexivity.
Qed.

(** C7 (as amended).  [IsOutlierBy] with the target [1.5 IQR] on the one
    numeric column 1, 2, 3, 4, 5, 100, whose quartiles are 2.25 and 4.75,
    is true on the row of 100 and false on the other rows.  In general,
    on a dataset of numeric columns, it keeps the shape and the labels
    and a cell is true exactly when it holds a number [x] at or below the
    lower limit or at or above the upper limit, the limits being
    [q1 - 1.5 (q3 - q1)] and [q3 + 1.5 (q3 - q1)] in the arithmetic of
    floats, each of the three operations rounded, for [q1] and [q3] the
    first and third quartiles pandas finds in the column.  Where no
    operation rounds, as on the column above, the limits are the exact
    ones and the condition is the one of the claim. *)
Theorem C7_outlier_iqr (pd : Pandas) :
  (pd_quantile pd (1 # 4) (floats s6) = FNum (9 # 4) ->
   pd_quantile pd (3 # 4) (floats s6) = FNum (19 # 4) ->
   Legacy.OutlierComparator pd df6 (TScalar (VStr "1.5 IQR"))
   = Ok (mkFrame 6 [(LStr "v",
                     bool_series [false; false; false; false; false; true])]))
  /\
  forall df,
    nrows df <> 0%nat -> columns df <> [] ->
    (forall c, In c (columns df) -> s_dtype (snd c) = float64) ->
    exists out,
      Legacy.OutlierComparator pd df (TScalar (VStr "1.5 IQR")) = Ok out /\
      shape out = shape df /\ labels out = labels df /\
      forall j i c,
        nth_error (columns df) j = Some c ->
        (i < List.length (s_values (snd c)))%nat ->
        let q1 := pd_quantile pd (1 # 4) (floats (snd c)) in
        let q3 := pd_quantile pd (3 # 4) (floats (snd c)) in
        let w := FNum (3 # 2) in
        exists b,
          at_ out j i = VBool b /\
          (b = true <->
           exists x,
             cell (snd c) i = VNum x /\
             (fle (FNum x) (fsub q1 (fmul w (fsub q3 q1))) = true \/
              fle (fadd q3 (fmul w (fsub q3 q1))) (FNum x) = true)) /\
          (forall l h : Q,
             q1 = FNum l -> q3 = FNum h ->
             is_float (h - l) -> is_float ((3 # 2) * (h - l)) ->
             is_float (l - (3 # 2) * (h - l)) ->
             is_float (h + (3 # 2) * (h - l)) ->
             (b = true <->
              exists x,
                cell (snd c) i = VNum x /\
                (x <= l - (3 # 2) * (h - l) \/
                 h + (3 # 2) * (h - l) <= x)%Q)).
Proof.
  split.
  - intros H1 H3.
    rewrite outlier_iqr_remake;
      [|simpl; discriminate | simpl; discriminate
       |simpl; intros c [<-|[]]; reflexivity].
    unfold remake, iqr_flag. cbn [columns df6 map fst snd nrows].
    rewrite H1, H3. vm_compute. reflexivity.
  - intros df Hn Hc Hd. eexists. split; [now apply outlier_iqr_remake|].
    split; [apply shape_remake|]. split; [apply labels_remake|].
    intros j i c Hj Hi q1 q3 w. rewrite (at_remake _ _ _ _ _ _ Hj Hi).
    unfold iqr_flag. fold q1 q3. cbn [Base.limit_low Base.limit_high]. fold w.
    eexists. split; [reflexivity|].
    assert (Hiff : forall lo hi : pyfloat,
              match cell (snd c) i with
              | VNum x => fle (FNum x) lo || fle hi (FNum x)
              | _ => false
              end = true <->
              exists x, cell (snd c) i = VNum x /\
                        (fle (FNum x) lo = true \/ fle hi (FNum x) = true)).
    { intros lo hi. destruct (cell (snd c) i) as [x| | |];
        try (split; [discriminate | intros [x' [E' _]]; discriminate]).
      rewrite orb_true_iff. split.
      - intros H. now exists x.
      - intros [x' [E' H]]. now inversion E'; subst. }
    split; [apply Hiff|].
    intros l h E1 E3 Hfd Hfp Hfl Hfh. rewrite Hiff, E1, E3. unfold w.
    destruct (exact_limits (3 # 2) l h Hfd Hfp Hfl Hfh)
      as [lo [hi [El [Eh [Rl Rh]]]]].
    rewrite El, Eh. cbn [fle]. split.
    + intros [x [Ex H]]. exists x. split; [exact Ex|].
      rewrite !Qle_bool_iff, Rl, Rh in H. exact H.
    + intros [x [Ex H]]. exists x. split; [exact Ex|].
      rewrite !Qle_bool_iff, Rl, Rh. exact H.
Qed.

Lemma C7_outlier_iqr_witness :
  exists out,
    Legacy.OutlierComparator (with_quartiles (FNum (9 # 4)) (FNum (19 # 4)))
      df6 (TScalar (VStr "1.5 IQR")) = Ok out /\
    shape out = (6, 1)%nat /\
    at_ out 0 5 = VBool true /\ at_ out 0 4 = VBool false.
Proof.
  pose proof (proj1 (C7_outlier_iqr
                       (with_quartiles (FNum (9 # 4)) (FNum (19 # 4))))
                eq_refl eq_refl) as H.
  eexists. split; [exact H|]. repeat split.
Defined.

(** C7, the condition of the claim fails at a limit.  In the column
    -0.5, 0.1, 0.3, 0.5, 0.6 the quartiles are 0.1 and 0.5.  The code
    finds the spread 0.4, the product [1.5 * 0.4] rounded up to
    0.6000000000000001 and the lower limit -0.5000000000000001, so the
    cell -0.5 is not flagged, and no cell is -- while
    [-0.5 <= q1 - 1.5 (q3 - q1)] holds, for the quartiles read as the
    floats they are and as the decimals 0.1 and 0.5 alike, so that by the
    condition of the claim the cell is an outlier. *)
Lemma C7_limit_is_rounded :
  let q1 := float_of (1 # 10) in
  let q3 := (1 # 2)%Q in
  let df := mkFrame 5 [(LStr "v",
                        mkSeries float64
                          (map VNum [- (1 # 2); q1; float_of (3 # 10); q3;
                                     float_of (6 # 10)]%Q))] in
  Legacy.OutlierComparator (with_quartiles (FNum q1) (FNum q3)) df
    (TScalar (VStr "1.5 IQR"))
  = Ok (mkFrame 5 [(LStr "v",
                    bool_series [false; false; false; false; false])])
  /\ (- (1 # 2) <= q1 - (3 # 2) * (q3 - q1))%Q
  /\ (- (1 # 2) <= (1 # 10) - (3 # 2) * ((1 # 2) - (1 # 10)))%Q.
Proof.
  split; [vm_compute; reflexivity|].
  split; vm_compute; discriminate.
Qed.

(** *** The target of RanksIn *)






Example ranks_in_top_10_percent :
  RowWise.RankComparator df10 (TScalar (VStr "top 10%"))
  = Ok (mkFrame 10 [(LStr "v",
          bool_series [false; true; false; false; false;
                       false; false; false; false; false])])
  /\ rank_of false true (mkSeries float64
        (map (fun z => VNum (inject_Z z)) [3; 10; 1; 7; 5; 2; 9; 4; 8; 6]%Z))
        (VNum 10) = Some (1 # 10).
Proof. split; reflexivity. Qed.


(* ================================================================== *)
(** * Further properties of the engine *)

(** ** The parser *)

Module ParserMore.
Import Parser ParserTerms ChainTerms.

(** Every outcome of the loop went through [result.columns = [id]]. *)
Lemma loop_one_column ev id df : forall fuel result toks r rest,
  loop fuel ev id df result toks = Some (Ok (r, rest)) ->
  exists s, columns r = [(LStr id, s)].
Proof.
  assert (Hfin : forall result r,
            finish id result = Ok r -> exists s, columns r = [(LStr id, s)]).
  { intros [res|] r H; simpl in H; [|discriminate].
    unfold set_columns in H.
    destruct (columns res) as [|[l s] [|c cs]]; try discriminate.
    inversion H; subst. simpl. now exists s. }
  induction fuel as [|fuel IH]; intros result toks r rest H; [discriminate|].
  simpl in H. destruct toks as [|tok toks'].
  - destruct (finish id result) eqn:E; simpl in H; [|discriminate].
    inversion H; subst. now apply (Hfin result).
  - assert (Hconn : forall res (f : DataFrame -> list bool),
      match toks' with
      | [] => Some (Raise (Raised StopIteration ""))
      | next_token :: rest' =>
          match
            match type next_token with
            | GROUP_OPEN => loop fuel ev id df None rest'
            | _ => Some (rh <- ev (value next_token) df ;; Ok (rh, rest'))
            end
          with
          | None => None
          | Some (Raise e) => Some (Raise e)
          | Some (Ok (right_hand, rest'')) =>
              loop fuel ev id df
                   (Some (to_frame (f (join res right_hand "_rh")))) rest''
          end
      end = Some (Ok (r, rest)) ->
      exists s, columns r = [(LStr id, s)]).
    { intros res f H1. destruct toks' as [|nt rest']; [discriminate|].
      destruct (match type nt with
                | GROUP_OPEN => loop fuel ev id df None rest'
                | _ => Some (rh <- ev (value nt) df ;; Ok (rh, rest'))
                end) as [[[rh rest'']|e]|]; try discriminate.
      eapply IH; eassumption. }
    destruct (type tok).
    + destruct result as [res|]; [|discriminate]. eapply Hconn; eassumption.
    + destruct result as [res|]; [|discriminate]. eapply Hconn; eassumption.
    + destruct (loop fuel ev id df None toks') as [[[r1 rest1]|e]|];
        try discriminate.
      eapply IH; eassumption.
    + destruct (finish id result) eqn:E; simpl in H; [|discriminate].
      inversion H; subst. now apply (Hfin result).
    + destruct result as [res|]; [discriminate|].
      destruct (ev (value tok) df) as [r0|e]; [|discriminate].
      eapply IH; eassumption.
Qed.

(** The rows of the outcome are those of the operands. *)
Lemma loop_rows ev id df n :
  (forall text r, ev text df = Ok r -> nrows r = n) ->
  forall fuel result toks r rest,
    (forall res, result = Some res -> nrows res = n) ->
    loop fuel ev id df result toks = Some (Ok (r, rest)) ->
    nrows r = n.
Proof.
  intros Hev.
  assert (Hfin : forall result r,
            (forall res, result = Some res -> nrows res = n) ->
            finish id result = Ok r -> nrows r = n).
  { intros [res|] r Hres H; simpl in H; [|discriminate].
    unfold set_columns in H.
    destruct (columns res) as [|[l s] [|c cs]]; try discriminate.
    inversion H; subst. simpl. now apply Hres. }
  induction fuel as [|fuel IH]; intros result toks r rest Hres H;
    [discriminate|].
  simpl in H. destruct toks as [|tok toks'].
  - destruct (finish id result) eqn:E; simpl in H; [|discriminate].
    inversion H; subst. now apply (Hfin result).
  - assert (Hnone : forall res : DataFrame, @None DataFrame = Some res ->
                                            nrows res = n)
      by (intros; discriminate).
    assert (Hconn : forall res (f : DataFrame -> list bool),
      nrows res = n ->
      (forall d, List.length (f d) = nrows d) ->
      match toks' with
      | [] => Some (Raise (Raised StopIteration ""))
      | next_token :: rest' =>
          match
            match type next_token with
            | GROUP_OPEN => loop fuel ev id df None rest'
            | _ => Some (rh <- ev (value next_token) df ;; Ok (rh, rest'))
            end
          with
          | None => None
          | Some (Raise e) => Some (Raise e)
          | Some (Ok (right_hand, rest'')) =>
              loop fuel ev id df
                   (Some (to_frame (f (join res right_hand "_rh")))) rest''
          end
      end = Some (Ok (r, rest)) ->
      nrows r = n).
    { intros res f Hn Hf H1. destruct toks' as [|nt rest']; [discriminate|].
      destruct (match type nt with
                | GROUP_OPEN => loop fuel ev id df None rest'
                | _ => Some (rh <- ev (value nt) df ;; Ok (rh, rest'))
                end) as [[[rh rest'']|e]|]; try discriminate.
      eapply IH; [|eassumption].
      intros res' E. injection E as <-. simpl. rewrite Hf. exact Hn. }
    destruct (type tok).
    + destruct result as [res|]; [|discriminate].
      eapply (Hconn res np_all); [now apply Hres | apply length_np_all | exact H].
    + destruct result as [res|]; [|discriminate].
      eapply (Hconn res np_any); [now apply Hres | apply length_np_any | exact H].
    + destruct (loop fuel ev id df None toks') as [[[r1 rest1]|e]|] eqn:E1;
        try discriminate.
      eapply IH; [|eassumption].
      intros res' E. injection E as <-. eapply IH; [exact Hnone | exact E1].
    + destruct (finish id result) eqn:E; simpl in H; [|discriminate].
      inversion H; subst. now apply (Hfin result).
    + destruct result as [res|]; [discriminate|].
      destruct (ev (value tok) df) as [r0|e] eqn:E0; [|discriminate].
      eapply IH; [|eassumption].
      intros res' E. injection E as <-. eapply Hev; eassumption.
Qed.

(** A rule without groups that evaluates leaves the loop in a state from
    which any continuation of the rule goes on. *)
Lemma loop_prefix ev id df : forall fuel result pre r left,
  group_free pre ->
  loop fuel ev id df result pre = Some (Ok (r, left)) ->
  exists st,
    finish id st = Ok r /\ left = [] /\
    forall suf f2 x,
      loop f2 ev id df st suf = Some x ->
      loop (fuel + f2) ev id df result (pre ++ suf) = Some x.
Proof.
  induction fuel as [|fuel IH]; intros result pre r left Hgf H;
    [discriminate|].
  destruct pre as [|tok pre'].
  - simpl in H. destruct (finish id result) as [r0|] eqn:E; simpl in H;
      [|discriminate].
    inversion H; subst. exists result. split; [exact E|]. split; [reflexivity|].
    intros suf f2 x Hx. simpl app.
    apply ParserFacts.loop_mono with (fuel := f2); [lia | exact Hx].
  - inversion Hgf as [|? ? [Hno Hnc] Hgf']; subst.
    simpl in H. cbn [app Nat.add loop].
    destruct (type tok) eqn:Et; try congruence.
    + destruct result as [res|]; [|discriminate].
      destruct pre' as [|nt pre'']; [discriminate|].
      inversion Hgf' as [|? ? [Hno' Hnc'] Hgf'']; subst.
      cbn [app].
      destruct (type nt) eqn:En; try congruence;
        (destruct (ev (value nt) df) as [rh|e]; simpl in H |- *;
         [|discriminate]; now apply IH).
    + destruct result as [res|]; [|discriminate].
      destruct pre' as [|nt pre'']; [discriminate|].
      inversion Hgf' as [|? ? [Hno' Hnc'] Hgf'']; subst.
      cbn [app].
      destruct (type nt) eqn:En; try congruence;
        (destruct (ev (value nt) df) as [rh|e]; simpl in H |- *;
         [|discriminate]; now apply IH).
    + destruct result as [res|]; [discriminate|].
      destruct (ev (value tok) df) as [r0|e]; [|discriminate].
      now apply IH.
Qed.

(** X1.  [Parser.evaluate] terminates on every rule: once the fuel
    exceeds the number of tokens the loop returns, more fuel changes
    nothing, and a returned tokenizer holds no more tokens than the rule
    had. *)
Theorem X1_evaluate_terminates (ev : Evaluator) id df (toks : Tokenizer) :
  exists x,
    (forall k, evaluate (enough toks + k) ev id df toks = Some x) /\
    forall r left, x = Ok (r, left) ->
                   (List.length left <= List.length toks)%nat.
Proof.
  destruct (ParserFacts.loop_total ev id df (enough toks) None toks)
    as [x [Hx Hb]]; [unfold enough; lia|].
  exists x. split; [|exact Hb].
  intros k. unfold evaluate.
  apply ParserFacts.loop_mono with (fuel := enough toks); [lia | exact Hx].
Qed.

Lemma X1_evaluate_terminates_witness :
  exists x,
    (forall k, evaluate (4 + k) ev0 "v" df0 [tokE "x"; tokAnd; tokE "y"]
               = Some x) /\
    forall r left, x = Ok (r, left) -> (List.length left <= 3)%nat.
Proof.
  exact (X1_evaluate_terminates ev0 "v" df0 [tokE "x"; tokAnd; tokE "y"]).
Defined.

(** X2.  Whatever the rule, a verdict that [Parser.evaluate] returns has
    exactly one column, labelled with the validation id; and when the
    leaf evaluator returns one row per row of the dataset, so does the
    verdict. *)
Theorem X2_verdict_is_one_column (ev : Evaluator) id df fuel toks r rest :
  evaluate fuel ev id df toks = Some (Ok (r, rest)) ->
  (exists s, columns r = [(LStr id, s)]) /\
  ((forall text r', ev text df = Ok r' -> nrows r' = nrows df) ->
   nrows r = nrows df).
Proof.
  intros H. split.
  - eapply loop_one_column; exact H.
  - intros Hev. eapply (loop_rows ev id df (nrows df) Hev); [|exact H].
    intros; discriminate.
Qed.

Lemma X2_verdict_is_one_column_witness :
  (exists s, columns (bool_frame (LStr "validation_result")
                                 [false; true; false])
             = [(LStr "validation_result", s)]) /\
  ((forall text r', ev0 text df0 = Ok r' -> nrows r' = nrows df0) ->
   nrows (bool_frame (LStr "validation_result") [false; true; false])
   = nrows df0).
Proof.
  exact (X2_verdict_is_one_column ev0 "validation_result" df0 6
           [tokE "x"; tokOr; tokE "y"; tokAnd; tokE "z"]
           (bool_frame (LStr "validation_result") [false; true; false]) []
           eq_refl).
Defined.

Lemma loop_chain (ev : Evaluator) id df (labs : string -> label)
    (vals : string -> list bool) n :
  forall rest fuel acc l,
    List.length acc = n ->
    (forall p, In p rest ->
       connective (fst p) /\
       ev (snd p) df = Ok (bool_frame (labs (snd p)) (vals (snd p))) /\
       List.length (vals (snd p)) = n) ->
    (2 * List.length rest < fuel)%nat ->
    loop fuel ev id df (Some (bool_frame l acc))
         (flat_map (fun p => [fst p; mkToken EXPR (snd p)]) rest)
    = Some (Ok (bool_frame (LStr id)
                  (fold_left (fun a p => combine_rows (fst p) a (vals (snd p)))
                             rest acc), [])).
Proof.
  induction rest as [|[c x] rest IH]; intros fuel acc l Hacc Hall Hfuel.
  - destruct fuel; [lia|]. reflexivity.
  - destruct fuel as [|fuel]; [simpl in Hfuel; lia|].
    destruct (Hall (c, x) (or_introl eq_refl)) as [Hc [Hx Hlen]].
    simpl in Hc, Hx, Hlen.
    cbn [flat_map app fst snd fold_left].
    assert (Hnext : loop fuel ev id df
                      (Some (bool_frame (LInt 0) (combine_rows c acc (vals x))))
                      (flat_map (fun p => [fst p; mkToken EXPR (snd p)]) rest)
                    = Some (Ok (bool_frame (LStr id)
                         (fold_left
                            (fun a p => combine_rows (fst p) a (vals (snd p)))
                            rest (combine_rows c acc (vals x))), []))).
    { apply IH.
      - unfold combine_rows.
        destruct (type c); rewrite length_rowwise2; lia.
      - intros p Hp. apply Hall. now right.
      - simpl in Hfuel. lia. }
    unfold combine_rows in Hnext at 1 2.
    destruct Hc as [Hc|Hc]; rewrite Hc in Hnext;
      cbn [loop type value]; rewrite Hc, Hx; cbn [bind];
      change (to_frame ?b) with (bool_frame (LInt 0) b).
    + rewrite np_all_join by lia. exact Hnext.
    + rewrite np_any_join by lia. exact Hnext.
Qed.

(** X3.  A rule without groups, of any length, is folded from the left:
    over one-column boolean clauses of the same number of rows, the
    verdict of [x0 c1 x1 ... ck xk] is [(..(x0 c1 x1) ..) ck xk] row by
    row, with no precedence between the connectives. *)
Theorem X3_chain_is_left_fold (ev : Evaluator) id df
    (labs : string -> label) (vals : string -> list bool)
    (x0 : string) (rest : list (token * string)) :
  ev x0 df = Ok (bool_frame (labs x0) (vals x0)) ->
  (forall p, In p rest ->
     connective (fst p) /\
     ev (snd p) df = Ok (bool_frame (labs (snd p)) (vals (snd p))) /\
     List.length (vals (snd p)) = List.length (vals x0)) ->
  evaluate (enough (chain x0 rest)) ev id df (chain x0 rest)
  = Some (Ok (bool_frame (LStr id) (fold_chain vals x0 rest), [])).
Proof.
  intros H0 Hall. unfold evaluate, enough, chain.
  set (T := flat_map _ rest).
  assert (Hf : (2 * List.length rest < List.length (mkToken EXPR x0 :: T))%nat).
  { unfold T. clear. induction rest as [|p rest IH]; simpl in *; lia. }
  revert Hf. generalize (List.length (mkToken EXPR x0 :: T)). intros f Hf.
  cbn [loop type value]. rewrite H0.
  now apply (loop_chain ev id df labs vals (List.length (vals x0))).
Qed.

Lemma X3_chain_is_left_fold_witness :
  evaluate 8 ev0 "validation_result" df0
           [tokE "x"; tokOr; tokE "y"; tokAnd; tokE "z"; tokOr; tokE "x"]
  = Some (Ok (bool_frame (LStr "validation_result") [false; true; true], [])).
Proof.
  refine (X3_chain_is_left_fold ev0 "validation_result" df0
            (fun s => LStr (if String.eqb s "x" then "x"
                            else if String.eqb s "y" then "y" else "z"))
            (fun s => if String.eqb s "x" then [false; false; true]
                      else if String.eqb s "y" then [true; true; false]
                      else [false; true; false])
            "x" [(tokOr, "y"); (tokAnd, "z"); (tokOr, "x")] eq_refl _).
  intros p [<-|[<-|[<-|[]]]]; vm_compute; auto.
Defined.

(** One turn of the loop, token by token. *)
Lemma loop_end ev id df f result :
  loop (S f) ev id df result [] = Some (r <- finish id result ;; Ok (r, [])).
Proof. reflexivity. Qed.

Lemma loop_expr ev id df f tok rest r :
  type tok = EXPR -> ev (value tok) df = Ok r ->
  loop (S f) ev id df None (tok :: rest) = loop f ev id df (Some r) rest.
Proof. intros Ht He. cbn [loop]. now rewrite Ht, He. Qed.

Lemma loop_close ev id df f tok rest result :
  type tok = GROUP_CLOSE ->
  loop (S f) ev id df result (tok :: rest)
  = Some (r <- finish id result ;; Ok (r, rest)).
Proof. intros Ht. cbn [loop]. now rewrite Ht. Qed.

Lemma loop_open ev id df f tok rest result r rest' :
  type tok = GROUP_OPEN ->
  loop f ev id df None rest = Some (Ok (r, rest')) ->
  loop (S f) ev id df result (tok :: rest) = loop f ev id df (Some r) rest'.
Proof. intros Ht Hin. cbn [loop]. now rewrite Ht, Hin. Qed.

Lemma loop_conn_leaf ev id df f tok nt rest res rh :
  connective tok -> type nt <> GROUP_OPEN ->
  ev (value nt) df = Ok rh ->
  loop (S f) ev id df (Some res) (tok :: nt :: rest)
  = loop f ev id df
         (Some (to_frame (match type tok with
                          | AND => np_all (join res rh "_rh")
                          | _ => np_any (join res rh "_rh")
                          end))) rest.
Proof.
  intros Hc Hn He. cbn [loop].
  destruct Hc as [Hc|Hc]; rewrite Hc;
    destruct (type nt); try congruence; now rewrite He.
Qed.

Lemma loop_conn_group ev id df f tok nt rest res rh rest' :
  connective tok -> type nt = GROUP_OPEN ->
  loop f ev id df None rest = Some (Ok (rh, rest')) ->
  loop (S f) ev id df (Some res) (tok :: nt :: rest)
  = loop f ev id df
         (Some (to_frame (match type tok with
                          | AND => np_all (join res rh "_rh")
                          | _ => np_any (join res rh "_rh")
                          end))) rest'.
Proof.
  intros Hc Hn Hin. cbn [loop].
  destruct Hc as [Hc|Hc]; now rewrite Hc, Hn, Hin.
Qed.

Lemma finish_bool_frame id l b :
  finish id (Some (bool_frame l b)) = Ok (bool_frame (LStr id) b).
Proof. reflexivity. Qed.

(** X4.  A group is evaluated on its own before it is combined: over
    one-column boolean clauses, [X and ( Y or Z )] is [X and (Y or Z)] row
    by row -- where the same rule without the parentheses is
    [(X and Y) or Z] -- and [( X or Y ) and Z] is [(X or Y) and Z]. *)
Theorem X4_group_is_evaluated_first (ev : Evaluator) id df X Y Z va vo
    lx ly lz xs ys zs :
  ev X df = Ok (bool_frame lx xs) ->
  ev Y df = Ok (bool_frame ly ys) ->
  ev Z df = Ok (bool_frame lz zs) ->
  List.length ys = List.length xs -> List.length zs = List.length xs ->
  let and_ := mkToken AND va in
  let or_ := mkToken OR vo in
  evaluate 8 ev id df [tokE X; and_; tokOpen; tokE Y; or_; tokE Z; tokClose]
    = Some (Ok (bool_frame (LStr id)
                  (rowwise2 andb xs (rowwise2 orb ys zs)), []))
  /\ evaluate 6 ev id df [tokE X; and_; tokE Y; or_; tokE Z]
    = Some (Ok (bool_frame (LStr id)
                  (rowwise2 orb (rowwise2 andb xs ys) zs), []))
  /\ evaluate 8 ev id df [tokOpen; tokE X; or_; tokE Y; tokClose; and_; tokE Z]
    = Some (Ok (bool_frame (LStr id)
                  (rowwise2 andb (rowwise2 orb xs ys) zs), [])).
Proof.
  intros HX HY HZ Hy Hz and_ or_. unfold evaluate, and_, or_.
  assert (Hl : forall f a b, List.length b = List.length a ->
                             List.length (rowwise2 f a b) = List.length a)
    by (intros; now apply length_rowwise2).
  assert (Hand : connective (mkToken AND va)) by now left.
  assert (Hor : connective (mkToken OR vo)) by now right.
  assert (Hne : forall t, type (tokE t) <> GROUP_OPEN) by (intros; discriminate).
  split; [|split].
  - assert (Hin : loop 5 ev id df None
                    [tokE Y; mkToken OR vo; tokE Z; tokClose]
                  = Some (Ok (bool_frame (LStr id) (rowwise2 orb ys zs), []))).
    { rewrite (loop_expr ev id df _ (tokE Y) _ _ eq_refl HY).
      rewrite (loop_conn_leaf ev id df _ _ (tokE Z) _ _ _ Hor (Hne Z) HZ).
      rewrite (loop_close ev id df _ tokClose _ _ eq_refl).
      cbn [type]. change (to_frame ?b) with (bool_frame (LInt 0) b).
      rewrite np_any_join by lia. now rewrite finish_bool_frame. }
    rewrite (loop_expr ev id df _ (tokE X) _ _ eq_refl HX).
    apply (ParserFacts.loop_mono ev id df 5 6) in Hin; [|lia].
    rewrite (loop_conn_group ev id df _ _ tokOpen _ _ _ _ Hand eq_refl Hin).
    rewrite loop_end.
    cbn [type]. change (to_frame ?b) with (bool_frame (LInt 0) b).
    rewrite np_all_join by (rewrite Hl; lia).
    now rewrite finish_bool_frame.
  - rewrite (loop_expr ev id df _ (tokE X) _ _ eq_refl HX).
    rewrite (loop_conn_leaf ev id df _ _ (tokE Y) _ _ _ Hand (Hne Y) HY).
    cbn [type]. change (to_frame ?b) with (bool_frame (LInt 0) b).
    rewrite np_all_join by lia.
    rewrite (loop_conn_leaf ev id df _ _ (tokE Z) _ _ _ Hor (Hne Z) HZ).
    rewrite loop_end.
    cbn [type]. change (to_frame ?b) with (bool_frame (LInt 0) b).
    rewrite np_any_join by (rewrite Hl; lia).
    now rewrite finish_bool_frame.
  - assert (Hin : loop 7 ev id df None
                    [tokE X; mkToken OR vo; tokE Y; tokClose;
                     mkToken AND va; tokE Z]
                  = Some (Ok (bool_frame (LStr id) (rowwise2 orb xs ys),
                              [mkToken AND va; tokE Z]))).
    { rewrite (loop_expr ev id df _ (tokE X) _ _ eq_refl HX).
      rewrite (loop_conn_leaf ev id df _ _ (tokE Y) _ _ _ Hor (Hne Y) HY).
      rewrite (loop_close ev id df _ tokClose _ _ eq_refl).
      cbn [type]. change (to_frame ?b) with (bool_frame (LInt 0) b).
      rewrite np_any_join by lia. now rewrite finish_bool_frame. }
    rewrite (loop_open ev id df _ tokOpen _ _ _ _ eq_refl Hin).
    rewrite (loop_conn_leaf ev id df _ _ (tokE Z) _ _ _ Hand (Hne Z) HZ).
    rewrite loop_end.
    cbn [type]. change (to_frame ?b) with (bool_frame (LInt 0) b).
    rewrite np_all_join by (rewrite Hl; lia).
    now rewrite finish_bool_frame.
Qed.

Lemma X4_group_is_evaluated_first_witness :
  evaluate 8 ev0 "v" df0
           [tokE "z"; tokAnd; tokOpen; tokE "y"; tokOr; tokE "x"; tokClose]
    = Some (Ok (bool_frame (LStr "v") [false; true; false], []))
  /\ evaluate 6 ev0 "v" df0 [tokE "z"; tokAnd; tokE "y"; tokOr; tokE "x"]
    = Some (Ok (bool_frame (LStr "v") [false; true; true], [])).
Proof.
  destruct (X4_group_is_evaluated_first ev0 "v" df0 "z" "y" "x" " and " " or "
              (LStr "z") (LStr "y") (LStr "x")
              [false; true; false] [true; true; false] [false; false; true]
              eq_refl eq_refl eq_refl eq_refl eq_refl) as [H1 [H2 _]].
  split; [exact H1 | exact H2].
Defined.

(** X5.  Two malformed rules do not end in the [ValueError]s of the
    grammar: the empty rule reaches [result.columns] with [result] still
    [None] and raises an [AttributeError], and a rule without groups that
    evaluates, followed by one more connective, raises the
    [StopIteration] of the exhausted tokenizer. *)
Theorem X5_empty_rule_and_trailing_connective (ev : Evaluator) id df
    (pre : Tokenizer) (conn : token) r :
  group_free pre ->
  connective conn ->
  evaluate (enough pre) ev id df pre = Some (Ok (r, [])) ->
  evaluate (enough (pre ++ [conn])) ev id df (pre ++ [conn])
    = Some (Raise (Raised StopIteration ""))
  /\ evaluate (enough []) ev id df []
    = Some (Raise (Raised AttributeError
                     "'NoneType' object has no attribute 'columns'")).
Proof.
  intros Hgf Hc H. split; [|reflexivity].
  unfold evaluate in *.
  destruct (loop_prefix ev id df _ _ _ _ _ Hgf H) as [st [Hst [_ Hgo]]].
  replace (enough (pre ++ [conn])) with (enough pre + 1)%nat
    by (unfold enough; rewrite length_app; simpl; lia).
  apply Hgo.
  destruct st as [res|]; [|discriminate].
  simpl. destruct Hc as [-> | ->]; reflexivity.
Qed.

Lemma X5_empty_rule_and_trailing_connective_witness :
  evaluate 3 ev0 "v" df0 [tokE "x"; tokAnd]
  = Some (Raise (Raised StopIteration "")).
Proof.
  refine (proj1 (X5_empty_rule_and_trailing_connective ev0 "v" df0
                   [tokE "x"] tokAnd
                   (bool_frame (LStr "v") [false; false; true]) _ _ _)).
  - repeat constructor; simpl; discriminate.
  - now left.
  - reflexivity.
Defined.

(** X6.  A group that is never closed is not an error either: a
    [GROUP_OPEN] in front of a rule that evaluates gives the verdict of
    that rule. *)
Theorem X6_unclosed_group (ev : Evaluator) id df (open : token)
    (pre : Tokenizer) r :
  type open = GROUP_OPEN ->
  evaluate (enough pre) ev id df pre = Some (Ok (r, [])) ->
  evaluate (enough (open :: pre)) ev id df (open :: pre) = Some (Ok (r, [])).
Proof.
  intros Ho H. unfold evaluate, enough in *.
  destruct (loop_one_column ev id df _ _ _ _ _ H) as [s Hs].
  cbn [List.length]. remember (S (List.length pre)) as f.
  cbn [loop]. rewrite Ho, H.
  destruct f as [|f]; [discriminate|].
  cbn [loop finish]. unfold set_columns. rewrite Hs. cbn [bind].
  destruct r as [n cols]. simpl in Hs. subst cols. reflexivity.
Qed.

Lemma X6_unclosed_group_witness :
  evaluate 5 ev0 "v" df0 [tokOpen; tokE "x"; tokOr; tokE "y"]
  = Some (Ok (bool_frame (LStr "v") [true; true; true], [])).
Proof.
  exact (X6_unclosed_group ev0 "v" df0 tokOpen [tokE "x"; tokOr; tokE "y"]
           (bool_frame (LStr "v") [true; true; true]) eq_refl eq_refl).
Defined.

(** X7.  A group that follows a result with no connective in between
    replaces that result: the clause before the [GROUP_OPEN] is evaluated
    and dropped, and no grammar error is raised. *)
Theorem X7_group_replaces_result (ev : Evaluator) id df (e open : token)
    (rest : Tokenizer) r0 :
  type e = EXPR -> type open = GROUP_OPEN ->
  ev (value e) df = Ok r0 ->
  evaluate (enough (e :: open :: rest)) ev id df (e :: open :: rest)
  = evaluate (enough (open :: rest)) ev id df (open :: rest).
Proof.
  intros He Ho H0. unfold evaluate, enough. cbn [List.length].
  remember (S (List.length rest)) as f.
  cbn [loop]. rewrite He, H0, Ho. reflexivity.
Qed.

Lemma X7_group_replaces_result_witness :
  evaluate 5 ev0 "v" df0 [tokE "x"; tokOpen; tokE "y"; tokClose]
  = evaluate 4 ev0 "v" df0 [tokOpen; tokE "y"; tokClose].
Proof.
  exact (X7_group_replaces_result ev0 "v" df0 (tokE "x") tokOpen
           [tokE "y"; tokClose] (bool_frame (LStr "x") [false; false; true])
           eq_refl eq_refl eq_refl).
Defined.

End ParserMore.

(* ------------------------------------------------------------------ *)
(** ** The registries *)

Lemma dict_get_some d s :
  In s (map fst d) -> exists c, dict_get d s = Some c.
Proof.
  unfold dict_get. induction d as [|[k c] d IH]; simpl; intros H;
    [contradiction|].
  destruct (String.eqb k s) eqn:E; [now exists c|].
  destruct H as [H|H]; [subst; now rewrite String.eqb_refl in E | now apply IH].
Qed.

Lemma dict_get_replace d s' c s :
  dict_get (map (fun e => if String.eqb (fst e) s' then (s', c) else e) d) s
  = if String.eqb s' s
    then (if existsb (fun e => String.eqb (fst e) s') d then Some c else None)
    else dict_get d s.
Proof.
  unfold dict_get. destruct (String.eqb s' s) eqn:Es.
  - apply String.eqb_eq in Es. subst s'.
    induction d as [|[k c0] d IH]; simpl; [reflexivity|].
    destruct (String.eqb k s) eqn:Ek; simpl.
    + now rewrite String.eqb_refl.
    + rewrite Ek. exact IH.
  - induction d as [|[k c0] d IH]; simpl; [reflexivity|].
    destruct (String.eqb k s') eqn:Ek; simpl.
    + apply String.eqb_eq in Ek. subst k. rewrite Es. exact IH.
    + destruct (String.eqb k s); [reflexivity | exact IH].
Qed.

Lemma dict_get_append d s' c s :
  existsb (fun e => String.eqb (fst e) s') d = false ->
  dict_get (d ++ [(s', c)]) s
  = if String.eqb s' s then Some c else dict_get d s.
Proof.
  unfold dict_get. induction d as [|[k c0] d IH]; simpl; intros H.
  - now destruct (String.eqb s' s).
  - apply orb_false_iff in H. destruct H as [Hk H].
    destruct (String.eqb k s) eqn:Eks; simpl.
    + apply String.eqb_eq in Eks. subst k.
      rewrite String.eqb_sym in Hk. now rewrite Hk.
    + now apply IH.
Qed.

Lemma find_app {A} (p : A -> bool) l1 l2 :
  find p (l1 ++ l2) = match find p l1 with
                      | Some x => Some x
                      | None => find p l2
                      end.
Proof.
  induction l1 as [|x l1 IH]; simpl; [reflexivity|].
  now destruct (p x).
Qed.

(** The dict built by the registry maps a symbol to the last class that
    carries it. *)
Lemma symbols_dict_get l : forall d s,
  dict_get (symbols_dict l d) s
  = match last_with s l with
    | Some c => Some c
    | None => dict_get d s
    end.
Proof.
  induction l as [|c l IH]; intros d s; [reflexivity|].
  unfold last_with. cbn [symbols_dict rev]. rewrite find_app.
  change (find (has_symbol s) (rev l)) with (last_with s l).
  cbn [find]. unfold has_symbol.
  destruct (class_symbol c) as [s'|] eqn:Ec.
  - rewrite IH. destruct (last_with s l); [reflexivity|].
    destruct (existsb (fun e => String.eqb (fst e) s') d) eqn:Ex.
    + rewrite dict_get_replace, Ex. now destruct (String.eqb s' s).
    + rewrite dict_get_append by assumption. now destruct (String.eqb s' s).
  - rewrite IH. now destruct (last_with s l).
Qed.

Lemma last_with_sound s l c :
  last_with s l = Some c -> class_symbol c = Some s /\ In c l.
Proof.
  unfold last_with. intros H. apply find_some in H. destruct H as [Hin Hp].
  split; [|now apply in_rev].
  unfold has_symbol in Hp. destruct (class_symbol c); [|discriminate].
  apply String.eqb_eq in Hp. now subst.
Qed.

(** X8.  Looking up a registered symbol never fails: for any class
    hierarchy, a symbol that [list()] shows is found by [get()], in
    either registry, and the class returned is one of [get_subclasses()]
    that carries this very symbol. *)
Theorem X8_registered_symbol_is_found (cls : class) (symbol : string) :
  In symbol (registry_list cls) ->
  exists c,
    Comparator.get cls symbol = Ok c /\ Operator.get cls symbol = Ok c /\
    class_symbol c = Some symbol /\ In c (get_subclasses cls).
Proof.
  intros H. unfold Comparator.get, Operator.get, registry_get.
  destruct (dict_get_some _ _ H) as [c Hc]. rewrite Hc.
  exists c. split; [reflexivity|]. split; [reflexivity|].
  rewrite symbols_dict_get in Hc.
  destruct (last_with symbol (get_subclasses cls)) as [c'|] eqn:E;
    [|discriminate].
  inversion Hc; subst. exact (last_with_sound symbol _ c E).
Qed.

Lemma X8_registered_symbol_is_found_witness :
  exists c,
    Comparator.get Comparator.root "is outlier by" = Ok c /\
    Operator.get Comparator.root "is outlier by" = Ok c /\
    class_symbol c = Some "is outlier by" /\
    In c (get_subclasses Comparator.root).
Proof.
  apply (X8_registered_symbol_is_found Comparator.root "is outlier by").
  vm_compute. repeat (first [left; reflexivity | right]).
Defined.

(** X9.  When two classes of a hierarchy carry the same symbol, the
    registry returns the one defined last: the dict of [get()] is built
    in the order of [get_subclasses()] and a later class replaces an
    earlier one. *)
Theorem X9_later_class_wins (what : string) (cls : class)
    (before after : list class) (c : class) (symbol : string) :
  get_subclasses cls = before ++ c :: after ->
  class_symbol c = Some symbol ->
  (forall c', In c' after -> class_symbol c' <> Some symbol) ->
  registry_get what cls symbol = Ok c.
Proof.
  intros Hl Hc Hafter. unfold registry_get.
  rewrite symbols_dict_get, Hl. unfold last_with.
  rewrite rev_app_distr. cbn [rev]. rewrite <- app_assoc, find_app.
  replace (find (has_symbol symbol) (rev after)) with (@None class).
  - cbn [app find]. unfold has_symbol at 1. rewrite Hc, String.eqb_refl.
    reflexivity.
  - symmetry.
    assert (Hall : forall c', In c' (rev after) -> has_symbol symbol c' = false).
    { intros c' Hin. apply in_rev in Hin. unfold has_symbol.
      destruct (class_symbol c') as [t|] eqn:E; [|reflexivity].
      apply String.eqb_neq. intros ->. now apply (Hafter c'). }
    induction (rev after) as [|x l IH]; simpl; [reflexivity|].
    rewrite Hall by now left. apply IH. intros; apply Hall; now right.
Qed.

Lemma X9_later_class_wins_witness :
  registry_get "Comparator"
    (Class "Comparator" None
       [ Class "EqComparator" (Some "==") [];
         Class "StrictEqComparator" (Some "==") [];
         Class "GtComparator" (Some ">") [] ]) "=="
  = Ok (Class "StrictEqComparator" (Some "==") []).
Proof.
  refine (X9_later_class_wins "Comparator"
            (Class "Comparator" None
               [ Class "EqComparator" (Some "==") [];
                 Class "StrictEqComparator" (Some "==") [];
                 Class "GtComparator" (Some ">") [] ])
            [Class "EqComparator" (Some "==") []]
            [Class "GtComparator" (Some ">") []]
            (Class "StrictEqComparator" (Some "==") []) "==" eq_refl eq_refl _).
  intros c' [<-|[]]. discriminate.
Defined.

Lemma get_subclasses_have_symbol :
  forall cls c, In c (get_subclasses cls) -> exists s, class_symbol c = Some s.
Proof.
  fix IH 1. intros [name sym subs]. cbn [get_subclasses].
  induction subs as [|sub subs IHs]; intros c H.
  - contradiction.
  - destruct (class_symbol sub) as [s|] eqn:E.
    + destruct H as [<-|H]; [now exists s | now apply IHs].
    + apply in_app_or in H. destruct H as [H|H];
        [exact (IH sub c H) | now apply IHs].
Qed.

(** X10.  [get_subclasses()] yields classes that carry a symbol only, so
    the base classes without one ([RowComparator], [ColumnComparator],
    [DataOperator], [LogicalOperator]) cannot be looked up.  The package
    and the flat module register the same thirteen comparator symbols and
    the operators eight, no symbol twice, so that no class hides
    another. *)
Theorem X10_registered_symbols :
  (forall cls c, In c (get_subclasses cls) ->
                 exists s, class_symbol c = Some s)
  /\ NoDup (Comparator.list Comparator.root)
  /\ NoDup (Comparator.list Comparator.legacy_root)
  /\ NoDup (Operator.list Operator.root)
  /\ List.length (Comparator.list Comparator.root) = 13%nat
  /\ List.length (Operator.list Operator.root) = 8%nat
  /\ (forall s, In s (Comparator.list Comparator.root)
                <-> In s (Comparator.list Comparator.legacy_root)).
Proof.
  split; [exact get_subclasses_have_symbol|].
  assert (Hnd : forall l : list string,
            (fix nodupb (l : list string) : bool :=
               match l with
               | [] => true
               | x :: l' => negb (existsb (String.eqb x) l') && nodupb l'
               end) l = true -> NoDup l).
  { induction l as [|x l IH]; intros H; [constructor|].
    apply andb_prop in H. destruct H as [Hx Hl]. constructor; [|now apply IH].
    intros Hin. apply negb_true_iff in Hx.
    assert (existsb (String.eqb x) l = true)
      by (apply existsb_exists; exists x; split;
          [exact Hin | apply String.eqb_refl]).
    congruence. }
  repeat split; try (apply Hnd; reflexivity);
    vm_compute; intros H;
    repeat (destruct H as [<-|H]; [tauto|]); contradiction.
Qed.

(* ------------------------------------------------------------------ *)
(** ** The comparators *)

(** X11.  The dtype guard comes first: on a dataset with a column that
    is not numeric, [>], [>=], [<], [<=] of the flat module and [Between]
    and [RanksIn] of both modules raise one and the same [TypeError],
    whose message names every such column, whatever the target is --
    a target they could not read is not looked at. *)
Theorem X11_guard_comes_first (df : DataFrame) (target : target) :
  Base.invalid_columns "number" df <> [] ->
  (forall l, In l (Base.invalid_columns "number" df) -> exists s, l = LStr s) ->
  exists msg,
    (forall s, In (LStr s) (Base.invalid_columns "number" df) ->
               occurs s msg = true) /\
    Forall (fun cmp => cmp df target = Raise (Raised TypeError msg))
      [ Legacy.GtComparator; Legacy.GtEqComparator; Legacy.LtComparator;
        Legacy.LtEqComparator; Legacy.BetweenComparator;
        Legacy.RankComparator; RowWise.BetweenComparator;
        RowWise.RankComparator ].
Proof. exact (guarded_comparators_refuse df target). Qed.

Lemma X11_guard_comes_first_witness :
  exists msg,
    (forall s, In (LStr s) (Base.invalid_columns "number" df_nan) ->
               occurs s msg = true) /\
    Forall (fun cmp => cmp df_nan (TScalar (VStr "no target at all"))
                       = Raise (Raised TypeError msg))
      [ Legacy.GtComparator; Legacy.GtEqComparator; Legacy.LtComparator;
        Legacy.LtEqComparator; Legacy.BetweenComparator;
        Legacy.RankComparator; RowWise.BetweenComparator;
        RowWise.RankComparator ].
Proof.
  apply (X11_guard_comes_first df_nan (TScalar (VStr "no target at all"))).
  - vm_compute. discriminate.
  - vm_compute. intros l [<-|[]]. now exists "b".
Defined.

(** X12.  [Missing], [NotMissing], [In], [Between], [RanksIn], [Contains]
    and [IsOutlierBy] return, whenever they return, a frame with the rows
    and the columns of the dataset they were given, for every dataset and
    every target. *)
Theorem X12_shared_comparators_keep_shape (pd : Pandas)
    (astype_str : value -> string) (re_search : string -> string -> res bool)
    (df : DataFrame) (target : target) :
  Forall (fun cmp => forall out, cmp df target = Ok out -> shape out = shape df)
    [ Base.NullComparator; Base.NotNullComparator;
      Base.InComparator astype_str; Base.BetweenComparator;
      Base.RankComparator; Base.ContainsComparator re_search;
      Base.OutlierComparator pd ].
Proof. exact (shape_kept_by_the_shared pd astype_str re_search df target). Qed.

Lemma X12_shared_comparators_keep_shape_witness :
  exists out, Base.BetweenComparator df6 (TScalar (VStr "2:4")) = Ok out /\
              shape out = (6, 1)%nat.
Proof.
  eexists. split; [reflexivity|].
  apply (proj1 (Forall_forall _ _)
           (X12_shared_comparators_keep_shape (with_quartiles FNaN FNaN)
              (fun _ => "")
              (fun _ _ => Ok false) df6 (TScalar (VStr "2:4")))
           Base.BetweenComparator
           (or_intror (or_intror (or_intror (or_introl eq_refl))))).
  reflexivity.
Defined.

(** X13.  With a scalar target the comparisons keep the shape of the
    dataset whenever they return: [>], [>=], [<], [<=] of the flat module
    and [==], [!=], [>], [<] of the package always, [==] and [!=] of the
    flat module on a dataset that has a column. *)
Theorem X13_scalar_comparisons_keep_shape (df : DataFrame) (v : value) :
  Forall (fun cmp => forall out, cmp df (TScalar v) = Ok out ->
                                 shape out = shape df)
    [ Legacy.GtComparator; Legacy.GtEqComparator; Legacy.LtComparator;
      Legacy.LtEqComparator; RowWise.EqComparator; RowWise.UnEqComparator;
      RowWise.GtComparator; RowWise.LtComparator ]
  /\ (columns df <> [] ->
      Forall (fun cmp => forall out, cmp df (TScalar v) = Ok out ->
                                     shape out = shape df)
        [ Legacy.EqComparator; Legacy.UnEqComparator ]).
Proof.
  split.
  - repeat constructor; intros out H;
      try (eapply shape_kept_by_legacy_compare; [exact H|];
           simpl; rewrite repeat_length; lia);
      eapply shape_kept_by_rowwise_scalar; exact H.
  - intros Hc. destruct (shape_kept_by_legacy_eq df (TScalar v) Hc) as [H1 H2].
    repeat constructor; assumption.
Qed.

Lemma X13_scalar_comparisons_keep_shape_witness :
  exists out, Legacy.EqComparator df_a (TScalar (VNum 1)) = Ok out /\
              shape out = (2, 1)%nat.
Proof.
  eexists. split; [reflexivity|].
  assert (Hc : columns df_a <> []) by (simpl; discriminate).
  apply (proj1 (Forall_forall _ _)
           (proj2 (X13_scalar_comparisons_keep_shape df_a (VNum 1)) Hc)
           Legacy.EqComparator (or_introl eq_refl)).
  reflexivity.
Defined.

(** X14.  On a dataset of float64 columns under distinct labels, with a
    row and a column at least, and a scalar number as target, [==], [!=],
    [>] and [<] of the package return exactly what those of the flat
    module return. *)
Theorem X14_families_agree_on_numbers (df : DataFrame) (q : Q) :
  numeric_frame df ->
  RowWise.EqComparator df (TScalar (VNum q))
    = Legacy.EqComparator df (TScalar (VNum q)) /\
  RowWise.UnEqComparator df (TScalar (VNum q))
    = Legacy.UnEqComparator df (TScalar (VNum q)) /\
  RowWise.GtComparator df (TScalar (VNum q))
    = Legacy.GtComparator df (TScalar (VNum q)) /\
  RowWise.LtComparator df (TScalar (VNum q))
    = Legacy.LtComparator df (TScalar (VNum q)).
Proof. intros H. exact (families_agree_on_numbers df q H). Qed.

Lemma numeric_df6 : numeric_frame df6.
Proof.
  unfold numeric_frame. split; [repeat constructor|].
  split; [repeat constructor; simpl; tauto|].
  split; [discriminate|]. split; [discriminate|].
  repeat constructor.
Qed.

Lemma X14_families_agree_on_numbers_witness :
  RowWise.GtComparator df6 (TScalar (VNum 3))
  = Legacy.GtComparator df6 (TScalar (VNum 3)).
Proof.
  exact (proj1 (proj2 (proj2 (X14_families_agree_on_numbers df6 3 numeric_df6)))).
Defined.

Lemma X10_registered_symbols_witness :
  NoDup (Operator.list Operator.root)
  /\ exists s, class_symbol (Class "AnyOperator" (Some "any") []) = Some s.
Proof.
  split.
  - exact (proj1 (proj2 (proj2 (proj2 X10_registered_symbols)))).
  - apply (proj1 X10_registered_symbols Operator.root).
    vm_compute. tauto.
Defined.

(** *** Between *)





(** *** RanksIn *)

From Stdlib Require Import Lqa.









(** X17.  The target of [RanksIn] is matched from its first character
    and in lower case: on a dataset of numeric columns, a target that
    does not begin with [top] or [bottom] -- [Top 5], or [top 5] after a
    blank -- raises the [ValueError] of the target, whose message quotes
    it. *)
Theorem X17_ranks_in_needs_top_or_bottom (df : DataFrame) (text : string) :
  Base.invalid_columns "number" df = [] ->
  Parser.is_prefix "top" text = false ->
  Parser.is_prefix "bottom" text = false ->
  exists msg,
    RowWise.RankComparator df (TScalar (VStr text))
      = Raise (Raised ValueError msg) /\
    Legacy.RankComparator df (TScalar (VStr text))
      = Raise (Raised ValueError msg) /\
    occurs text msg = true.
Proof.
  intros Hnum Ht Hb.
  unfold Legacy.RankComparator, RowWise.RankComparator, Base.RankComparator,
    Base._check_dtypes.
  rewrite Hnum. cbn [bind].
  unfold Base.match_rank, Base.drop_prefix. rewrite Ht, Hb. cbn [option_map].
  eexists. split; [reflexivity|]. split; [reflexivity|].
  apply (occurs_app "RankComparator: Invalid target '" text
                    "', use <top|bottom> <rank> (%).").
Qed.

Lemma X17_ranks_in_needs_top_or_bottom_witness :
  exists msg,
    RowWise.RankComparator df10 (TScalar (VStr "Top 5"))
      = Raise (Raised ValueError msg) /\
    Legacy.RankComparator df10 (TScalar (VStr "Top 5"))
      = Raise (Raised ValueError msg) /\
    occurs "Top 5" msg = true.
Proof.
  exact (X17_ranks_in_needs_top_or_bottom df10 "Top 5" eq_refl eq_refl eq_refl).
Defined.

(** *** IsOutlierBy *)









Lemma option_eqb_true a s : Base.option_eqb a (Some s) = true <-> a = Some s.
Proof.
  destruct a as [t|]; simpl; [|split; discriminate].
  rewrite String.eqb_eq. split; [now intros -> | now intros [= ->]].
Qed.

Lemma option_eqb_false a s : Base.option_eqb a (Some s) = false <-> a <> Some s.
Proof.
  rewrite <- option_eqb_true. destruct (Base.option_eqb a (Some s));
    split; congruence.
Qed.

(** The flag of a cell, from the two limits. *)
Lemma limits_flag_iff side w cl ch sp v :
  exists flag,
    limits_flag side w cl ch sp v = VBool flag /\
    (flag = true <->
     exists x,
       v = VNum x /\
       ((side <> Some "+" /\
         fle (FNum x) (fsub cl (fmul w sp)) = true) \/
        (side <> Some "-" /\
         fle (fadd ch (fmul w sp)) (FNum x) = true))).
Proof.
  unfold limits_flag. eexists. split; [reflexivity|].
  destruct v as [x| | |];
    try (split; [discriminate | intros [x' [E' _]]; discriminate]).
  assert (Hgoal : forall P,
            (P <-> ((side <> Some "+" /\
                     fle (FNum x) (fsub cl (fmul w sp)) = true) \/
                    (side <> Some "-" /\
                     fle (fadd ch (fmul w sp)) (FNum x) = true))) ->
            (P <-> exists x', VNum x = VNum x' /\
                     ((side <> Some "+" /\
                       fle (FNum x') (fsub cl (fmul w sp)) = true) \/
                      (side <> Some "-" /\
                       fle (fadd ch (fmul w sp)) (FNum x') = true)))).
  { intros P HP. rewrite HP. split.
    - intros H. now exists x.
    - intros [x' [Ex H]]. now inversion Ex; subst. }
  apply Hgoal.
  unfold whisker_low_of, whisker_high_of, Base.limit_low, Base.limit_high.
  destruct (Base.option_eqb side (Some "+")) eqn:Ep;
    [|destruct (Base.option_eqb side (Some "-")) eqn:Em].
  - apply option_eqb_true in Ep. subst side.
    cbn [fle]. rewrite orb_false_l. split.
    + intros H. right. split; [discriminate | exact H].
    + intros [[H _]|[_ H]]; [congruence | exact H].
  - apply option_eqb_true in Em. subst side.
    cbn [fle]. rewrite orb_false_r. split.
    + intros H. left. split; [discriminate | exact H].
    + intros [[_ H]|[H _]]; [exact H | congruence].
  - apply option_eqb_false in Ep. apply option_eqb_false in Em.
    rewrite orb_true_iff. tauto.
Qed.

(** The three methods, column by column. *)
Lemma outlier_by_method pd df text side ws w m
    (flag : Series -> value -> value) :
  nrows df <> 0%nat -> columns df <> [] ->
  (forall c, In c (columns df) -> s_dtype (snd c) = float64) ->
  Base.match_outlier text = Some (side, ws, m) ->
  parse_float ws = Some w ->
  (forall s,
     (if String.eqb m "sd" then Base._outlier_sd pd
      else if String.eqb m "mad" then Base._outlier_mad pd
      else Base._outlier_iqr pd) s (whisker_low_of side w)
                                 (whisker_high_of side w)
     = Base.numeric_only s (Ok (mkSeries bool_ (map (flag s) (s_values s))))) ->
  Base.OutlierComparator pd df (TScalar (VStr text))
  = Ok (remake bool_ flag df).
Proof.
  intros Hn Hc Hd Hm Hw Hmeth.
  unfold Base.OutlierComparator. rewrite Hm, Hw.
  fold (whisker_low_of side w) (whisker_high_of side w).
  unfold Base.apply_columns.
  destruct (nrows df) as [|n] eqn:En; [congruence|].
  destruct (columns df) as [|c0 cs] eqn:Ec; [congruence|].
  rewrite <- Ec in *.
  rewrite mapM_ok with
    (g := fun c => (fst c, mkSeries bool_ (map (flag (snd c))
                                               (s_values (snd c))))).
  - simpl. unfold remake. now rewrite En.
  - intros c Hin. rewrite Hmeth. unfold Base.numeric_only.
    rewrite (Hd c Hin). reflexivity.
Qed.

(** X19.  The IQR method with any whisker and side.  On float64 columns,
    a target read as side, whisker [w] and method IQR flags a cell
    exactly when it holds a number at or below [q1 - w (q3 - q1)] or at
    or above [q3 + w (q3 - q1)], the limits taken in the arithmetic of
    floats with each operation rounded, for [q1] and [q3] the quartiles
    pandas finds in the column; a leading [+] switches the lower limit
    off, a leading [-] the upper one.  Where no operation rounds the
    limits are the exact ones.  Missing cells are never flagged and the
    shape and labels are kept. *)
Theorem X19_outlier_iqr_sides (pd : Pandas) (df : DataFrame)
    (text : string) (side : option string) (ws : string) (w : pyfloat) :
  nrows df <> 0%nat -> columns df <> [] ->
  (forall c, In c (columns df) -> s_dtype (snd c) = float64) ->
  Base.match_outlier text = Some (side, ws, "iqr") ->
  parse_float ws = Some w ->
  exists out,
    RowWise.OutlierComparator pd df (TScalar (VStr text)) = Ok out /\
    Legacy.OutlierComparator pd df (TScalar (VStr text)) = Ok out /\
    shape out = shape df /\ labels out = labels df /\
    forall j i c,
      nth_error (columns df) j = Some c ->
      (i < List.length (s_values (snd c)))%nat ->
      let q1 := pd_quantile pd (1 # 4) (floats (snd c)) in
      let q3 := pd_quantile pd (3 # 4) (floats (snd c)) in
      exists flag,
        at_ out j i = VBool flag /\
        (flag = true <->
         exists x,
           cell (snd c) i = VNum x /\
           ((side <> Some "+" /\
             fle (FNum x) (fsub q1 (fmul w (fsub q3 q1))) = true) \/
            (side <> Some "-" /\
             fle (fadd q3 (fmul w (fsub q3 q1))) (FNum x) = true))) /\
        (forall u l h : Q,
           w = FNum u -> q1 = FNum l -> q3 = FNum h ->
           is_float (h - l) -> is_float (u * (h - l)) ->
           is_float (l - u * (h - l)) -> is_float (h + u * (h - l)) ->
           (flag = true <->
            exists x,
              cell (snd c) i = VNum x /\
              ((side <> Some "+" /\ x <= l - u * (h - l)) \/
               (side <> Some "-" /\ h + u * (h - l) <= x))%Q)).
Proof.
  intros Hn Hc Hd Hm Hw.
  unfold RowWise.OutlierComparator, Legacy.OutlierComparator.
  rewrite (outlier_by_method pd df text side ws w "iqr"
             (fun s => limits_flag side w
                         (pd_quantile pd (1 # 4) (floats s))
                         (pd_quantile pd (3 # 4) (floats s))
                         (fsub (pd_quantile pd (3 # 4) (floats s))
                               (pd_quantile pd (1 # 4) (floats s))))
             Hn Hc Hd Hm Hw) by reflexivity.
  eexists. split; [reflexivity|]. split; [reflexivity|].
  split; [apply shape_remake|]. split; [apply labels_remake|].
  intros j i c Hj Hi. cbv zeta. rewrite (at_remake _ _ _ _ _ _ Hj Hi).
  set (q1 := pd_quantile pd (1 # 4) (floats (snd c))).
  set (q3 := pd_quantile pd (3 # 4) (floats (snd c))).
  destruct (limits_flag_iff side w q1 q3 (fsub q3 q1) (cell (snd c) i))
    as [flag [E Hiff]].
  exists flag. split; [exact E|]. split; [exact Hiff|].
  intros u l h -> E1 E3 Hfd Hfp Hfl Hfh. rewrite Hiff, E1, E3.
  destruct (exact_limits u l h Hfd Hfp Hfl Hfh) as [lo [hi [El [Eh [Rl Rh]]]]].
  rewrite El, Eh. cbn [fle].
  split; intros [x [Ex H]]; exists x; (split; [exact Ex|]).
  - rewrite !Qle_bool_iff, Rl, Rh in H. exact H.
  - rewrite !Qle_bool_iff, Rl, Rh. exact H.
Qed.

Lemma X19_outlier_iqr_sides_witness :
  exists out,
    RowWise.OutlierComparator (with_quartiles (FNum (9 # 4)) (FNum (19 # 4)))
      df6 (TScalar (VStr "- 1.5 IQR")) = Ok out /\
    shape out = (6, 1)%nat /\ at_ out 0 5 = VBool false.
Proof.
  destruct (X19_outlier_iqr_sides
              (with_quartiles (FNum (9 # 4)) (FNum (19 # 4))) df6
              "- 1.5 IQR" (Some "-") "1.5" (FNum (3 # 2)))
    as [out [H [_ [Hs _]]]];
    try (vm_compute; reflexivity); try (simpl; discriminate).
  - simpl. intros c [<-|[]]. reflexivity.
  - exists out. split; [exact H|]. split; [exact Hs|].
    vm_compute in H. now inversion H.
Defined.

Lemma round64_zero (q : Q) : (q == 0)%Q -> round64 q = FNum 0.
Proof. intros H. now rewrite (round64_eq q 0 H). Qed.

(** X20 (comparators/mixins.py, [OutlierMixin._outlier_iqr]; row_wise.py,
    [OutlierComparator.__call__]): a column whose two quartiles are one
    and the same float, as in a column that holds one number in every
    row, has no spread: both limits are that float, and as the limits are
    inclusive the IQR method flags every cell that holds it, whatever the
    finite whisker and the side.  A whisker with so many digits that
    [float()] reads it as infinite makes the limits NaN, and no cell of
    the column is flagged. *)
Theorem X20_constant_column_is_flagged (pd : Pandas) (df : DataFrame)
    (text : string) (side : option string) (ws : string) (w : pyfloat)
    (j : nat) (c : label * Series) (v : Q) :
  nrows df <> 0%nat -> columns df <> [] ->
  (forall c, In c (columns df) -> s_dtype (snd c) = float64) ->
  Base.match_outlier text = Some (side, ws, "iqr") ->
  parse_float ws = Some w ->
  nth_error (columns df) j = Some c ->
  pd_quantile pd (1 # 4) (floats (snd c)) = FNum v ->
  pd_quantile pd (3 # 4) (floats (snd c)) = FNum v ->
  is_float v ->
  exists out,
    RowWise.OutlierComparator pd df (TScalar (VStr text)) = Ok out /\
    (forall u, w = FNum u ->
       forall i x, (i < List.length (s_values (snd c)))%nat ->
                   cell (snd c) i = VNum x -> (x == v)%Q ->
                   at_ out j i = VBool true) /\
    (w = FInf false ->
     forall i, (i < List.length (s_values (snd c)))%nat ->
               at_ out j i = VBool false).
Proof.
  intros Hn Hc Hd Hm Hw Hj H1 H3 Hv.
  unfold RowWise.OutlierComparator.
  rewrite (outlier_by_method pd df text side ws w "iqr"
             (fun s => limits_flag side w
                         (pd_quantile pd (1 # 4) (floats s))
                         (pd_quantile pd (3 # 4) (floats s))
                         (fsub (pd_quantile pd (3 # 4) (floats s))
                               (pd_quantile pd (1 # 4) (floats s))))
             Hn Hc Hd Hm Hw) by reflexivity.
  eexists. split; [reflexivity|].
  assert (Hiqr : fsub (FNum v) (FNum v) = FNum 0).
  { cbn [fsub fneg fadd]. apply round64_zero. ring. }
  destruct (round64_float v Hv) as [r [Er Rr]].
  split.
  - intros u -> i x Hi Hx Hxv. rewrite (at_remake _ _ _ _ _ _ Hj Hi).
    destruct (limits_flag_iff side (FNum u) (FNum v) (FNum v)
                (fsub (FNum v) (FNum v)) (cell (snd c) i))
      as [flag [E Hiff]].
    rewrite H1, H3, E. f_equal. apply Hiff. exists x. split; [exact Hx|].
    rewrite Hiqr.
    assert (Hp : fmul (FNum u) (FNum 0) = FNum 0).
    { cbn [fmul]. apply round64_zero. ring. }
    rewrite Hp.
    assert (Hlo : fsub (FNum v) (FNum 0) = FNum r).
    { cbn [fsub fneg fadd]. rewrite <- Er. apply round64_eq. ring. }
    assert (Hhi : fadd (FNum v) (FNum 0) = FNum r).
    { cbn [fadd]. rewrite <- Er. apply round64_eq. ring. }
    rewrite Hlo, Hhi. cbn [fle]. rewrite !Qle_bool_iff, Rr, Hxv.
    destruct (Base.option_eqb side (Some "+")) eqn:Ep.
    + apply option_eqb_true in Ep. subst side.
      right. split; [discriminate | apply Qle_refl].
    + apply option_eqb_false in Ep. left. split; [exact Ep | apply Qle_refl].
  - intros -> i Hi. rewrite (at_remake _ _ _ _ _ _ Hj Hi).
    destruct (limits_flag_iff side (FInf false) (FNum v) (FNum v)
                (fsub (FNum v) (FNum v)) (cell (snd c) i))
      as [flag [E Hiff]].
    rewrite H1, H3, E. f_equal.
    destruct flag; [|reflexivity].
    destruct (proj1 Hiff eq_refl) as [x [_ H]].
    rewrite Hiqr in H. cbn in H.
    destruct H as [[_ H]|[_ H]]; discriminate.
Qed.

Lemma X20_constant_column_is_flagged_witness :
  exists out,
    RowWise.OutlierComparator (with_quartiles (FNum 7) (FNum 7))
      (mkFrame 3 [(LStr "v", mkSeries float64 (repeat (VNum 7) 3))])
      (TScalar (VStr "3 IQR")) = Ok out /\
    at_ out 0 2 = VBool true.
Proof.
  destruct (X20_constant_column_is_flagged (with_quartiles (FNum 7) (FNum 7))
              (mkFrame 3 [(LStr "v", mkSeries float64 (repeat (VNum 7) 3))])
              "3 IQR" None "3" (FNum 3) 0
              (LStr "v", mkSeries float64 (repeat (VNum 7) 3)) 7)
    as [out [H [Hall _]]];
    try (vm_compute; reflexivity); try (simpl; discriminate).
  - simpl. intros c [<-|[]]. reflexivity.
  - exists out. split; [exact H|].
    apply (Hall 3 eq_refl 2%nat 7); [simpl; lia | reflexivity | reflexivity].
Defined.

(** X25 (comparators/mixins.py, [OutlierMixin._outlier_sd]; row_wise.py
    and comparators.py, [OutlierComparator.__call__]): with the SD method
    on float64 columns a cell is flagged exactly when it holds a number at
    or below [mean - w std] or at or above [mean + w std], on the sides
    the sign leaves on, the limits taken in the arithmetic of floats from
    the mean and the standard deviation pandas finds in the column.
    Where pandas finds no standard deviation -- it returns NaN for a
    column of fewer than two numbers -- no cell of the column is
    flagged. *)
Theorem X25_outlier_sd_sides (pd : Pandas) (df : DataFrame)
    (text : string) (side : option string) (ws : string) (w : pyfloat) :
  nrows df <> 0%nat -> columns df <> [] ->
  (forall c, In c (columns df) -> s_dtype (snd c) = float64) ->
  Base.match_outlier text = Some (side, ws, "sd") ->
  parse_float ws = Some w ->
  exists out,
    RowWise.OutlierComparator pd df (TScalar (VStr text)) = Ok out /\
    Legacy.OutlierComparator pd df (TScalar (VStr text)) = Ok out /\
    shape out = shape df /\ labels out = labels df /\
    forall j i c,
      nth_error (columns df) j = Some c ->
      (i < List.length (s_values (snd c)))%nat ->
      let m := pd_mean pd (floats (snd c)) in
      let sd := pd_std pd (floats (snd c)) in
      exists flag,
        at_ out j i = VBool flag /\
        (flag = true <->
         exists x,
           cell (snd c) i = VNum x /\
           ((side <> Some "+" /\
             fle (FNum x) (fsub m (fmul w sd)) = true) \/
            (side <> Some "-" /\
             fle (fadd m (fmul w sd)) (FNum x) = true))) /\
        (sd = FNaN -> flag = false).
Proof.
  intros Hn Hc Hd Hm Hw.
  unfold RowWise.OutlierComparator, Legacy.OutlierComparator.
  rewrite (outlier_by_method pd df text side ws w "sd"
             (fun s => limits_flag side w (pd_mean pd (floats s))
                         (pd_mean pd (floats s)) (pd_std pd (floats s)))
             Hn Hc Hd Hm Hw) by reflexivity.
  eexists. split; [reflexivity|]. split; [reflexivity|].
  split; [apply shape_remake|]. split; [apply labels_remake|].
  intros j i c Hj Hi. cbv zeta. rewrite (at_remake _ _ _ _ _ _ Hj Hi).
  set (m := pd_mean pd (floats (snd c))).
  set (sd := pd_std pd (floats (snd c))).
  destruct (limits_flag_iff side w m m sd (cell (snd c) i))
    as [flag [E Hiff]].
  exists flag. split; [exact E|]. split; [exact Hiff|].
  intros Hsd. destruct flag; [|reflexivity].
  destruct (proj1 Hiff eq_refl) as [x [_ H]]. rewrite Hsd in H.
  assert (Hnan : fmul w FNaN = FNaN) by (destruct w; reflexivity).
  rewrite Hnan in H.
  assert (Hlo : fsub m FNaN = FNaN) by (destruct m; reflexivity).
  assert (Hhi : fadd m FNaN = FNaN) by (destruct m; reflexivity).
  rewrite Hlo, Hhi in H. cbn in H.
  destruct H as [[_ H]|[_ H]]; discriminate.
Qed.

Lemma X25_outlier_sd_sides_witness :
  exists out,
    RowWise.OutlierComparator
      (mkPandas (fun _ _ => FNaN) (fun _ => FNum 2) (fun _ => FNum 1)
                (fun _ => FNaN))
      (mkFrame 3 [(LStr "v", mkSeries float64 [VNum 1; VNum 2; VNum 3])])
      (TScalar (VStr "+1 SD")) = Ok out /\
    at_ out 0 0 = VBool false /\ at_ out 0 2 = VBool true.
Proof.
  destruct (X25_outlier_sd_sides
              (mkPandas (fun _ _ => FNaN) (fun _ => FNum 2) (fun _ => FNum 1)
                        (fun _ => FNaN))
              (mkFrame 3 [(LStr "v", mkSeries float64 [VNum 1; VNum 2; VNum 3])])
              "+1 SD" (Some "+") "1" (FNum 1)) as [out [H _]];
    try (vm_compute; reflexivity); try (simpl; discriminate).
  - simpl. intros c [<-|[]]. reflexivity.
  - exists out. split; [exact H|].
    vm_compute in H. inversion H. split; reflexivity.
Defined.

(** X26 (comparators/mixins.py, [OutlierMixin._outlier_mad]; row_wise.py
    and comparators.py, [OutlierComparator.__call__]): with the MAD method
    on float64 columns a cell is flagged exactly when it holds a number at
    or below [median - w made] or at or above [median + w made], on the
    sides the sign leaves on, where [made] is the float 1.483 times the
    median pandas finds of the absolute deviations from the median of the
    column, and every operation is one of floats.  Missing cells are not
    flagged and shape and labels are kept. *)
Theorem X26_outlier_mad_sides (pd : Pandas) (df : DataFrame)
    (text : string) (side : option string) (ws : string) (w : pyfloat) :
  nrows df <> 0%nat -> columns df <> [] ->
  (forall c, In c (columns df) -> s_dtype (snd c) = float64) ->
  Base.match_outlier text = Some (side, ws, "mad") ->
  parse_float ws = Some w ->
  exists out,
    RowWise.OutlierComparator pd df (TScalar (VStr text)) = Ok out /\
    Legacy.OutlierComparator pd df (TScalar (VStr text)) = Ok out /\
    shape out = shape df /\ labels out = labels df /\
    forall j i c,
      nth_error (columns df) j = Some c ->
      (i < List.length (s_values (snd c)))%nat ->
      let m := pd_median pd (floats (snd c)) in
      let made :=
        fmul (round64 (1483 # 1000))
             (pd_median pd (map (fun x => fabs (fsub x m))
                                (floats (snd c)))) in
      exists flag,
        at_ out j i = VBool flag /\
        (flag = true <->
         exists x,
           cell (snd c) i = VNum x /\
           ((side <> Some "+" /\
             fle (FNum x) (fsub m (fmul w made)) = true) \/
            (side <> Some "-" /\
             fle (fadd m (fmul w made)) (FNum x) = true))).
Proof.
  intros Hn Hc Hd Hm Hw.
  unfold RowWise.OutlierComparator, Legacy.OutlierComparator.
  rewrite (outlier_by_method pd df text side ws w "mad"
             (fun s =>
                limits_flag side w (pd_median pd (floats s))
                  (pd_median pd (floats s))
                  (fmul (round64 (1483 # 1000))
                        (pd_median pd
                           (Base.abs_deviations s (pd_median pd (floats s))))))
             Hn Hc Hd Hm Hw) by reflexivity.
  eexists. split; [reflexivity|]. split; [reflexivity|].
  split; [apply shape_remake|]. split; [apply labels_remake|].
  intros j i c Hj Hi. cbv zeta. rewrite (at_remake _ _ _ _ _ _ Hj Hi).
  apply (limits_flag_iff side w (pd_median pd (floats (snd c)))).
Qed.

Lemma X26_outlier_mad_sides_witness :
  exists out,
    RowWise.OutlierComparator
      (mkPandas (fun _ _ => FNaN) (fun _ => FNaN) (fun _ => FNaN)
                (fun l => match l with
                          | FNum x :: _ =>
                              if Qeq_bool x 1 then FNum (7 # 2)
                              else FNum (3 # 2)
                          | _ => FNaN
                          end))
      df6 (TScalar (VStr "3 mad")) = Ok out /\
    at_ out 0 5 = VBool true /\ at_ out 0 0 = VBool false.
Proof.
  destruct (X26_outlier_mad_sides
              (mkPandas (fun _ _ => FNaN) (fun _ => FNaN) (fun _ => FNaN)
                        (fun l => match l with
                                  | FNum x :: _ =>
                                      if Qeq_bool x 1 then FNum (7 # 2)
                                      else FNum (3 # 2)
                                  | _ => FNaN
                                  end))
              df6 "3 mad" None "3" (FNum 3)) as [out [H _]];
    try (vm_compute; reflexivity); try (simpl; discriminate).
  - simpl. intros c [<-|[]]. reflexivity.
  - exists out. split; [exact H|].
    vm_compute in H. inversion H. split; reflexivity.
Defined.

(* ------------------------------------------------------------------ *)
(** ** [In] *)











(* ------------------------------------------------------------------ *)
(** ** The comparisons of the flat module, cell by cell *)

Lemma at_tabulate g df j i c :
  nth_error (columns df) j = Some c -> (i < nrows df)%nat ->
  at_ (tabulate g df) j i = VBool (g (snd c) i).
Proof.
  intros Hj Hi. unfold at_, tabulate. simpl.
  rewrite nth_error_map, Hj. simpl. unfold cell. simpl.
  now rewrite nth_map_seq.
Qed.

Lemma invert_tabulate g df :
  df_invert (tabulate g df) = tabulate (fun s i => negb (g s i)) df.
Proof.
  unfold df_invert, map_cells, tabulate. simpl. f_equal.
  rewrite map_map. apply map_ext. intros c. simpl. do 2 f_equal.
  now rewrite map_map.
Qed.

Lemma Qle_bool_false a b : Qle_bool a b = false -> (b < a)%Q.
Proof.
  intros H. apply Qnot_le_lt. intros Hle.
  apply Qle_bool_iff in Hle. congruence.
Qed.

Lemma Qle_bool_split a b : Qle_bool a b = Qlt_bool a b || Qeq_bool b a.
Proof.
  unfold Qlt_bool.
  destruct (Qle_bool a b) eqn:E1, (Qle_bool b a) eqn:E2,
           (Qeq_bool b a) eqn:E3; simpl; try reflexivity; exfalso;
    try apply Qle_bool_iff in E1; try apply Qle_bool_iff in E2;
    try apply Qle_bool_false in E1; try apply Qle_bool_false in E2;
    try apply Qeq_bool_iff in E3; try apply Qeq_bool_neq in E3; lra.
Qed.

Lemma Qlt_bool_iff a b : Qlt_bool a b = true <-> (a < b)%Q.
Proof.
  unfold Qlt_bool. rewrite negb_true_iff. split.
  - apply Qle_bool_false.
  - intros H. destruct (Qle_bool b a) eqn:E; [|reflexivity].
    apply Qle_bool_iff in E. lra.
Qed.

(** X22 (comparators.py, [EqComparator] .. [LtEqComparator]): on a
    dataset of float64 columns and a scalar number [q] as target, the six
    comparisons of the flat module all return, and cell by cell [>=] is
    [>] or [==], [<=] is [<] or [==] and [!=] is the negation of [==].
    On a cell holding a number the three of [>], [==] and [<] say how the
    number stands to [q]; a missing cell fails every comparison but
    [!=]. *)
Theorem X22_flat_comparisons_on_cells (df : DataFrame) (q : Q) :
  numeric_frame df ->
  exists eq ne gt ge lt le,
    Legacy.EqComparator df (TScalar (VNum q)) = Ok eq /\
    Legacy.UnEqComparator df (TScalar (VNum q)) = Ok ne /\
    Legacy.GtComparator df (TScalar (VNum q)) = Ok gt /\
    Legacy.GtEqComparator df (TScalar (VNum q)) = Ok ge /\
    Legacy.LtComparator df (TScalar (VNum q)) = Ok lt /\
    Legacy.LtEqComparator df (TScalar (VNum q)) = Ok le /\
    forall j i c,
      nth_error (columns df) j = Some c -> (i < nrows df)%nat ->
      exists e g l : bool,
        at_ eq j i = VBool e /\ at_ ne j i = VBool (negb e) /\
        at_ gt j i = VBool g /\ at_ ge j i = VBool (g || e) /\
        at_ lt j i = VBool l /\ at_ le j i = VBool (l || e) /\
        match cell (snd c) i with
        | VNum x => (e = true <-> x == q) /\ (g = true <-> q < x) /\
                    (l = true <-> x < q)
        | _ => e = false /\ g = false /\ l = false
        end%Q.
Proof.
  intros Hnf.
  pose proof (legacy_eq_tabulates df q Hnf) as Heq.
  assert (Hcell : forall c i, In c (columns df) -> (i < nrows df)%nat ->
                              number_cell (cell (snd c) i)).
  { intros c i Hin Hi. destruct Hnf as (Hwf & _ & _ & _ & Hf).
    rewrite Forall_forall in Hf. destruct (Hf c Hin) as [_ Hnum].
    unfold wf_frame in Hwf. rewrite Forall_forall in Hwf.
    rewrite Forall_forall in Hnum. apply Hnum. unfold cell.
    apply nth_In. now rewrite (Hwf c Hin). }
  do 6 eexists.
  split; [exact Heq|].
  split; [unfold Legacy.UnEqComparator; rewrite Heq; cbn [bind];
          rewrite invert_tabulate; reflexivity|].
  split; [apply (legacy_compare_tabulates _ df q Hnf)|].
  split; [apply (legacy_compare_tabulates _ df q Hnf)|].
  split; [apply (legacy_compare_tabulates _ df q Hnf)|].
  split; [apply (legacy_compare_tabulates _ df q Hnf)|].
  intros j i c Hj Hi.
  rewrite !(at_tabulate _ _ _ _ _ Hj Hi).
  pose proof (Hcell c i (nth_error_In _ _ Hj) Hi) as Hnc.
  destruct (cell (snd c) i) as [x| | |]; try contradiction.
  - exists (Qeq_bool x q), (Qlt_bool q x), (Qlt_bool x q).
    cbn [value_eq to_number].
    repeat split; try reflexivity;
      try (f_equal; apply Qle_bool_split);
      try (apply Qeq_bool_iff); try (apply Qlt_bool_iff).
    f_equal. rewrite Qle_bool_split. f_equal.
    destruct (Qeq_bool q x) eqn:E1, (Qeq_bool x q) eqn:E2; try reflexivity;
      exfalso;
      try apply Qeq_bool_iff in E1; try apply Qeq_bool_iff in E2;
      try apply Qeq_bool_neq in E1; try apply Qeq_bool_neq in E2; lra.
  - exists false, false, false. repeat split; reflexivity.
Qed.

Lemma X22_flat_comparisons_on_cells_witness :
  exists ge,
    Legacy.GtEqComparator df6 (TScalar (VNum 3)) = Ok ge /\
    at_ ge 0 2 = VBool true /\ at_ ge 0 1 = VBool false.
Proof.
  destruct (X22_flat_comparisons_on_cells df6 3 numeric_df6)
    as (eq & ne & gt & ge & lt & le & _ & _ & _ & H & _).
  exists ge. split; [exact H|].
  vm_compute in H. inversion H. split; reflexivity.
Defined.

Lemma mapM_astype_text t v n :
  astype float64 (VStr t) = Ok v ->
  mapM (astype float64) (repeat (VStr t) n) = Ok (repeat v n).
Proof.
  intros H. induction n as [|n IH]; [reflexivity|].
  cbn [repeat mapM]. rewrite H. cbn [bind]. rewrite IH. reflexivity.
Qed.

Lemma compare_numbers_text op df t :
  Base.invalid_columns "number" df = [] ->
  (forall q, parse_float t = Some (FNum q) ->
             Legacy.compare_numbers op df (TScalar (VStr t))
             = Legacy.compare_numbers op df (TScalar (VNum q))) /\
  (parse_float t = Some FNaN ->
   Legacy.compare_numbers op df (TScalar (VStr t))
   = Legacy.compare_numbers op df (TScalar VNaN)) /\
  (parse_float t = None -> nrows df <> 0%nat ->
   Legacy.compare_numbers op df (TScalar (VStr t))
   = Raise (LibraryError ValueError)) /\
  (nrows df = 0%nat ->
   exists out, Legacy.compare_numbers op df (TScalar (VStr t)) = Ok out /\
               shape out = shape df).
Proof.
  intros Hnum.
  unfold Legacy.compare_numbers, Legacy._check_dtypes, Base._check_dtypes.
  rewrite Hnum. cbn [bind]. unfold series_astype. cbn [as_series s_values].
  split; [|split; [|split]].
  - intros q Hq.
    rewrite (mapM_astype_text t (VNum q)) by (cbn [astype]; now rewrite Hq).
    now rewrite mapM_astype_repeat.
  - intros Hq.
    rewrite (mapM_astype_text t VNaN) by (cbn [astype]; now rewrite Hq).
    rewrite (mapM_ok (astype float64) (fun _ => VNaN)).
    + cbn [bind]. now rewrite map_repeat.
    + intros a Ha. apply repeat_spec in Ha. now subst.
  - intros Hq Hn. destruct (nrows df) as [|n]; [congruence|].
    cbn [repeat mapM astype]. now rewrite Hq.
  - intros Hn. rewrite Hn. cbn [repeat mapM bind].
    eexists. split; [reflexivity|].
    unfold shape, Legacy.flex_compare. cbn [nrows columns s_values].
    rewrite Hn, length_map. reflexivity.
Qed.

(** X23 (comparators.py, [GtComparator] .. [LtEqComparator]): the flat
    [>], [>=], [<] and [<=] read a text target as a float, as [float()]
    reads it.  On a dataset of float64 columns, a text that spells a
    finite number gives what the float nearest to that number gives, and
    a text that spells NaN what the missing target gives; a text of ASCII
    characters that spells no number raises the [ValueError] of the
    conversion as soon as the dataset has a row, and nothing on a dataset
    without rows, where the comparison returns a frame of the same
    shape. *)
Theorem X23_flat_target_is_read_as_float (df : DataFrame) (t : string) :
  Base.invalid_columns "number" df = [] ->
  Forall (fun cmp =>
            (forall q, parse_float t = Some (FNum q) ->
                       cmp df (TScalar (VStr t)) = cmp df (TScalar (VNum q))) /\
            (parse_float t = Some FNaN ->
             cmp df (TScalar (VStr t)) = cmp df (TScalar VNaN)) /\
            (ascii_text t = true -> parse_float t = None ->
             nrows df <> 0%nat ->
             cmp df (TScalar (VStr t)) = Raise (LibraryError ValueError)) /\
            (nrows df = 0%nat ->
             exists out, cmp df (TScalar (VStr t)) = Ok out /\
                         shape out = shape df))
    [ Legacy.GtComparator; Legacy.GtEqComparator; Legacy.LtComparator;
      Legacy.LtEqComparator ].
Proof.
  intros Hnum.
  assert (H : forall op,
            (fun cmp =>
               (forall q, parse_float t = Some (FNum q) ->
                          cmp df (TScalar (VStr t)) = cmp df (TScalar (VNum q))) /\
               (parse_float t = Some FNaN ->
                cmp df (TScalar (VStr t)) = cmp df (TScalar VNaN)) /\
               (ascii_text t = true -> parse_float t = None ->
                nrows df <> 0%nat ->
                cmp df (TScalar (VStr t)) = Raise (LibraryError ValueError)) /\
               (nrows df = 0%nat ->
                exists out, cmp df (TScalar (VStr t)) = Ok out /\
                            shape out = shape df))
              (Legacy.compare_numbers op)).
  { intros op.
    destruct (compare_numbers_text op df t Hnum) as (A & B & C & D).
    split; [exact A|]. split; [exact B|].
    split; [intros _; exact C | exact D]. }
  repeat (apply Forall_cons; [apply H|]). apply Forall_nil.
Qed.

Lemma X23_flat_target_is_read_as_float_witness :
  Legacy.GtComparator df6 (TScalar (VStr " 3.0 "))
  = Legacy.GtComparator df6 (TScalar (VNum 3))
  /\ Legacy.LtComparator df6 (TScalar (VStr "three"))
     = Raise (LibraryError ValueError).
Proof.
  assert (Hnum : Base.invalid_columns "number" df6 = []) by reflexivity.
  pose proof (X23_flat_target_is_read_as_float df6 " 3.0 " Hnum) as H1.
  pose proof (X23_flat_target_is_read_as_float df6 "three" Hnum) as H2.
  split.
  - apply (proj1 (proj1 (Forall_forall _ _) H1 Legacy.GtComparator
                    (or_introl eq_refl))).
    vm_compute. reflexivity.
  - apply (proj1 (proj2 (proj2 (proj1 (Forall_forall _ _) H2
                                  Legacy.LtComparator
                                  (or_intror (or_intror (or_introl eq_refl))))))).
    + reflexivity.
    + vm_compute. reflexivity.
    + simpl. discriminate.
Defined.

Lemma mapM_astype_numbers vs :
  Forall number_cell vs -> mapM (astype float64) vs = Ok vs.
Proof.
  induction 1 as [|v vs Hv _ IH]; [reflexivity|].
  cbn [mapM]. rewrite IH.
  destruct v; try contradiction; reflexivity.
Qed.

(** X24 (comparators.py, [EqComparator] and [UnEqComparator]): on a
    dataset of float64 columns under distinct labels, with a Series of
    numbers as target the flat [==] compares row by row, the cell of row
    [i] with the entry [i] of the target, in every column, and [!=] gives
    the negation; a Series that has not one entry per row of the dataset
    is refused with the [ValueError] of pandas. *)
Theorem X24_flat_eq_row_by_row (df : DataFrame) (s : Series) :
  columns df <> [] -> NoDup (labels df) ->
  (forall c, In c (columns df) -> s_dtype (snd c) = float64) ->
  Forall number_cell (s_values s) ->
  (List.length (s_values s) = nrows df ->
   exists eq ne,
     Legacy.EqComparator df (TSeries s) = Ok eq /\
     Legacy.UnEqComparator df (TSeries s) = Ok ne /\
     shape eq = shape df /\ shape ne = shape df /\
     forall j i c,
       nth_error (columns df) j = Some c -> (i < nrows df)%nat ->
       at_ eq j i = VBool (value_eq (cell (snd c) i) (cell s i)) /\
       at_ ne j i = VBool (negb (value_eq (cell (snd c) i) (cell s i))))
  /\ (List.length (s_values s) <> nrows df ->
      Legacy.EqComparator df (TSeries s) = Raise (LibraryError ValueError) /\
      Legacy.UnEqComparator df (TSeries s) = Raise (LibraryError ValueError)).
Proof.
  intros Hc Hnd Hd Hs.
  assert (Hcast : forall c, In c (columns df) ->
            (d <- Legacy.column_dtype df c ;; series_astype d s)
            = Ok (mkSeries float64 (s_values s))).
  { intros c Hin. rewrite (column_dtype_distinct df c Hnd Hin). cbn [bind].
    rewrite (Hd c Hin). unfold series_astype.
    now rewrite (mapM_astype_numbers _ Hs). }
  assert (Hcol : forall c (k : Series -> res (label * Series)),
            In c (columns df) ->
            (d <- Legacy.column_dtype df c ;;
             t <- series_astype d s ;; k t)
            = k (mkSeries float64 (s_values s))).
  { intros c k Hin. pose proof (Hcast c Hin) as H.
    destruct (Legacy.column_dtype df c) as [d|]; cbn [bind] in *;
      [|discriminate].
    now rewrite H. }
  split.
  - intros Hlen.
    assert (E : Legacy.EqComparator df (TSeries s)
                = Ok (tabulate (fun col i => value_eq (cell col i) (cell s i)) df)).
    { unfold Legacy.EqComparator. cbn [as_series].
      rewrite (mapM_ok _ (fun c =>
                 (fst c, mkSeries bool_
                           (map (fun i => VBool (value_eq (cell (snd c) i)
                                                          (cell s i)))
                                (seq 0 (nrows df)))))).
      - cbn [bind]. unfold tabulate.
        destruct (columns df) as [|c cs] eqn:Ec; [congruence|]. reflexivity.
      - intros c Hin. rewrite (Hcol c _ Hin).
        unfold Legacy.series_eq. cbn [s_values]. rewrite Hlen, Nat.eqb_refl.
        reflexivity. }
    do 2 eexists. split; [exact E|].
    split; [unfold Legacy.UnEqComparator; rewrite E; cbn [bind];
            rewrite invert_tabulate; reflexivity|].
    split; [unfold shape, tabulate; simpl; now rewrite length_map|].
    split; [unfold shape, tabulate; simpl; now rewrite length_map|].
    intros j i c Hj Hi. now rewrite !(at_tabulate _ _ _ _ _ Hj Hi).
  - intros Hlen.
    assert (E : Legacy.EqComparator df (TSeries s)
                = Raise (LibraryError ValueError)).
    { unfold Legacy.EqComparator. cbn [as_series].
      assert (Hall : forall c, In c (columns df) ->
                (d <- Legacy.column_dtype df c ;;
                 t <- series_astype d s ;;
                 r <- Legacy.series_eq (nrows df) (snd c) t ;;
                 Ok (fst c, r)) = Raise (LibraryError ValueError)).
      { intros c Hin. rewrite (Hcol c _ Hin).
        unfold Legacy.series_eq. cbn [s_values].
        apply Nat.eqb_neq in Hlen. now rewrite Hlen. }
      destruct (columns df) as [|c cs] eqn:Ec; [congruence|].
      cbn [mapM]. now rewrite (Hall c (or_introl eq_refl)). }
    split; [exact E|]. unfold Legacy.UnEqComparator. now rewrite E.
Qed.

Lemma X24_flat_eq_row_by_row_witness :
  (exists eq,
     Legacy.EqComparator df_a (TSeries (mkSeries float64 [VNum 1; VNum 5]))
       = Ok eq /\
     at_ eq 0 0 = VBool true /\ at_ eq 0 1 = VBool false)
  /\ Legacy.EqComparator df_a (TSeries (mkSeries float64 [VNum 1]))
     = Raise (LibraryError ValueError).
Proof.
  assert (Hc : columns df_a <> []) by (simpl; discriminate).
  assert (Hnd : NoDup (labels df_a)) by (repeat constructor; simpl; tauto).
  assert (Hd : forall c, In c (columns df_a) -> s_dtype (snd c) = float64)
    by (simpl; intros c [<-|[]]; reflexivity).
  split.
  - destruct (proj1 (X24_flat_eq_row_by_row df_a
                       (mkSeries float64 [VNum 1; VNum 5]) Hc Hnd Hd
                       ltac:(repeat constructor)) eq_refl)
      as (eq & ne & H & _).
    exists eq. split; [exact H|].
    vm_compute in H. inversion H. split; reflexivity.
  - apply (proj2 (X24_flat_eq_row_by_row df_a (mkSeries float64 [VNum 1])
                    Hc Hnd Hd ltac:(repeat constructor))).
    simpl. discriminate.
Defined.

(* ------------------------------------------------------------------ *)
(** ** The logical operators *)

Module LogicalFacts.
Import Logical.

Lemma boolean_cell df c i :
  boolean_frame df -> In c (columns df) -> (i < nrows df)%nat ->
  exists b, cell (snd c) i = VBool b.
Proof.
  intros [Hwf Hb] Hin Hi.
  unfold wf_frame in Hwf. rewrite Forall_forall in Hwf, Hb.
  pose proof (Hb c Hin) as Hc. rewrite Forall_forall in Hc.
  apply Hc. unfold cell. apply nth_In. now rewrite (Hwf c Hin).
Qed.

Lemma at_to_frame bs i :
  (i < List.length bs)%nat -> at_ (to_frame bs) 0 i = VBool (nth i bs false).
Proof.
  intros Hi. unfold at_, to_frame, cell, bool_series. simpl.
  rewrite nth_indep with (d' := VBool false) by now rewrite length_map.
  apply (map_nth VBool).
Qed.

Lemma at_invert_to_frame bs i :
  (i < List.length bs)%nat ->
  at_ (df_invert (to_frame bs)) 0 i = VBool (negb (nth i bs false)).
Proof.
  intros Hi. unfold at_, df_invert, map_cells, to_frame, cell, bool_series.
  simpl. rewrite map_map.
  rewrite nth_indep with (d' := VBool (negb false))
    by now rewrite length_map.
  apply (map_nth (fun b => VBool (negb b))).
Qed.

Lemma any_row df i :
  boolean_frame df -> (i < nrows df)%nat ->
  nth i (df_any df) false = true <->
  exists c, In c (columns df) /\ cell (snd c) i = VBool true.
Proof.
  intros Hb Hi. unfold df_any. rewrite nth_map_seq by exact Hi.
  rewrite existsb_exists. split.
  - intros [c [Hin H]]. exists c. split; [exact Hin|].
    destruct (boolean_cell df c i Hb Hin Hi) as [b E].
    rewrite E in *. simpl in H. now subst b.
  - intros [c [Hin E]]. exists c. split; [exact Hin|]. now rewrite E.
Qed.

Lemma all_row df i :
  boolean_frame df -> (i < nrows df)%nat ->
  nth i (df_all df) false = true <->
  forall c, In c (columns df) -> cell (snd c) i = VBool true.
Proof.
  intros Hb Hi. unfold df_all. rewrite nth_map_seq by exact Hi.
  rewrite forallb_forall. split.
  - intros H c Hin. specialize (H c Hin).
    destruct (boolean_cell df c i Hb Hin Hi) as [b E].
    rewrite E in *. simpl in H. now subst b.
  - intros H c Hin. now rewrite (H c Hin).
Qed.

(** X27 (operators/logical.py, [AnyOperator], [AllOperator],
    [NoneOperator]): each logical operator reduces a frame of booleans to
    one column, labelled [0], with the rows of the frame.  On each row
    [any] holds exactly when some column is true, [all] when every column
    is true and [none] when every column is false.  Over no column at all
    [any] is false on every row, and [all] and [none] are true. *)
Theorem X27_logical_operators_reduce_rows (df : DataFrame) :
  boolean_frame df ->
  (shape (AnyOperator df) = (nrows df, 1%nat) /\
   shape (AllOperator df) = (nrows df, 1%nat) /\
   shape (NoneOperator df) = (nrows df, 1%nat)) /\
  (labels (AnyOperator df) = [LInt 0] /\
   labels (AllOperator df) = [LInt 0] /\
   labels (NoneOperator df) = [LInt 0]) /\
  forall i, (i < nrows df)%nat ->
    exists any all none : bool,
      at_ (AnyOperator df) 0 i = VBool any /\
      at_ (AllOperator df) 0 i = VBool all /\
      at_ (NoneOperator df) 0 i = VBool none /\
      (any = true <->
       exists c, In c (columns df) /\ cell (snd c) i = VBool true) /\
      (all = true <->
       forall c, In c (columns df) -> cell (snd c) i = VBool true) /\
      (none = true <->
       forall c, In c (columns df) -> cell (snd c) i = VBool false) /\
      (columns df = [] -> any = false /\ all = true /\ none = true).
Proof.
  intros Hb.
  assert (La : List.length (df_any df) = nrows df)
    by (unfold df_any; now rewrite length_map, length_seq).
  assert (Ll : List.length (df_all df) = nrows df)
    by (unfold df_all; now rewrite length_map, length_seq).
  split; [|split].
  - unfold AnyOperator, AllOperator, NoneOperator, shape, to_frame, df_invert,
      map_cells. simpl. now rewrite La, Ll.
  - repeat split; reflexivity.
  - intros i Hi.
    exists (nth i (df_any df) false), (nth i (df_all df) false),
           (negb (nth i (df_any df) false)).
    split; [apply at_to_frame; now rewrite La|].
    split; [apply at_to_frame; now rewrite Ll|].
    split; [apply at_invert_to_frame; now rewrite La|].
    split; [apply (any_row df i Hb Hi)|].
    split; [apply (all_row df i Hb Hi)|].
    split.
    + rewrite negb_true_iff. split.
      * intros Hf c Hin.
        destruct (boolean_cell df c i Hb Hin Hi) as [[|] E]; [|exact E].
        assert (nth i (df_any df) false = true)
          by (apply (any_row df i Hb Hi); now exists c).
        congruence.
      * intros H. destruct (nth i (df_any df) false) eqn:E; [|reflexivity].
        apply (any_row df i Hb Hi) in E. destruct E as [c [Hin E]].
        rewrite (H c Hin) in E. discriminate.
    + intros Hc. unfold df_any, df_all.
      rewrite !nth_map_seq by exact Hi. rewrite Hc. repeat split.
Qed.

Lemma X27_logical_operators_reduce_rows_witness :
  shape (NoneOperator
           (mkFrame 2 [(LStr "a", bool_series [true; false]);
                       (LStr "b", bool_series [false; false])]))
  = (2, 1)%nat
  /\ labels (AllOperator
               (mkFrame 2 [(LStr "a", bool_series [true; false]);
                           (LStr "b", bool_series [false; false])]))
     = [LInt 0].
Proof.
  assert (Hb : boolean_frame
                 (mkFrame 2 [(LStr "a", bool_series [true; false]);
                             (LStr "b", bool_series [false; false])])).
  { split; repeat constructor; simpl; eauto. }
  pose proof (X27_logical_operators_reduce_rows _ Hb) as [[_ [_ Hs]] [[_ [Hl _]] _]].
  split; [exact Hs | exact Hl].
Defined.

End LogicalFacts.

(* ------------------------------------------------------------------ *)
(** ** What the parser makes of the token after a result *)

Module ParserNext.
Import Parser ParserTerms ChainTerms.

Lemma loop_conn_any_token ev id df f conn nt rest st :
  connective conn -> type nt <> GROUP_OPEN ->
  loop f ev id df st (conn :: nt :: rest)
  = loop f ev id df st (conn :: tokE (value nt) :: rest).
Proof.
  intros Hc Hn. destruct f as [|f]; [reflexivity|]. cbn [loop].
  destruct Hc as [Hc|Hc]; rewrite Hc; destruct st as [res|]; try reflexivity;
    destruct (type nt) eqn:E; try congruence; reflexivity.
Qed.

(** The outcome at the fuel that is enough is the outcome at any larger
    fuel. *)
Lemma evaluate_at_enough ev id df toks f x :
  (enough toks <= f)%nat ->
  loop f ev id df None toks = Some x ->
  evaluate (enough toks) ev id df toks = Some x.
Proof.
  intros Hle H. destruct (ParserFacts.evaluate_total ev id df toks) as [y Hy].
  rewrite Hy. f_equal.
  pose proof (ParserFacts.loop_mono ev id df _ _ _ _ _ Hle Hy) as Hy'.
  congruence.
Qed.

(** X28 (parser.py, [Parser.evaluate]): after a part of the rule that
    holds no group and evaluates to a result, a connective takes the next
    token as its right-hand side whatever kind of token it is, a
    [GROUP_OPEN] apart: the text of a second connective or of a
    [GROUP_CLOSE] is handed to the leaf evaluator like the text of a
    clause, and the parser raises no grammar error of its own.  A clause
    that follows the result directly raises the [ValueError] of the
    missing connective, whatever comes after it. *)
Theorem X28_after_a_result (ev : Evaluator) id df (pre : Tokenizer) r :
  group_free pre ->
  evaluate (enough pre) ev id df pre = Some (Ok (r, [])) ->
  (forall conn nt rest,
     connective conn -> type nt <> GROUP_OPEN ->
     evaluate (enough (pre ++ conn :: nt :: rest)) ev id df
              (pre ++ conn :: nt :: rest)
     = evaluate (enough (pre ++ conn :: tokE (value nt) :: rest)) ev id df
                (pre ++ conn :: tokE (value nt) :: rest))
  /\ (forall e rest,
        type e = EXPR ->
        evaluate (enough (pre ++ e :: rest)) ev id df (pre ++ e :: rest)
        = Some (Raise (Raised ValueError
                         "Expected and / or, got expression instead."))).
Proof.
  intros Hgf H. unfold evaluate in H.
  destruct (ParserMore.loop_prefix ev id df _ _ _ _ _ Hgf H)
    as [st [Hst [_ Hgo]]].
  split.
  - intros conn nt rest Hc Hn.
    set (suf := conn :: nt :: rest).
    set (suf' := conn :: tokE (value nt) :: rest).
    destruct (ParserFacts.loop_total ev id df (enough suf) st suf)
      as [x [Hx _]]; [unfold enough; lia|].
    assert (Hx' : loop (enough suf) ev id df st suf' = Some x)
      by (unfold suf'; rewrite <- loop_conn_any_token by assumption; exact Hx).
    rewrite (evaluate_at_enough ev id df (pre ++ suf)
               (enough pre + enough suf) x);
      [|unfold enough; rewrite length_app; lia | now apply Hgo].
    symmetry. apply (evaluate_at_enough ev id df (pre ++ suf')
                       (enough pre + enough suf) x).
    + unfold enough, suf, suf'. rewrite length_app. simpl. lia.
    + now apply Hgo.
  - intros e rest He.
    apply (evaluate_at_enough ev id df (pre ++ e :: rest)
             (enough pre + enough (e :: rest))).
    + unfold enough. rewrite length_app. simpl. lia.
    + apply Hgo. destruct st as [res|]; [|discriminate].
      unfold enough. cbn [loop]. now rewrite He.
Qed.

Lemma X28_after_a_result_witness :
  evaluate 5 ev0 "v" df0 [tokE "x"; tokAnd; tokClose; tokOr]
  = evaluate 5 ev0 "v" df0 [tokE "x"; tokAnd; tokE ")"; tokOr]
  /\ evaluate 4 ev0 "v" df0 [tokE "x"; tokE "y"; tokOr]
     = Some (Raise (Raised ValueError
                      "Expected and / or, got expression instead.")).
Proof.
  assert (Hgf : group_free [tokE "x"])
    by (repeat constructor; simpl; discriminate).
  pose proof (X28_after_a_result ev0 "v" df0 [tokE "x"]
                (bool_frame (LStr "v") [false; false; true]) Hgf eq_refl)
    as [H1 H2].
  split.
  - apply (H1 tokAnd tokClose [tokOr]); [left; reflexivity | discriminate].
  - apply (H2 (tokE "y") [tokOr]). reflexivity.
Defined.

End ParserNext.

(* ------------------------------------------------------------------ *)
(** ** The dtype guard *)

Lemma label_eqb_eq a b : label_eqb a b = true <-> a = b.
Proof.
  destruct a as [s|x], b as [t|y]; simpl; try (split; discriminate).
  - rewrite String.eqb_eq. split; congruence.
  - rewrite Z.eqb_eq. split; congruence.
Qed.

Lemma dedup_nil l : Base.dedup l = [] <-> l = [].
Proof. destruct l; simpl; split; congruence. Qed.

Lemma filter_nil_iff {A} (f : A -> bool) l :
  filter f l = [] <-> forall x, In x l -> f x = false.
Proof.
  split; [|apply filter_none].
  induction l as [|a l IH]; simpl; intros H x Hin; [contradiction|].
  destruct (f a) eqn:E; [discriminate|].
  destruct Hin as [<-|Hin]; [exact E | now apply IH].
Qed.

Lemma invalid_columns_nil df dtype :
  Base.invalid_columns dtype df = [] <->
  forall l, In l (labels df) -> In l (Base.select_dtypes dtype df).
Proof.
  unfold Base.invalid_columns, labels.
  rewrite dedup_nil, filter_nil_iff. split; intros H l Hin.
  - specialize (H l Hin). apply negb_false_iff in H.
    apply existsb_exists in H. destruct H as [y [Hy E]].
    apply label_eqb_eq in E. now subst.
  - apply negb_false_iff. apply existsb_exists.
    exists l. split; [now apply H | apply label_eqb_refl].
Qed.

Lemma label_names_error inv e :
  mapM (fun l => match l with
                 | LStr s => Ok s
                 | LInt _ => Raise (LibraryError TypeError)
                 end) inv = Raise e ->
  e = LibraryError TypeError.
Proof.
  induction inv as [|[s|z] inv IH]; simpl; intros H.
  - discriminate.
  - destruct (mapM _ inv) as [names|e'] eqn:E; simpl in H; [discriminate|].
    inversion H; subst. now apply IH.
  - now inversion H.
Qed.

(** X30 (comparators/base.py, [Comparator._check_dtypes]): the guard goes
    by the labels of the columns, as sets: it passes exactly when every
    label of the dataset is the label of a column that [select_dtypes]
    keeps, so a column of another dtype that shares its label with a
    column of the dtype passes unnoticed; and whenever it does not pass
    the exception is a [TypeError]. *)
Theorem X30_guard_goes_by_label (df : DataFrame) (dtype : string) :
  (Base._check_dtypes df dtype = Ok tt <->
   forall l, In l (labels df) -> In l (Base.select_dtypes dtype df))
  /\ (forall e, Base._check_dtypes df dtype = Raise e ->
                exn_kind_of e = TypeError)
  /\ (Base._check_dtypes df dtype = Ok tt \/
      exists e, Base._check_dtypes df dtype = Raise e).
Proof.
  rewrite <- invalid_columns_nil. unfold Base._check_dtypes.
  destruct (Base.invalid_columns dtype df) as [|l0 inv] eqn:E.
  - split; [split; reflexivity|]. split; [discriminate | now left].
  - remember (l0 :: inv) as invalid.
    destruct (mapM _ invalid) as [names|e'] eqn:Em; cbn [bind].
    + split; [split; [discriminate | subst; discriminate]|].
      split; [intros e H; now inversion H | right; eauto].
    + split; [split; [discriminate | subst; discriminate]|].
      split; [|right; eauto].
      intros e H. inversion H; subst e.
      now rewrite (label_names_error _ _ Em).
Qed.

Lemma X30_guard_goes_by_label_witness :
  Base._check_dtypes
    (mkFrame 1 [(LStr "a", mkSeries float64 [VNum 1]);
                (LStr "a", mkSeries object [VStr "x"])]) "number" = Ok tt.
Proof.
  apply (proj1 (X30_guard_goes_by_label _ "number")).
  simpl. intros l [<-|[<-|[]]]; now left.
Defined.

(* ------------------------------------------------------------------ *)
(** ** [Contains] *)


